(** * Research Powerpack MCP server: the parallel request orchestration core

    A shallow embedding of the TypeScript sources of the server
    (error classifier, retry engines, scraper client, Reddit client,
    budget allocators, batched executors and the tool registry), followed
    by the properties of the natural-language specification that are
    stated about them.

    Conventions of the embedding.
    - A JavaScript [number] that holds an integer (status codes, counts,
      budgets, attempt numbers) is a [Z]; delays in milliseconds, which
      carry a fractional jitter, are exact rationals [Q].
    - A JavaScript string is a [string]; the only case mapping used by the
      sources, [toLowerCase], is modelled on ASCII letters, which is all
      that the searched substrings contain.
    - A call that can throw yields an [Outcome]: [Returned v] or
      [Threw e]. A [try]/[catch] is a [match] on the outcome.
    - The outside world (network replies, the outcome of a tool handler or
      of schema validation, samples of [Math.random]) enters through
      explicit oracle arguments; effects that a property talks about
      (network calls, sleeps, handler invocations) are recorded in an
      event trace returned next to the result. *)

From Stdlib Require Import ZArith QArith Qminmax Qround Qpower Lqa Lia List String Ascii Bool.
From Stdlib Require Import Sorting.Sorted Sorting.Permutation.
From stdpp Require Import base strings gmap list pretty.

#[local] Set Warnings "-register-all".
#[local] Open Scope string_scope.
#[local] Open Scope list_scope.

(** An integer is read as a rational number where one is expected. *)
#[local] Coercion inject_Z : Z >-> Q.

(** ** Outcomes of calls that may throw *)

Inductive Outcome (E A : Type) : Type :=
| Returned (a : A)
| Threw (e : E).
Arguments Returned {E A} a.
Arguments Threw {E A} e.

(** ** JavaScript string helpers *)

Module JsString.

Definition lower_ascii (c : ascii) : ascii :=
  let n := nat_of_ascii c in
  if (65 <=? n)%nat && (n <=? 90)%nat then ascii_of_nat (n + 32) else c.

(** [s.toLowerCase()] on ASCII letters. *)
Fixpoint toLowerCase (s : string) : string :=
  match s with
  | EmptyString => EmptyString
  | String c rest => String (lower_ascii c) (toLowerCase rest)
  end.

(** [hay.includes(needle)]. *)
Fixpoint includes (hay needle : string) : bool :=
  String.prefix needle hay
  || match hay with
     | EmptyString => false
     | String _ rest => includes rest needle
     end.

(** [xs.join(sep)]. *)
Fixpoint join (sep : string) (xs : list string) : string :=
  match xs with
  | [] => ""
  | [x] => x
  | x :: rest => x +:+ sep +:+ join sep rest
  end.

(** The line feed character. *)
Definition newline : string := String "010"%char EmptyString.

(** [a || b] on strings: the empty string is falsy. *)
Definition or_else (a b : string) : string :=
  if String.eqb a "" then b else a.

(** [a || b] where [a] may also be [undefined]. *)
Definition opt_or_else (a : option string) (b : string) : string :=
  match a with
  | Some s => or_else s b
  | None => b
  end.

End JsString.

(** ** utils/errors.ts: structured errors and their classification *)

Module Errors.

Inductive ErrorCodeType : Type :=
| RATE_LIMITED
| TIMEOUT
| NETWORK_ERROR
| SERVICE_UNAVAILABLE
| AUTH_ERROR
| INVALID_INPUT
| NOT_FOUND
| QUOTA_EXCEEDED
| INTERNAL_ERROR
| PARSE_ERROR
| UNKNOWN_ERROR.

#[global] Instance ErrorCodeType_eq_dec : EqDecision ErrorCodeType.
Proof. solve_decision. Defined.

Record StructuredError : Type := mkStructuredError {
  code : ErrorCodeType;
  message : string;
  retryable : bool;
  statusCode : option Z;
  cause : option string
}.

(** A value that reaches a [catch] clause, seen through the properties
    that [classifyError] and the retry engines read from it.
    [js_toString] is [String(error)]; [js_cause] is [String(err.cause)]
    when [err.cause] is truthy. The record holds the objects whose
    [message] is missing or a string and that [String] can render, as the
    errors of the platform and of the providers are; the other values are
    told apart in [Unknown.Value] below. *)
Record JsObject : Type := mkJsObject {
  js_isDOMException : bool;
  js_isError : bool;
  js_message : option string;
  js_response_status : option Z;
  js_status : option Z;
  js_code : option string;
  js_name : option string;
  js_cause : option string;
  js_toString : string
}.

Inductive JsThrown : Type :=
| JsNull
| JsUndefined
| JsObj (o : JsObject).

(** [a || b] on optional numbers: [undefined] and [0] are falsy. *)
Definition num_or (a b : option Z) : option Z :=
  match a with
  | Some z => if (z =? 0)%Z then b else Some z
  | None => b
  end.

(** [if (x)] on an optional number. *)
Definition num_truthy (a : option Z) : option Z := num_or a None.

Definition str_is (a : option string) (s : string) : bool :=
  match a with
  | Some x => String.eqb x s
  | None => false
  end.

Definition classifyHttpError (status : Z) (message : string) : StructuredError :=
  if (status =? 400)%Z then
    mkStructuredError INVALID_INPUT "Bad request" false (Some status) None
  else if (status =? 401)%Z then
    mkStructuredError AUTH_ERROR "Invalid API key" false (Some status) None
  else if (status =? 403)%Z then
    mkStructuredError QUOTA_EXCEEDED "Access forbidden or quota exceeded" false (Some status) None
  else if (status =? 404)%Z then
    mkStructuredError NOT_FOUND "Resource not found" false (Some status) None
  else if (status =? 408)%Z then
    mkStructuredError TIMEOUT "Request timeout" true (Some status) None
  else if (status =? 429)%Z then
    mkStructuredError RATE_LIMITED "Rate limit exceeded" true (Some status) None
  else if (status =? 500)%Z then
    mkStructuredError INTERNAL_ERROR "Server error" true (Some status) None
  else if (status =? 502)%Z then
    mkStructuredError SERVICE_UNAVAILABLE "Bad gateway" true (Some status) None
  else if (status =? 503)%Z then
    mkStructuredError SERVICE_UNAVAILABLE "Service unavailable" true (Some status) None
  else if (status =? 504)%Z then
    mkStructuredError TIMEOUT "Gateway timeout" true (Some status) None
  else if (status =? 510)%Z then
    mkStructuredError SERVICE_UNAVAILABLE "Request canceled" true (Some status) None
  else if (500 <=? status)%Z then
    mkStructuredError SERVICE_UNAVAILABLE ("Server error: " +:+ pretty status) true (Some status) None
  else
    mkStructuredError UNKNOWN_ERROR ("HTTP " +:+ pretty status +:+ ": " +:+ message) false
      (Some status) None.

Definition is_network_code (c : option string) : bool :=
  str_is c "ECONNREFUSED" || str_is c "ENOTFOUND" || str_is c "ECONNRESET".

Definition is_timeout_like (errCode errName : option string) (message : string) : bool :=
  str_is errCode "ECONNABORTED"
  || str_is errCode "ETIMEDOUT"
  || str_is errName "AbortError"
  || JsString.includes (JsString.toLowerCase message) "timeout"
  || JsString.includes (JsString.toLowerCase message) "timed out".

Definition classifyObject (err : JsObject) : StructuredError :=
  if js_isDOMException err && str_is (js_name err) "AbortError" then
    mkStructuredError TIMEOUT "Request timed out" true None None
  else
    let message := JsString.opt_or_else (js_message err) (js_toString err) in
    let statusCode := num_or (js_response_status err) (js_status err) in
    let errCode := js_code err in
    let errName := js_name err in
    if is_network_code errCode then
      mkStructuredError NETWORK_ERROR
        ("Network error: " +:+ default "" errCode) true None (Some message)
    else if is_timeout_like errCode errName message then
      mkStructuredError TIMEOUT "Request timed out" true None (Some message)
    else
      match num_truthy statusCode with
      | Some status => classifyHttpError status message
      | None =>
          if JsString.includes message "API_KEY"
             || JsString.includes message "api_key"
             || JsString.includes message "Invalid API" then
            mkStructuredError AUTH_ERROR "API key missing or invalid" false None (Some message)
          else if JsString.includes message "JSON"
                  || JsString.includes message "parse"
                  || JsString.includes message "Unexpected token" then
            mkStructuredError PARSE_ERROR "Failed to parse response" false None (Some message)
          else
            mkStructuredError UNKNOWN_ERROR (substring 0 500 message) false None (js_cause err)
      end.

(** [classifyError(error)] for the values of [JsThrown], on which it
    returns; [Unknown.classifyError] below is the function on any value,
    with the cases in which it throws. *)
Definition classifyError (error : JsThrown) : StructuredError :=
  match error with
  | JsNull | JsUndefined =>
      mkStructuredError UNKNOWN_ERROR "An unknown error occurred" false None None
  | JsObj err => classifyObject err
  end.

(** A plain object literal [{ status, message }], as the scraper builds. *)
Definition status_message_object (status : Z) (message : string) : JsThrown :=
  JsObj (mkJsObject false false (Some message) None (Some status) None None None
           "[object Object]").

(** An [Error] instance with the given message and no further property. *)
Definition plain_Error (message : string) : JsThrown :=
  JsObj (mkJsObject false true (Some message) None None None (Some "Error") None
           (if String.eqb message "" then "Error" else "Error: " +:+ message)).

(** *** Retry with exponential backoff (second half of utils/errors.ts) *)

Record RetryOptions : Type := mkRetryOptions {
  maxRetries : Z;
  baseDelayMs : Q;
  maxDelayMs : Q;
  retryableStatuses : list Z;
  (** whether an [onRetry] observer is installed *)
  onRetry : bool
}.

Definition DEFAULT_RETRY_OPTIONS : RetryOptions :=
  mkRetryOptions 3 1000 30000 [408; 429; 500; 502; 503; 504; 510]%Z false.

(** [calculateBackoff(attempt, options)]; [r] is the value returned by
    the call of [Math.random()], a number in [0, 1). The rationals stand
    for the numbers of the source as long as these are finite: for
    [attempt <= 1023] and an exponential below [2 ^ 1024]. Beyond that
    [Math.pow] and the product give [Infinity], and the result can be
    [NaN]; the properties below are stated within the finite range. *)
Definition calculateBackoff (attempt : nat) (options : RetryOptions) (r : Q) : Q :=
  let exponentialDelay := (baseDelayMs options * 2 ^ Z.of_nat attempt)%Q in
  let jitter := (r * (3 # 10) * exponentialDelay)%Q in
  Qmin (exponentialDelay + jitter) (maxDelayMs options).

Inductive RetryEvent : Type :=
| EvAttempt (attempt : nat)
| EvOnRetry (attempt : Z) (error : StructuredError) (delayMs : Q)
| EvSleep (ms : Q).

Inductive RetryResult (T : Type) : Type :=
| RetrySuccess (data : T)
| RetryFailure (error : StructuredError) (attempts : Z).
Arguments RetrySuccess {T} data.
Arguments RetryFailure {T} error attempts.

Definition notify_onRetry (opts : RetryOptions) (attempt : Z) (error : StructuredError)
    (delayMs : Q) : list RetryEvent :=
  if onRetry opts then [EvOnRetry attempt error delayMs] else [].

(** The [for] loop of [withRetry], entered at [attempt] with [fuel]
    iterations left before [attempt <= opts.maxRetries] fails. [fn k] is
    the outcome of the [k]-th invocation of the operation and [rand k]
    the random sample drawn after it failed. [sleep] is called without
    an abort signal, so it always resolves and its [catch] is not
    reachable. This is the loop for an operation whose failures are
    values of [JsThrown] and for an [onRetry] callback that returns;
    [Unknown.withRetry_from] below is the loop without these
    conditions, in which the [catch] block can throw. *)
Fixpoint withRetry_from {T : Type} (fn : nat -> Outcome JsThrown T) (opts : RetryOptions)
    (rand : nat -> Q) (fuel : nat) (attempt : nat) (lastError : StructuredError)
    : RetryResult T * list RetryEvent :=
  match fuel with
  | O => (RetryFailure lastError (maxRetries opts + 1), [])
  | S fuel' =>
      match fn attempt with
      | Returned data => (RetrySuccess data, [EvAttempt attempt])
      | Threw error =>
          let lastError := classifyError error in
          if negb (retryable lastError) then
            (RetryFailure lastError (Z.of_nat attempt + 1), [EvAttempt attempt])
          else if (maxRetries opts <=? Z.of_nat attempt)%Z then
            (RetryFailure lastError (Z.of_nat attempt + 1), [EvAttempt attempt])
          else
            let delayMs := calculateBackoff attempt opts (rand attempt) in
            let '(result, trace) :=
              withRetry_from fn opts rand fuel' (S attempt) lastError in
            (result,
             EvAttempt attempt
               :: notify_onRetry opts (Z.of_nat attempt + 1) lastError delayMs
               ++ EvSleep delayMs :: trace)
      end
  end.

Definition no_attempts_error : StructuredError :=
  mkStructuredError UNKNOWN_ERROR "No attempts made" false None None.

Definition withRetry {T : Type} (fn : nat -> Outcome JsThrown T) (opts : RetryOptions)
    (rand : nat -> Q) : RetryResult T * list RetryEvent :=
  withRetry_from fn opts rand (Z.to_nat (maxRetries opts + 1)) 0 no_attempts_error.

(** The [k]-th invocation fails with an error that is classified as
    retryable. *)
Definition retryable_failure {T : Type} (fn : nat -> Outcome JsThrown T) (k : nat) : Prop :=
  exists e, fn k = Threw e /\ retryable (classifyError e) = true.

(** The attempts recorded in a trace, in order. *)
Definition attempts_of (trace : list RetryEvent) : list nat :=
  omap (fun ev => match ev with EvAttempt k => Some k | _ => None end) trace.

(** The sleeps recorded in a trace, in order. *)
Definition sleeps_of (trace : list RetryEvent) : list Q :=
  omap (fun ev => match ev with EvSleep d => Some d | _ => None end) trace.

(** A run of the loop entered at attempt [a] stops with attempt [k]: the
    attempts [a .. k] were made, with one backoff sleep after each attempt
    before [k], and the result is that of attempt [k], whose value is
    returned as it is on success and whose classified error is returned
    when it is not retryable or when [k] is the last allowed attempt. *)
Definition stops_at {T : Type} (fn : nat -> Outcome JsThrown T) (opts : RetryOptions)
    (rand : nat -> Q) (a k : nat) (run : RetryResult T * list RetryEvent) : Prop :=
  attempts_of run.2 = seq a (S k - a)
  /\ sleeps_of run.2 = map (fun j => calculateBackoff j opts (rand j)) (seq a (k - a))
  /\ ((exists v, fn k = Returned v /\ run.1 = RetrySuccess v)
      \/ (exists e, fn k = Threw e /\ retryable (classifyError e) = false
                   /\ run.1 = RetryFailure (classifyError e) (Z.of_nat k + 1))
      \/ (exists e, fn k = Threw e /\ retryable (classifyError e) = true
                   /\ Z.of_nat k = maxRetries opts
                   /\ run.1 = RetryFailure (classifyError e) (Z.of_nat k + 1))).

(** The delay formula in the words of the specification: the clamped
    exponential plus a jitter that is the sample [r] scaled to
    [jitter_ratio] times that clamped value. *)
Definition spec_delay (base mult max_delay jitter_ratio : Q) (i : nat) (r : Q) : Q :=
  let clamped := Qmin max_delay (base * mult ^ Z.of_nat i)%Q in
  (clamped + r * (jitter_ratio * clamped))%Q.

(** The retryability column of the specification's ErrorKind table:
    RateLimited, Timeout, Network, ServiceUnavailable and Internal are
    retryable, every other kind is not. *)
Definition spec_default_retryable (c : ErrorCodeType) : bool :=
  match c with
  | RATE_LIMITED | TIMEOUT | NETWORK_ERROR | SERVICE_UNAVAILABLE | INTERNAL_ERROR => true
  | AUTH_ERROR | INVALID_INPUT | NOT_FOUND | QUOTA_EXCEEDED | PARSE_ERROR
  | UNKNOWN_ERROR => false
  end.

(** The specification's dispatch table from HTTP status to ErrorKind. *)
Definition spec_http_table : list (Z * ErrorCodeType) :=
  [ (400, INVALID_INPUT); (401, AUTH_ERROR); (403, QUOTA_EXCEEDED); (404, NOT_FOUND);
    (408, TIMEOUT); (429, RATE_LIMITED); (500, INTERNAL_ERROR);
    (502, SERVICE_UNAVAILABLE); (503, SERVICE_UNAVAILABLE); (504, TIMEOUT);
    (510, SERVICE_UNAVAILABLE) ]%Z.

Fixpoint table_lookup (table : list (Z * ErrorCodeType)) (status : Z)
    : option ErrorCodeType :=
  match table with
  | [] => None
  | (k, kind) :: rest => if (k =? status)%Z then Some kind else table_lookup rest status
  end.

(** Table entry if there is one; any other status from 500 on is
    ServiceUnavailable; any other status is Unknown. *)
Definition spec_http_kind (status : Z) : ErrorCodeType :=
  match table_lookup spec_http_table status with
  | Some kind => kind
  | None => if (500 <=? status)%Z then SERVICE_UNAVAILABLE else UNKNOWN_ERROR
  end.

End Errors.

(** ** utils/retry.ts: the retry helper of the test drivers *)

Module Retry.
Import Errors.

Record RetryConfig : Type := mkRetryConfig {
  maxRetries : Z;
  initialDelayMs : Q;
  maxDelayMs : Q;
  multiplier : Q
}.

Definition DEFAULT_RETRY_CONFIG : RetryConfig := mkRetryConfig 20 500 10000 2.

(** [calculateDelay(attempt, config)], on rationals: as for
    [calculateBackoff], within the range in which
    [Math.pow(multiplier, attempt)] is finite. *)
Definition calculateDelay (attempt : nat) (config : RetryConfig) : Q :=
  let delay := (initialDelayMs config * multiplier config ^ Z.of_nat attempt)%Q in
  Qmin delay (maxDelayMs config).

Record RetryResult (T : Type) : Type := mkRetryResult {
  success : bool;
  data : option T;
  error : option JsThrown;
  attempts : Z;
  totalDelayMs : Q
}.
Arguments mkRetryResult {T}.
Arguments success {T}.
Arguments data {T}.
Arguments error {T}.
Arguments attempts {T}.
Arguments totalDelayMs {T}.

Inductive LogLevel : Type := info | warn | error_level.

Inductive RetryEvent : Type :=
| EvCall (attempt : nat)
| EvLog (level : LogLevel)
| EvOnRetry (attempt : nat) (delayMs : Q)
| EvDelay (ms : Q).

(** [error instanceof Error ? error : new Error(String(error))] *)
Definition to_Error (error : JsThrown) : JsThrown :=
  match error with
  | JsNull => plain_Error "null"
  | JsUndefined => plain_Error "undefined"
  | JsObj o => if js_isError o then error else plain_Error (js_toString o)
  end.

Definition error_message (e : JsThrown) : string :=
  match e with
  | JsObj o => default "" (js_message o)
  | _ => ""
  end.

Definition is429 (message : string) : bool :=
  JsString.includes message "429"
  || JsString.includes (JsString.toLowerCase message) "rate limit"
  || JsString.includes (JsString.toLowerCase message) "too many requests".

Record RetryHooks : Type := mkRetryHooks {
  shouldRetry : option (JsThrown -> bool);
  (** whether an [onRetry] observer is installed *)
  onRetry : bool
}.

Definition shouldRetryThis (hooks : RetryHooks) (lastError : JsThrown) : bool :=
  match shouldRetry hooks with
  | Some f => f lastError
  | None => is429 (error_message lastError)
  end.

(** The [for] loop of [retryWithBackoff]; log lines are recorded by
    their level only. This is the loop for an operation whose failures
    are values of [JsThrown] and for callbacks that return;
    [Unknown.retryWithBackoff_from] below is the loop without these
    conditions, in which the [catch] block can throw. *)
Fixpoint retryWithBackoff_from {T : Type} (fn : nat -> Outcome JsThrown T)
    (fullConfig : RetryConfig) (hooks : RetryHooks) (fuel : nat) (attempt : nat)
    (totalDelay : Q) (lastError : option JsThrown)
    : RetryResult T * list RetryEvent :=
  match fuel with
  | O => (mkRetryResult false None lastError (maxRetries fullConfig) totalDelay,
          [EvLog error_level])
  | S fuel' =>
      match fn attempt with
      | Returned d =>
          (mkRetryResult true (Some d) None (Z.of_nat attempt + 1) totalDelay,
           EvCall attempt :: (if (0 <? attempt)%nat then [EvLog info] else []))
      | Threw e =>
          let lastError := to_Error e in
          if negb (shouldRetryThis hooks lastError) then
            (mkRetryResult false None (Some lastError) (Z.of_nat attempt + 1) totalDelay,
             [EvCall attempt; EvLog error_level])
          else if (Z.of_nat attempt <? maxRetries fullConfig - 1)%Z then
            let delayMs := calculateDelay attempt fullConfig in
            let '(result, trace) :=
              retryWithBackoff_from fn fullConfig hooks fuel' (S attempt)
                (totalDelay + delayMs)%Q (Some lastError) in
            (result,
             EvCall attempt :: EvLog warn
               :: (if onRetry hooks then [EvOnRetry attempt delayMs] else [])
               ++ EvDelay delayMs :: trace)
          else
            let '(result, trace) :=
              retryWithBackoff_from fn fullConfig hooks fuel' (S attempt)
                totalDelay (Some lastError) in
            (result, EvCall attempt :: trace)
      end
  end.

Definition retryWithBackoff {T : Type} (fn : nat -> Outcome JsThrown T)
    (fullConfig : RetryConfig) (hooks : RetryHooks) : RetryResult T * list RetryEvent :=
  retryWithBackoff_from fn fullConfig hooks (Z.to_nat (maxRetries fullConfig)) 0 0%Q None.

(** The calls and the delays recorded in a trace, in order. *)
Definition calls_of (trace : list RetryEvent) : list nat :=
  omap (fun ev => match ev with EvCall k => Some k | _ => None end) trace.

Definition delays_of (trace : list RetryEvent) : list Q :=
  omap (fun ev => match ev with EvDelay d => Some d | _ => None end) trace.

(** The [k]-th invocation fails with an error that is to be retried. *)
Definition retried {T : Type} (fn : nat -> Outcome JsThrown T) (hooks : RetryHooks)
    (k : nat) : Prop :=
  exists e, fn k = Threw e /\ shouldRetryThis hooks (to_Error e) = true.

(** A run of the loop entered at attempt [a] ends with attempt [k]. *)
Definition ends_at {T : Type} (fn : nat -> Outcome JsThrown T) (config : RetryConfig)
    (hooks : RetryHooks) (a k : nat) (run : RetryResult T * list RetryEvent) : Prop :=
  calls_of run.2 = seq a (S k - a)
  /\ delays_of run.2 = map (fun j => calculateDelay j config) (seq a (k - a))
  /\ ((exists v, fn k = Returned v
                /\ success run.1 = true /\ data run.1 = Some v
                /\ attempts run.1 = (Z.of_nat k + 1)%Z)
      \/ (exists e, fn k = Threw e /\ shouldRetryThis hooks (to_Error e) = false
                   /\ success run.1 = false /\ error run.1 = Some (to_Error e)
                   /\ attempts run.1 = (Z.of_nat k + 1)%Z)
      \/ (exists e, fn k = Threw e /\ shouldRetryThis hooks (to_Error e) = true
                   /\ Z.of_nat k = (maxRetries config - 1)%Z
                   /\ success run.1 = false /\ error run.1 = Some (to_Error e)
                   /\ attempts run.1 = maxRetries config)).

End Retry.

(** ** Values of type [unknown]: the [catch] blocks on arbitrary values *)

Module Unknown.
Import Errors.

(** A [catch] clause binds a value of type [unknown]. The values of
    [JsThrown] are those on which the classifier and the retry engines
    run to their end: [null], [undefined], and the objects whose
    [message] is missing or a string and that [String] can render. Two
    further shapes are kept apart here, on which these functions throw:
    - [NonTextMessage isError status rendering] is an object whose
      [message] is truthy without being a string, as in [{ message: 42 }]
      or [{ status: 429, message: 42 }]: the message has neither
      [toLowerCase] nor [includes]. The object has no [code] and no
      [name] of its own and is no [DOMException]; it is an [Error]
      instance or not, carries the given [status] and is rendered by
      [String] as given.
    - [Unprintable] is an object without a truthy [message] that [String]
      cannot render, as [Object.create(null)]; it is no [Error]
      instance. *)
Inductive Value : Type :=
| Plain (x : JsThrown)
| NonTextMessage (isError : bool) (status : option Z) (rendering : string)
| Unprintable.

(** A [TypeError] raised by the runtime. *)
Definition TypeError (msg : string) : JsThrown :=
  JsObj (mkJsObject false true (Some msg) None None None (Some "TypeError") None
           ("TypeError: " +:+ msg)).

(** [classifyError(error)] on any value. For a message that is not a
    string, [err.message || String(error)] is that message; no network
    code and no timeout code or name is there, and the timeout test calls
    [message.toLowerCase()], which is not a function. For an unprintable
    object the call of [String(error)] throws. *)
Definition classifyError (error : Value) : Outcome JsThrown StructuredError :=
  match error with
  | Plain x => Returned (Errors.classifyError x)
  | NonTextMessage _ _ _ => Threw (TypeError "message.toLowerCase is not a function")
  | Unprintable => Threw (TypeError "Cannot convert object to primitive value")
  end.

(** [err.response?.status || err.status], when truthy. *)
Definition status_of (error : Value) : option Z :=
  match error with
  | Plain (JsObj o) => num_truthy (num_or (js_response_status o) (js_status o))
  | Plain _ => None
  | NonTextMessage _ status _ => num_truthy status
  | Unprintable => None
  end.

(** The message of the value is missing or a string, and [String] can
    render the value. *)
Definition text_message (error : Value) : bool :=
  match error with
  | Plain _ => true
  | _ => false
  end.

(** One of the rules that [classifyError] tries before it looks at the
    status applies: the value is [null] or [undefined], an abort
    exception, or has a network error code or a timeout code, name or
    message. *)
Definition earlier_rule (error : Value) : bool :=
  match error with
  | Plain (JsObj o) =>
      (js_isDOMException o && str_is (js_name o) "AbortError")
      || is_network_code (js_code o)
      || is_timeout_like (js_code o) (js_name o)
           (JsString.opt_or_else (js_message o) (js_toString o))
  | Plain _ => true
  | _ => false
  end.

(** An operation whose failures are all plain values, seen as an
    operation of the engines of [Errors] and [Retry]. *)
Definition plain_outcome {T : Type} (o : Outcome Value T) : Outcome JsThrown T :=
  match o with
  | Returned v => Returned v
  | Threw (Plain x) => Threw x
  | Threw _ => Threw JsUndefined
  end.

(** When a callback returns, what follows; when it throws, the
    exception. *)
Definition after {R : Type} (call : Outcome Value unit) (r : R) : Outcome Value R :=
  match call with
  | Returned _ => Returned r
  | Threw e => Threw e
  end.

(** *** [withRetry] *)

Section WithRetry.
Context {T : Type}.
Variable fn : nat -> Outcome Value T.
Variable opts : RetryOptions.
(** what a call [opts.onRetry(attempt, error, delayMs)] does when the
    option is set *)
Variable onRetry_call : Z -> StructuredError -> Q -> Outcome Value unit.
Variable rand : nat -> Q.

(** [opts.onRetry?.(attempt + 1, lastError, delayMs)] *)
Definition call_onRetry (attempt : Z) (error : StructuredError) (delayMs : Q)
    : Outcome Value unit :=
  if onRetry opts then onRetry_call attempt error delayMs else Returned tt.

(** The [for] loop of [withRetry]. The [catch] block is not guarded: what
    [classifyError] or [opts.onRetry] throws rejects the promise of
    [withRetry]. *)
Fixpoint withRetry_from (fuel : nat) (attempt : nat) (lastError : StructuredError)
    : Outcome Value (RetryResult T) * list RetryEvent :=
  match fuel with
  | O => (Returned (RetryFailure lastError (maxRetries opts + 1)), [])
  | S fuel' =>
      match fn attempt with
      | Returned data => (Returned (RetrySuccess data), [EvAttempt attempt])
      | Threw error =>
          match classifyError error with
          | Threw e => (Threw (Plain e), [EvAttempt attempt])
          | Returned lastError =>
              if negb (retryable lastError) then
                (Returned (RetryFailure lastError (Z.of_nat attempt + 1)),
                 [EvAttempt attempt])
              else if (maxRetries opts <=? Z.of_nat attempt)%Z then
                (Returned (RetryFailure lastError (Z.of_nat attempt + 1)),
                 [EvAttempt attempt])
              else
                let delayMs := calculateBackoff attempt opts (rand attempt) in
                match call_onRetry (Z.of_nat attempt + 1) lastError delayMs with
                | Threw e =>
                    (Threw e,
                     EvAttempt attempt
                       :: notify_onRetry opts (Z.of_nat attempt + 1) lastError delayMs)
                | Returned _ =>
                    let '(result, trace) := withRetry_from fuel' (S attempt) lastError in
                    (result,
                     EvAttempt attempt
                       :: notify_onRetry opts (Z.of_nat attempt + 1) lastError delayMs
                       ++ EvSleep delayMs :: trace)
                end
          end
      end
  end.

Definition withRetry : Outcome Value (RetryResult T) * list RetryEvent :=
  withRetry_from (Z.to_nat (maxRetries opts + 1)) 0 no_attempts_error.

End WithRetry.

(** *** [retryWithBackoff] *)

(** The callbacks of [retryWithBackoff]; without [logger] the default
    logger writes to [console.error]. *)
Record Hooks : Type := mkHooks {
  shouldRetry : option (JsThrown -> Outcome Value bool);
  onRetry : option (nat -> Q -> JsThrown -> Outcome Value unit);
  logger : option (Retry.LogLevel -> Outcome Value unit)
}.

(** The hooks as the engine of [Retry] takes them, for callbacks that
    return. *)
Definition plain_hooks (hooks : Hooks) : Retry.RetryHooks :=
  Retry.mkRetryHooks
    (option_map (fun f e => match f e with Returned b => b | Threw _ => false end)
       (shouldRetry hooks))
    (bool_decide (is_Some (onRetry hooks))).

(** Every call of a callback returns. *)
Definition callbacks_return (hooks : Hooks) : Prop :=
  (forall f e, shouldRetry hooks = Some f -> exists b, f e = Returned b)
  /\ (forall notify attempt delayMs e,
        onRetry hooks = Some notify -> notify attempt delayMs e = Returned tt)
  /\ (forall write level, logger hooks = Some write -> write level = Returned tt).

Section RetryWithBackoff.
Context {T : Type}.
Variable fn : nat -> Outcome Value T.
Variable fullConfig : Retry.RetryConfig.
Variable hooks : Hooks.

Definition log (level : Retry.LogLevel) : Outcome Value unit :=
  match logger hooks with
  | Some write => write level
  | None => Returned tt
  end.

(** [onRetry?.(attempt, delayMs, lastError)] and its record in the trace *)
Definition call_hook (attempt : nat) (delayMs : Q) (lastError : JsThrown)
    : Outcome Value unit :=
  match onRetry hooks with
  | Some notify => notify attempt delayMs lastError
  | None => Returned tt
  end.

Definition hook_events (attempt : nat) (delayMs : Q) : list Retry.RetryEvent :=
  if bool_decide (is_Some (onRetry hooks)) then [Retry.EvOnRetry attempt delayMs] else [].

(** The retry decision on the [Error] that the [catch] block has made of
    the caught value: [shouldRetry ? shouldRetry(lastError) : is429]. *)
Definition decide_retry (lastError : JsThrown) : Outcome Value (JsThrown * bool) :=
  match shouldRetry hooks with
  | Some f =>
      match f lastError with
      | Returned b => Returned (lastError, b)
      | Threw e => Threw e
      end
  | None => Returned (lastError, Retry.is429 (Retry.error_message lastError))
  end.

(** The head of the [catch] block:
    [lastError = error instanceof Error ? error : new Error(String(error))],
    the rate-limit test on [lastError.message] and the retry decision.
    [String] throws on an unprintable object, and a message that is not a
    string has no [includes]. *)
Definition caught (error : Value) : Outcome Value (JsThrown * bool) :=
  match error with
  | Plain x => decide_retry (Retry.to_Error x)
  | NonTextMessage true _ _ =>
      Threw (Plain (TypeError "lastError.message.includes is not a function"))
  | NonTextMessage false _ rendering => decide_retry (plain_Error rendering)
  | Unprintable => Threw (Plain (TypeError "Cannot convert object to primitive value"))
  end.

(** The [for] loop of [retryWithBackoff]. The call of [logger] after a
    success is inside the [try]: what it throws is caught like a failure
    of the operation. Nothing guards the [catch] block and the final
    log. *)
Fixpoint retryWithBackoff_from (fuel : nat) (attempt : nat) (totalDelay : Q)
    (lastError : option JsThrown)
    : Outcome Value (Retry.RetryResult T) * list Retry.RetryEvent :=
  match fuel with
  | O =>
      (after (log Retry.error_level)
         (Retry.mkRetryResult false None lastError (Retry.maxRetries fullConfig)
            totalDelay),
       [Retry.EvLog Retry.error_level])
  | S fuel' =>
      let tried : Outcome Value T * list Retry.RetryEvent :=
        match fn attempt with
        | Returned d =>
            if (0 <? attempt)%nat
            then (after (log Retry.info) d, [Retry.EvCall attempt; Retry.EvLog Retry.info])
            else (Returned d, [Retry.EvCall attempt])
        | Threw e => (Threw e, [Retry.EvCall attempt])
        end in
      match tried with
      | (Returned d, events) =>
          (Returned (Retry.mkRetryResult true (Some d) None (Z.of_nat attempt + 1)
                       totalDelay),
           events)
      | (Threw error, events) =>
          match caught error with
          | Threw e => (Threw e, events)
          | Returned (lastError, shouldRetryThis) =>
              if negb shouldRetryThis then
                (after (log Retry.error_level)
                   (Retry.mkRetryResult false None (Some lastError)
                      (Z.of_nat attempt + 1) totalDelay),
                 events ++ [Retry.EvLog Retry.error_level])
              else if (Z.of_nat attempt <? Retry.maxRetries fullConfig - 1)%Z then
                let delayMs := Retry.calculateDelay attempt fullConfig in
                match log Retry.warn with
                | Threw e => (Threw e, events ++ [Retry.EvLog Retry.warn])
                | Returned _ =>
                    match call_hook attempt delayMs lastError with
                    | Threw e =>
                        (Threw e,
                         events ++ Retry.EvLog Retry.warn :: hook_events attempt delayMs)
                    | Returned _ =>
                        let '(result, trace) :=
                          retryWithBackoff_from fuel' (S attempt)
                            (totalDelay + delayMs)%Q (Some lastError) in
                        (result,
                         events ++ Retry.EvLog Retry.warn
                           :: hook_events attempt delayMs
                           ++ Retry.EvDelay delayMs :: trace)
                    end
                end
              else
                let '(result, trace) :=
                  retryWithBackoff_from fuel' (S attempt) totalDelay (Some lastError) in
                (result, events ++ trace)
          end
      end
  end.

Definition retryWithBackoff
    : Outcome Value (Retry.RetryResult T) * list Retry.RetryEvent :=
  retryWithBackoff_from (Z.to_nat (Retry.maxRetries fullConfig)) 0 0%Q None.

End RetryWithBackoff.

End Unknown.

(** ** Division of numbers that hold integers *)

Module Binary64.
#[local] Open Scope Z_scope.

(** The numbers of the source are binary64 floating-point numbers. A
    quotient [x / y] of two of them is the exact quotient rounded to the
    nearest number with 53 significant bits, of two nearest ones the one
    with an even last bit. This module computes [Math.floor(x / y)] for
    numbers [x] and [y > 0] that hold the integers [n] and [d]. *)

(** The integer nearest to [n / d], for [d > 0]; of two nearest integers
    the even one. *)
Definition nearest (n d : Z) : Z :=
  let f := n / d in
  let r := n mod d in
  if 2 * r <? d then f
  else if d <? 2 * r then f + 1
  else if Z.even f then f else f + 1.

(** The binary exponent of [n / d], for [n, d > 0]: the [e] with
    [2 ^ e <= n / d < 2 ^ (e + 1)]. *)
Definition exponent (n d : Z) : Z :=
  let e := Z.log2 n - Z.log2 d in
  if (if 0 <=? e then d * 2 ^ e <=? n else d <=? n * 2 ^ (- e)) then e else e - 1.

(** [Math.floor(x / y)]. With [e] the exponent of the quotient, the
    numbers near it are the multiples of [2 ^ (e - 52)] (of [2 ^ (-1074)]
    below the normal range): the quotient is [m * 2 ^ (- s)] for the
    integer [m] nearest to [n / d * 2 ^ s], where [s = 52 - e], and its
    floor is taken. *)
Definition floor_div (n d : Z) : Z :=
  let e := exponent (Z.abs n) d in
  let s := Z.min (52 - e) 1074 in
  if 0 <=? s then nearest (n * 2 ^ s) d / 2 ^ s
  else nearest n (d * 2 ^ (- s)) * 2 ^ (- s).

End Binary64.

(** ** tools/utils.ts and tools/research.ts: token budget allocation *)

Module Budget.

(** tools/utils.ts: [count <= 0 ? budget : Math.floor(budget / count)],
    for numbers that hold integers. *)
Definition calculateTokenAllocation (count budget : Z) : Z :=
  if (count <=? 0)%Z then budget else Binary64.floor_div budget count.

Definition TOTAL_TOKEN_BUDGET : Z := 32000.

(** tools/research.ts: the same allocator over the fixed research budget. *)
Definition research_calculateTokenAllocation (questionCount : Z) : Z :=
  if (questionCount <=? 0)%Z then TOTAL_TOKEN_BUDGET
  else Binary64.floor_div TOTAL_TOKEN_BUDGET questionCount.

End Budget.

(** ** lib/reddit.ts: flattening of the comment tree *)

Module Reddit.

(** A node of a Reddit listing: [c.kind] and, from [c.data], the author,
    the body, the score and the children of [replies]. A node without
    replies has the empty list. *)
Inductive Thing : Type :=
| mkThing (kind : string) (author : option string) (body : option string)
          (score : Z) (replies : list Thing).

Definition thing_kind (c : Thing) : string :=
  match c with mkThing k _ _ _ _ => k end.
Definition thing_author (c : Thing) : option string :=
  match c with mkThing _ a _ _ _ => a end.
Definition thing_body (c : Thing) : option string :=
  match c with mkThing _ _ b _ _ => b end.
Definition thing_score (c : Thing) : Z :=
  match c with mkThing _ _ _ s _ => s end.
Definition thing_replies (c : Thing) : list Thing :=
  match c with mkThing _ _ _ _ r => r end.

Record Comment : Type := mkComment {
  author : string;
  body : string;
  score : Z;
  depth : nat;
  isOP : bool
}.

(** [[...xs].sort((a, b) => key(b) - key(a))]: a stable sort by
    descending key. *)
Section SortDesc.
Context {A : Type} (key : A -> Z).

Fixpoint insert_desc (x : A) (l : list A) : list A :=
  match l with
  | [] => [x]
  | y :: l' =>
      if (key y <=? key x)%Z then x :: y :: l' else y :: insert_desc x l'
  end.

Definition sort_desc (l : list A) : list A := foldr insert_desc [] l.

(** [b] may follow [a] in a list ordered by descending key. *)
Definition descending (a b : A) : Prop := (key b <= key a)%Z.
End SortDesc.

(** [c.kind !== 't1' || !c.data?.author || c.data.author === '[deleted]'] *)
Definition skipped (c : Thing) : bool :=
  negb (String.eqb (thing_kind c) "t1")
  || match thing_author c with
     | None => true
     | Some a => String.eqb a "" || String.eqb a "[deleted]"
     end.

Definition comment_of (postAuthor : string) (depth : nat) (c : Thing) : Comment :=
  let a := default "" (thing_author c) in
  mkComment a (JsString.opt_or_else (thing_body c) "") (thing_score c) depth
    (String.eqb a postAuthor).

Section Extract.
(** [maxComments] is a number: the tool passes on what the request
    carries, and a request can carry any finite number, whole or not. *)
Variable maxComments : Q.
Variable postAuthor : string.

(** [comments.length >= maxComments] *)
Definition full (comments : list Comment) : bool :=
  Qle_bool maxComments (inject_Z (Z.of_nat (length comments))).

(** The [for (const c of sorted)] loop in the body of the closure
    [extract]; [recurse] stands for the closure itself, called on the
    replies of a comment, and the array [comments] that the closure pushes
    to is passed along. *)
Fixpoint extract_loop (recurse : list Thing -> nat -> list Comment -> list Comment)
    (sorted : list Thing) (depth : nat) (comments : list Comment) : list Comment :=
  match sorted with
  | [] => comments
  | c :: rest =>
      if full comments then comments
      else if skipped c then extract_loop recurse rest depth comments
      else
        let comments := comments ++ [comment_of postAuthor depth c] in
        let comments :=
          if negb (full comments)
          then recurse (thing_replies c) (S depth) comments
          else comments in
        extract_loop recurse rest depth comments
  end.

(** The closure [extract] of [getPost]. [fuel] bounds the nesting of the
    recursive calls; [extract_comments] below supplies more than the
    tree needs. *)
Fixpoint extract (fuel : nat) (children : list Thing) (depth : nat)
    (comments : list Comment) : list Comment :=
  match fuel with
  | O => comments
  | S fuel' =>
      extract_loop (extract fuel') (sort_desc thing_score children) depth comments
  end.
End Extract.

Fixpoint height (c : Thing) : nat :=
  match c with
  | mkThing _ _ _ _ replies => S (foldr Nat.max 0 (map height replies))
  end.

Definition forest_height (children : list Thing) : nat :=
  foldr Nat.max 0 (map height children).

(** [comments] as [getPost] returns them for the comment listing [children]. *)
Definition extract_comments (maxComments : Q) (postAuthor : string)
    (children : list Thing) : list Comment :=
  extract maxComments postAuthor (S (forest_height children)) children 0 [].

(** *** The flattening in the words of the specification *)

(** Siblings ordered by descending score at every level of the tree. *)
Fixpoint sort_tree (c : Thing) : Thing :=
  match c with
  | mkThing k a b s replies =>
      mkThing k a b s (sort_desc thing_score (map sort_tree replies))
  end.

Definition sort_forest (children : list Thing) : list Thing :=
  sort_desc thing_score (map sort_tree children).

(** Depth-first, parent before children; a deleted-author node is left
    out together with its replies. *)
Fixpoint preorder (postAuthor : string) (depth : nat) (c : Thing) : list Comment :=
  match c with
  | mkThing _ _ _ _ replies =>
      if skipped c then []
      else comment_of postAuthor depth c
             :: concat (map (preorder postAuthor (S depth)) replies)
  end.

Definition preorder_forest (postAuthor : string) (depth : nat) (children : list Thing)
    : list Comment :=
  concat (map (preorder postAuthor depth) children).

(** The flattening as a relation, in the words of the specification. A
    node is hidden when it is no comment or has no author or a deleted
    one. *)
Definition hidden (c : Thing) : Prop :=
  thing_kind c <> "t1" \/ thing_author c = None \/ thing_author c = Some ""
  \/ thing_author c = Some "[deleted]".

(** [flat_node postAuthor d c l]: the list [l] is a depth-first listing
    of the tree [c], whose root is at depth [d]. A hidden node gives
    nothing, and its replies are hidden with it. Any other node gives its
    own comment, with its author, its body (empty when missing), its
    score, the depth [d] and the mark of the author of the post, and then
    the listings of its replies, one level deeper, the replies being taken
    in some order of descending score. *)
Inductive flat_node (postAuthor : string) : nat -> Thing -> list Comment -> Prop :=
| flat_hidden (d : nat) (c : Thing) :
    hidden c -> flat_node postAuthor d c []
| flat_shown (d : nat) (a : string) (b : option string) (s : Z)
    (replies sorted : list Thing) (listings : list (list Comment)) :
    a <> "" -> a <> "[deleted]" ->
    sorted ≡ₚ replies ->
    StronglySorted (fun x y => (thing_score y <= thing_score x)%Z) sorted ->
    Forall2 (flat_node postAuthor (S d)) sorted listings ->
    flat_node postAuthor d (mkThing "t1" (Some a) b s replies)
      (mkComment a (default "" b) s d (String.eqb a postAuthor) :: concat listings).

(** The listing of a forest whose roots are at depth [d]. *)
Definition flattening (postAuthor : string) (d : nat) (children : list Thing)
    (l : list Comment) : Prop :=
  exists (sorted : list Thing) (listings : list (list Comment)),
    sorted ≡ₚ children
    /\ StronglySorted (fun x y => (thing_score y <= thing_score x)%Z) sorted
    /\ Forall2 (flat_node postAuthor d) sorted listings
    /\ l = concat listings.

(** [threaded d l]: the list [l] reads as the depth-first listing of a
    forest whose roots are at depth [d]: each comment is followed by the
    listing of its replies, one level deeper, and then by its later
    siblings, none of which has a higher score than it. *)
Inductive threaded : nat -> list Comment -> Prop :=
| threaded_nil (d : nat) : threaded d []
| threaded_cons (d : nat) (c : Comment) (below rest : list Comment) :
    depth c = d ->
    threaded (S d) below ->
    threaded d rest ->
    (forall c', head rest = Some c' -> (score c' <= score c)%Z) ->
    threaded d (c :: below ++ rest).

End Reddit.

(** ** clients/scraper.ts: the scraper client *)

Module Scraper.
Import Errors.

Inductive Mode : Type := basic | javascript.

#[global] Instance Mode_eq_dec : EqDecision Mode.
Proof. solve_decision. Defined.

Record ScrapeRequest : Type := mkScrapeRequest {
  url : string;
  mode : option Mode;
  timeout : option Z;
  country : option string
}.

#[global] Instance ScrapeRequest_eq_dec : EqDecision ScrapeRequest.
Proof. solve_decision. Defined.

Record ScrapeResponse : Type := mkScrapeResponse {
  content : string;
  statusCode : Z;
  credits : Z;
  headers : option (list (string * string));
  error : option StructuredError
}.

(** The constants [SCRAPER] of config/index.ts, which is not among the
    sources: they are parameters of the client. *)
Record ScraperConfig : Type := mkScraperConfig {
  RETRY_COUNT : Z;
  RETRY_DELAYS : list Z;
  BATCH_SIZE : Z
}.

Definition RETRYABLE_STATUS_CODES : list Z := [429; 502; 503; 504; 510]%Z.
Definition PERMANENT_FAILURE_CODES : list Z := [400; 401; 403]%Z.

(** [set.has(x)] *)
Definition has (set : list Z) (x : Z) : bool := bool_decide (x ∈ set).

(** What [fetchWithTimeout] does for one call: it resolves to a
    response, whose body [response.text()] yields or fails to yield
    (with the message of the read error), or it rejects. *)
Inductive FetchReply : Type :=
| Response (status : Z) (text : Outcome string string) (hdrs : list (string * string))
| Rejected (e : JsThrown).

(** The world the client runs in: whether [new URL(url)] accepts a
    string, the reply to the [k]-th call made for a request, and the
    sample of [Math.random()] drawn before the sleep that follows it. *)
Record World : Type := mkWorld {
  url_parses : string -> bool;
  net : ScrapeRequest -> nat -> FetchReply;
  rand : ScrapeRequest -> nat -> Q
}.

Inductive Event : Type :=
| EvScrape (request : ScrapeRequest)
| EvFetch (request : ScrapeRequest) (attempt : nat)
| EvSleep (ms : Z).

(** [response.ok] *)
Definition ok (status : Z) : bool := (200 <=? status)%Z && (status <=? 299)%Z.

(** The reply to a network call is one after which the retry loop of
    [scrape] goes on when attempts remain: a response that is neither
    2xx, nor 404, nor a permanent failure, and whose status is one of
    [RETRYABLE_STATUS_CODES] or is classified as retryable; or a
    rejection that is classified as retryable. *)
Definition retried_reply (reply : FetchReply) : bool :=
  match reply with
  | Response status text _ =>
      negb (ok status) && negb (status =? 404)%Z
      && negb (has PERMANENT_FAILURE_CODES status)
      && (has RETRYABLE_STATUS_CODES status
          || retryable
               (classifyError
                  (status_message_object status
                     match text with
                     | Returned body => body
                     | Threw readError => "Failed to read response: " +:+ readError
                     end)))
  | Rejected e => retryable (classifyError e)
  end.

Section Client.
Variable cfg : ScraperConfig.
Variable w : World.

Definition calculateBackoff (attempt : nat) (r : Q) : Z :=
  let baseDelay :=
    match RETRY_DELAYS cfg !! attempt with
    | Some d => if (d =? 0)%Z then 8000%Z else d
    | None => 8000%Z
    end in
  let jitter := (r * (3 # 10) * inject_Z baseDelay)%Q in
  Qfloor (inject_Z baseDelay + jitter).

Definition exhausted (maxRetries : Z) (lastError : option StructuredError)
    : ScrapeResponse :=
  mkScrapeResponse
    ("Error: Failed after " +:+ pretty maxRetries +:+ " attempts. "
       +:+ JsString.or_else (from_option message "" lastError) "Unknown error")
    (default 500%Z (num_truthy (lastError ≫= Errors.statusCode)))
    0 None
    (Some (default
             (mkStructuredError UNKNOWN_ERROR "All retries exhausted" false None None)
             lastError)).

(** The retry loop of [scrape], entered at [attempt] with [fuel]
    iterations left before [attempt < maxRetries] fails. *)
Fixpoint scrape_from (request : ScrapeRequest) (credits : Z) (maxRetries : Z)
    (fuel : nat) (attempt : nat) (lastError : option StructuredError)
    : ScrapeResponse * list Event :=
  match fuel with
  | O => (exhausted maxRetries lastError, [])
  | S fuel' =>
      let more := (Z.of_nat attempt <? maxRetries - 1)%Z in
      let sleep_and_continue (lastError : StructuredError) :=
        let delayMs := calculateBackoff attempt (rand w request attempt) in
        let '(result, trace) :=
          scrape_from request credits maxRetries fuel' (S attempt) (Some lastError) in
        (result, EvFetch request attempt :: EvSleep delayMs :: trace) in
      match net w request attempt with
      | Response status text hdrs =>
          let content :=
            match text with
            | Returned body => body
            | Threw readError => "Failed to read response: " +:+ readError
            end in
          if ok status then
            (mkScrapeResponse content status credits (Some hdrs) None,
             [EvFetch request attempt])
          else if (status =? 404)%Z then
            (mkScrapeResponse "404 - Page not found" 404 credits None None,
             [EvFetch request attempt])
          else if has PERMANENT_FAILURE_CODES status then
            let errorMsg :=
              if (status =? 401)%Z
              then "No credits remaining or subscription suspended"
              else "Request failed with status " +:+ pretty status in
            (mkScrapeResponse ("Error: " +:+ errorMsg) status 0 None
               (Some (mkStructuredError
                        (if (status =? 401)%Z then AUTH_ERROR else INVALID_INPUT)
                        errorMsg false (Some status) None)),
             [EvFetch request attempt])
          else if has RETRYABLE_STATUS_CODES status && more then
            sleep_and_continue
              (mkStructuredError
                 (if (status =? 429)%Z then RATE_LIMITED else SERVICE_UNAVAILABLE)
                 ("Server returned " +:+ pretty status) true (Some status) None)
          else
            let lastError := classifyError (status_message_object status content) in
            if more && retryable lastError then sleep_and_continue lastError
            else
              (mkScrapeResponse ("Error: " +:+ message lastError) status 0 None
                 (Some lastError),
               [EvFetch request attempt])
      | Rejected e =>
          let lastError := classifyError e in
          if negb (retryable lastError) then
            (mkScrapeResponse ("Error: " +:+ message lastError)
               (default 500%Z (num_truthy (Errors.statusCode lastError))) 0 None
               (Some lastError),
             [EvFetch request attempt])
          else if more then sleep_and_continue lastError
          else
            let '(result, trace) :=
              scrape_from request credits maxRetries fuel' (S attempt)
                (Some lastError) in
            (result, EvFetch request attempt :: trace)
      end
  end.

Definition scrape (request : ScrapeRequest) (maxRetries : Z)
    : ScrapeResponse * list Event :=
  let credits := if decide (mode request = Some javascript) then 5%Z else 1%Z in
  if negb (url_parses w (url request)) then
    (mkScrapeResponse ("Invalid URL: " +:+ url request) 400 0 None
       (Some (mkStructuredError INVALID_INPUT ("Invalid URL: " +:+ url request)
                false None None)),
     [])
  else
    scrape_from request credits maxRetries (Z.to_nat maxRetries) 0 None.

Record FallbackAttempt : Type := mkFallbackAttempt {
  fa_mode : Mode;
  fa_country : option string;
  fa_description : string
}.

Definition fallback_attempts : list FallbackAttempt :=
  [ mkFallbackAttempt basic None "basic mode";
    mkFallbackAttempt javascript None "javascript rendering";
    mkFallbackAttempt javascript (Some "us") "javascript + US geo-targeting" ].

Definition fallback_request (url : string) (timeout : option Z) (a : FallbackAttempt)
    : ScrapeRequest :=
  mkScrapeRequest url (Some (fa_mode a)) timeout (fa_country a).

(** [result.statusCode >= 200 && result.statusCode < 300 && !result.error] *)
Definition is_success (result : ScrapeResponse) : bool :=
  (200 <=? statusCode result)%Z && (statusCode result <? 300)%Z
  && negb (bool_decide (is_Some (error result))).

(** [result.error && !result.error.retryable] *)
Definition is_non_retryable (result : ScrapeResponse) : bool :=
  match error result with
  | Some e => negb (retryable e)
  | None => false
  end.

Definition failure_note (a : FallbackAttempt) (result : ScrapeResponse) : string :=
  fa_description a +:+ ": "
    +:+ JsString.or_else (from_option message "" (error result))
          (pretty (statusCode result)).

Definition all_fallbacks_failed (attemptResults : list string)
    (lastResult : option ScrapeResponse) : ScrapeResponse :=
  let errorMessage :=
    "Failed after " +:+ pretty (length fallback_attempts) +:+ " fallback modes: "
      +:+ JsString.join "; " attemptResults in
  mkScrapeResponse ("Error: " +:+ errorMessage)
    (default 500%Z (num_truthy (statusCode <$> lastResult)))
    0 None
    (Some (mkStructuredError SERVICE_UNAVAILABLE errorMessage false None None)).

(** The [for ... of attempts] loop of [scrapeWithFallback]. *)
Fixpoint fallback_loop (url : string) (timeout : option Z)
    (attempts : list FallbackAttempt) (attemptResults : list string)
    (lastResult : option ScrapeResponse) : ScrapeResponse * list Event :=
  match attempts with
  | [] => (all_fallbacks_failed attemptResults lastResult, [])
  | attempt :: later =>
      let request := fallback_request url timeout attempt in
      let '(result, trace) := scrape request (RETRY_COUNT cfg) in
      if is_success result then (result, EvScrape request :: trace)
      else if (statusCode result =? 404)%Z then (result, EvScrape request :: trace)
      else if is_non_retryable result then (result, EvScrape request :: trace)
      else
        let '(final, trace') :=
          fallback_loop url timeout later
            (attemptResults ++ [failure_note attempt result]) (Some result) in
        (final, EvScrape request :: trace ++ trace')
  end.

Definition scrapeWithFallback (url : string) (timeout : option Z)
    : ScrapeResponse * list Event :=
  fallback_loop url timeout fallback_attempts [] None.

(** The three requests of the ladder: basic, javascript, javascript
    with geo-targeting. *)
Definition ladder (url : string) (timeout : option Z) : list ScrapeRequest :=
  map (fallback_request url timeout) fallback_attempts.

(** The result ends the loop of [scrapeWithFallback]. *)
Definition stops_ladder (result : ScrapeResponse) : bool :=
  is_success result || (statusCode result =? 404)%Z || is_non_retryable result.

(** A failure that is not permanent: an error marked retryable, with a
    status that is neither 2xx, nor 404, nor one of 400, 401, 403. *)
Definition non_permanent_failure (result : ScrapeResponse) : Prop :=
  (exists e, error result = Some e /\ retryable e = true)
  /\ ~ (200 <= statusCode result < 300)%Z
  /\ statusCode result <> 404%Z
  /\ statusCode result ∉ PERMANENT_FAILURE_CODES.

(** The requests handed to [scrape], in order. *)
Definition scrapes_of (trace : list Event) : list ScrapeRequest :=
  omap (fun ev => match ev with EvScrape r => Some r | _ => None end) trace.

(** All network calls of a trace, in order. *)
Definition fetches (trace : list Event) : list (ScrapeRequest * nat) :=
  omap (fun ev => match ev with EvFetch r k => Some (r, k) | _ => None end) trace.

End Client.

End Scraper.

(** ** Batched fan-out: [ScraperClient.batchScrape] and [processMultipleWithLLM] *)

Module Fanout.

Section Batches.
Context {T : Type}.

(** [xs.slice(startIdx, endIdx)] for [0 <= startIdx]. *)
Definition slice (xs : list T) (startIdx endIdx : nat) : list T :=
  take (endIdx - startIdx) (drop startIdx xs).

(** [Math.ceil(n / size)] for [size >= 1]. *)
Definition ceil_div (n size : nat) : nat := (n + size - 1) / size.

(** The batches [batchUrls] that the loop of [batchScrape] forms, one
    per [batchNum]. *)
Definition batchScrape_batches (BATCH_SIZE : nat) (urls : list T) : list (list T) :=
  let totalBatches := ceil_div (length urls) BATCH_SIZE in
  map (fun batchNum =>
         let startIdx := batchNum * BATCH_SIZE in
         let endIdx := Nat.min (startIdx + BATCH_SIZE) (length urls) in
         slice urls startIdx endIdx)
      (seq 0 totalBatches).

(** [scrapeMultiple]: nothing for no URL, one batch when the URLs fit
    into [BATCH_SIZE] ([processBatch]), else [batchScrape]. *)
Definition scrapeMultiple_batches (BATCH_SIZE : nat) (urls : list T) : list (list T) :=
  if (length urls =? 0)%nat then []
  else if (length urls <=? BATCH_SIZE)%nat then [urls]
  else batchScrape_batches BATCH_SIZE urls.

(** The batches of [processMultipleWithLLM]:
    [for (let i = 0; i < contents.length; i += concurrency)]. The loop
    runs at most [contents.length] times when [concurrency >= 1]. *)
Fixpoint llm_batches_from (fuel : nat) (concurrency : nat) (contents : list T) (i : nat)
    : list (list T) :=
  match fuel with
  | O => []
  | S fuel' =>
      if (i <? length contents)%nat then
        slice contents i (i + concurrency)
          :: llm_batches_from fuel' concurrency contents (i + concurrency)
      else []
  end.

Definition processMultipleWithLLM_batches (concurrency : nat) (contents : list T)
    : list (list T) :=
  llm_batches_from (length contents) concurrency contents 0.

(** Both loops run one batch at a time: every task of the batch is
    started by the [map] over the batch, and the loop body resumes,
    pauses and goes to the next batch only once [Promise.allSettled]
    (or [Promise.all]) over the whole batch has resolved. The state of
    such a loop between two events: the batches not yet started, the
    tasks started and not finished, the number of finished tasks. *)
Record PoolState : Type := mkPoolState {
  upcoming : list (list T);
  inflight : list T;
  settled : nat
}.

Inductive PoolEvent : Type :=
| StartBatch
| Settle (i : nat).

Definition pool_init (batches : list (list T)) : PoolState :=
  mkPoolState batches [] 0.

Definition pool_step (s : PoolState) (ev : PoolEvent) : option PoolState :=
  match ev with
  | StartBatch =>
      match inflight s, upcoming s with
      | [], batch :: later => Some (mkPoolState later batch (settled s))
      | _, _ => None
      end
  | Settle i =>
      match inflight s !! i with
      | Some _ => Some (mkPoolState (upcoming s) (delete i (inflight s)) (S (settled s)))
      | None => None
      end
  end.

Fixpoint pool_run (s : PoolState) (evs : list PoolEvent) : option PoolState :=
  match evs with
  | [] => Some s
  | ev :: later =>
      match pool_step s ev with
      | Some s' => pool_run s' later
      | None => None
      end
  end.

(** Inputs that no task has been started for. *)
Definition waiting (s : PoolState) : list T := concat (upcoming s).

(** The sliding-window reading of the specification: whenever fewer
    than [K] tasks are running and inputs are waiting, a new task can
    start. *)
Definition spec_starts_when_slot_free (K : nat) (s : PoolState) : Prop :=
  length (inflight s) < K -> waiting s <> [] -> is_Some (pool_step s StartBatch).

End Batches.

Arguments PoolState : clear implicits.

End Fanout.

(** ** tools/registry.ts and index.ts: the tool registry and its dispatcher *)

Module Registry.
Import Errors.

Inductive CapabilityKey : Type := reddit | search | scraping | deepResearch | llmExtraction.

Record Capabilities : Type := mkCapabilities {
  cap_reddit : bool;
  cap_search : bool;
  cap_scraping : bool;
  cap_deepResearch : bool;
  cap_llmExtraction : bool
}.

(** [capabilities[key]] *)
Definition capability_enabled (capabilities : Capabilities) (key : CapabilityKey) : bool :=
  match key with
  | reddit => cap_reddit capabilities
  | search => cap_search capabilities
  | scraping => cap_scraping capabilities
  | deepResearch => cap_deepResearch capabilities
  | llmExtraction => cap_llmExtraction capabilities
  end.

(** The raw arguments of a request. *)
Inductive JsValue : Type :=
| VUndefined
| VNull
| VBool (b : bool)
| VNumber (z : Z)
| VString (s : string)
| VArray (items : list JsValue)
| VObject (fields : list (string * JsValue)).

Record TextContent : Type := mkText { text : string }.

Record CallToolResult : Type := mkCallToolResult {
  content : list TextContent;
  isError : option bool
}.

Record ZodIssue : Type := mkZodIssue {
  path : list string;
  issue_message : string
}.

(** What [schema.parse(args)] does: it returns the validated value,
    throws a [ZodError], or throws something else, of whatever shape. *)
Inductive ParseOutcome : Type :=
| Parsed (value : JsValue)
| ZodFailure (issues : list ZodIssue)
| ParseThrew (e : Unknown.Value).

Record Transformed : Type := mkTransformed {
  tr_content : string;
  tr_isError : option bool
}.

Record ToolRegistration : Type := mkToolRegistration {
  name : string;
  capability : option CapabilityKey;
  schema : JsValue -> ParseOutcome;
  handler : JsValue -> Outcome Unknown.Value string;
  postValidate : option (JsValue -> Outcome Unknown.Value (option string));
  transformResponse : option (string -> Transformed)
}.

(** What the registry imports: the schemas and handlers of the five
    tools, whose runs end by returning a string or by throwing a value of
    whatever shape, and two helpers of modules that are not among the
    sources. *)
Record Imports : Type := mkImports {
  searchRedditParamsSchema : JsValue -> ParseOutcome;
  getRedditPostParamsSchema : JsValue -> ParseOutcome;
  deepResearchParamsSchema : JsValue -> ParseOutcome;
  scrapeLinksParamsSchema : JsValue -> ParseOutcome;
  webSearchParamsSchema : JsValue -> ParseOutcome;
  searchRedditHandler : JsValue -> Outcome Unknown.Value string;
  getRedditPostHandler : JsValue -> Outcome Unknown.Value string;
  deepResearchHandler : JsValue -> Outcome Unknown.Value string;
  scrapeLinksHandler : JsValue -> Outcome Unknown.Value string;
  webSearchHandler : JsValue -> Outcome Unknown.Value string;
  (** config/index.ts *)
  getMissingEnvMessage : CapabilityKey -> string;
  (** the Markdown body that utils/errors.ts renders for an error *)
  formatStructuredError : StructuredError -> string
}.

Inductive McpErrorCode : Type := MethodNotFound.

Record McpError : Type := mkMcpError {
  mcp_code : McpErrorCode;
  mcp_message : string
}.

(** What a rejected promise of the dispatcher carries. *)
Inductive Exn : Type :=
| ExnMcp (e : McpError)
| ExnOther (e : Unknown.Value).

Inductive Effect : Type :=
| EvValidate (tool : string)
| EvPostValidate (tool : string)
| EvHandler (tool : string) (params : JsValue)
| EvLog.

Section Dispatch.
Variable imports : Imports.

(** Modelled from the spec: [createToolErrorFromStructured] of
    utils/errors.ts is not among the sources. By section 4.7 (step 5)
    and section 7 of the specification the error is formatted as a
    result whose [is_error] flag is set; the body is left to
    [formatStructuredError]. *)
Definition createToolErrorFromStructured (structured : StructuredError)
    : CallToolResult :=
  mkCallToolResult [mkText (formatStructuredError imports structured)] (Some true).

Definition sentinel (marker : string) (result : string) : Transformed :=
  mkTransformed result (Some (JsString.includes result marker)).

Definition toolRegistry_entries : list (string * ToolRegistration) :=
  [ ("search_reddit",
     mkToolRegistration "search_reddit" (Some search)
       (searchRedditParamsSchema imports) (searchRedditHandler imports) None None);
    ("get_reddit_post",
     mkToolRegistration "get_reddit_post" (Some reddit)
       (getRedditPostParamsSchema imports) (getRedditPostHandler imports) None None);
    ("deep_research",
     mkToolRegistration "deep_research" (Some deepResearch)
       (deepResearchParamsSchema imports) (deepResearchHandler imports) None
       (Some (sentinel "# ❌ Error")));
    ("scrape_links",
     mkToolRegistration "scrape_links" (Some scraping)
       (scrapeLinksParamsSchema imports) (scrapeLinksHandler imports) None
       (Some (sentinel "# ❌ Scraping Failed")));
    ("web_search",
     mkToolRegistration "web_search" (Some search)
       (webSearchParamsSchema imports) (webSearchHandler imports) None
       (Some (sentinel "# ❌ web_search"))) ].

Definition toolRegistry : gmap string ToolRegistration :=
  list_to_map toolRegistry_entries.

(** [Object.keys(toolRegistry)] *)
Definition registered_names : list string := toolRegistry_entries.*1.

(** The property names that every object literal inherits from
    [Object.prototype]: [toolRegistry[name]] is truthy for them too. *)
Definition Object_prototype_keys : list string :=
  [ "constructor"; "__proto__"; "hasOwnProperty"; "isPrototypeOf";
    "propertyIsEnumerable"; "toLocaleString"; "toString"; "valueOf";
    "__defineGetter__"; "__defineSetter__"; "__lookupGetter__"; "__lookupSetter__" ].

Inductive Lookup : Type :=
| OwnTool (tool : ToolRegistration)
| Inherited
| Absent.

(** [toolRegistry[name]] *)
Definition lookup_tool (name : string) : Lookup :=
  match toolRegistry !! name with
  | Some tool => OwnTool tool
  | None => if bool_decide (name ∈ Object_prototype_keys) then Inherited else Absent
  end.

Definition render_issue (i : ZodIssue) : string :=
  "- **" +:+ JsString.or_else (JsString.join "." (path i)) "root" +:+ "**: "
    +:+ issue_message i.

Definition validation_error (details : string) : CallToolResult :=
  mkCallToolResult
    [mkText ("# ❌ Validation Error" +:+ JsString.newline +:+ JsString.newline
               +:+ details)]
    (Some true).

(** The body of the [catch] clauses:
    [return createToolErrorFromStructured(classifyError(error))]. The call
    of [classifyError] is not guarded: what it throws leaves the function
    that contains the [catch]. *)
Definition classified (error : Unknown.Value) : Outcome Exn CallToolResult :=
  match Unknown.classifyError error with
  | Returned structured => Returned (createToolErrorFromStructured structured)
  | Threw e => Threw (ExnOther (Unknown.Plain e))
  end.

(** Steps 4 and 5 of [executeTool]: the handler is invoked inside
    [try]; what it throws is classified and formatted. *)
Definition run_handler (tool : ToolRegistration) (validatedParams : JsValue)
    : Outcome Exn CallToolResult * list Effect :=
  match handler tool validatedParams with
  | Threw error =>
      (classified error, [EvHandler (name tool) validatedParams])
  | Returned result =>
      (Returned
         match transformResponse tool with
         | Some transform =>
             let transformed := transform result in
             mkCallToolResult [mkText (tr_content transformed)] (tr_isError transformed)
         | None => mkCallToolResult [mkText result] None
         end,
       [EvHandler (name tool) validatedParams])
  end.

(** Step 3.5 of [executeTool]; the hook runs outside of any [try]. *)
Definition post_validate_then_run (tool : ToolRegistration) (validatedParams : JsValue)
    : Outcome Exn CallToolResult * list Effect :=
  match postValidate tool with
  | Some check =>
      match check validatedParams with
      | Threw e => (Threw (ExnOther e), [EvPostValidate (name tool)])
      | Returned postError =>
          if String.eqb (default "" postError) "" then
            let '(result, trace) := run_handler tool validatedParams in
            (result, EvPostValidate (name tool) :: trace)
          else
            (Returned (validation_error (default "" postError)),
             [EvPostValidate (name tool)])
      end
  | None => run_handler tool validatedParams
  end.

(** Steps 2 to 5 of [executeTool] for an own entry of the registry. *)
Definition execute_registered (tool : ToolRegistration) (args : JsValue)
    (capabilities : Capabilities) : Outcome Exn CallToolResult * list Effect :=
  let gated :=
    match capability tool with
    | Some key => if capability_enabled capabilities key then None else Some key
    | None => None
    end in
  match gated with
  | Some key =>
      (Returned (mkCallToolResult [mkText (getMissingEnvMessage imports key)]
                   (Some true)),
       [])
  | None =>
      match schema tool args with
      | ZodFailure issues =>
          (Returned
             (validation_error (JsString.join JsString.newline (map render_issue issues))),
           [EvValidate (name tool)])
      | ParseThrew error => (classified error, [EvValidate (name tool)])
      | Parsed validatedParams =>
          let '(result, trace) := post_validate_then_run tool validatedParams in
          (result, EvValidate (name tool) :: trace)
      end
  end.

(** The [TypeError] raised by [tool.schema.parse] when [tool] has no
    [schema] property. *)
Definition schema_undefined_error : JsThrown :=
  let msg := "Cannot read properties of undefined (reading 'parse')" in
  JsObj (mkJsObject false true (Some msg) None None None (Some "TypeError") None
           ("TypeError: " +:+ msg)).

Definition executeTool (name : string) (args : JsValue) (capabilities : Capabilities)
    : Outcome Exn CallToolResult * list Effect :=
  match lookup_tool name with
  | Absent =>
      (Threw (ExnMcp (mkMcpError MethodNotFound
                        ("Method not found: " +:+ name +:+ ". Available tools: "
                           +:+ JsString.join ", " registered_names))),
       [])
  | Inherited =>
      (* no [capability], and [tool.schema] is [undefined]: the call of
         [parse] throws inside the [try] of step 3 *)
      (classified (Unknown.Plain schema_undefined_error), [])
  | OwnTool tool => execute_registered tool args capabilities
  end.

(** index.ts: the handler installed for [CallToolRequestSchema]. Its
    [catch] rethrows a protocol error and classifies anything else, once
    more without guard; the log line follows the classification. *)
Definition handleCallTool (name : string) (args : JsValue) (capabilities : Capabilities)
    : Outcome Exn CallToolResult * list Effect :=
  match executeTool name args capabilities with
  | (Returned result, trace) => (Returned result, trace)
  | (Threw (ExnMcp e), trace) => (Threw (ExnMcp e), trace)
  | (Threw (ExnOther e), trace) =>
      match classified e with
      | Returned result => (Returned result, trace ++ [EvLog])
      | Threw e' => (Threw e', trace)
      end
  end.

(** The handler invocations recorded in a trace. *)
Definition handler_calls (trace : list Effect) : list string :=
  omap (fun ev => match ev with EvHandler tool _ => Some tool | _ => None end) trace.

End Dispatch.

End Registry.

(** ** Sample worlds for concrete runs *)

Module Samples.
Import Errors Registry.

(** Imports whose schemas accept every value and whose handlers return a
    fixed body. *)
Definition accepting_imports : Imports :=
  mkImports Parsed Parsed Parsed Parsed Parsed
    (fun _ => Returned "ok") (fun _ => Returned "ok") (fun _ => Returned "ok")
    (fun _ => Returned "ok") (fun _ => Returned "ok")
    (fun _ => "missing environment variable")
    (fun e => message e).

(** The same imports with handlers that throw. *)
Definition throwing_imports : Imports :=
  mkImports Parsed Parsed Parsed Parsed Parsed
    (fun _ => Threw (Unknown.Plain (plain_Error "boom")))
    (fun _ => Threw (Unknown.Plain (plain_Error "boom")))
    (fun _ => Threw (Unknown.Plain (plain_Error "boom")))
    (fun _ => Threw (Unknown.Plain (plain_Error "boom")))
    (fun _ => Threw (Unknown.Plain (plain_Error "boom")))
    (fun _ => "missing environment variable")
    (fun e => message e).

Definition all_enabled : Capabilities := mkCapabilities true true true true true.
Definition none_enabled : Capabilities := mkCapabilities false false false false false.

(** A scraper configuration with two attempts per mode. *)
Definition two_attempts : Scraper.ScraperConfig :=
  Scraper.mkScraperConfig 2 [2000; 4000]%Z 30.

(** A provider that answers every call with the given status. *)
Definition always_status (status : Z) (body : string) : Scraper.World :=
  Scraper.mkWorld (fun _ => true) (fun _ _ => Scraper.Response status (Returned body) [])
    (fun _ _ => (1 # 2)%Q).

(** A provider that is busy for plain requests and serves rendered ones. *)
Definition javascript_only : Scraper.World :=
  Scraper.mkWorld (fun _ => true)
    (fun request _ =>
       match Scraper.mode request with
       | Some Scraper.javascript => Scraper.Response 200 (Returned "<html>") []
       | _ => Scraper.Response 503 (Returned "busy") []
       end)
    (fun _ _ => (1 # 2)%Q).

(** An operation that fails twice with status 503 and then succeeds. *)
Definition third_time_lucky (k : nat) : Outcome JsThrown nat :=
  match k with
  | 0 | 1 => Threw (status_message_object 503 "down")
  | _ => Returned 42%nat
  end.

(** A comment with the given author, score and replies. *)
Definition reply (a : string) (s : Z) (replies : list Reddit.Thing) : Reddit.Thing :=
  Reddit.mkThing "t1" (Some a) (Some "text") s replies.

Definition thread : list Reddit.Thing :=
  [ reply "a" 5 [reply "b" 1 []; reply "c" 7 [reply "d" 2 []]];
    reply "[deleted]" 100 [reply "x" 50 []];
    Reddit.mkThing "more" None None 0 [];
    reply "e" 9 [reply "f" 3 []] ].

End Samples.

(** ** Totals over the delays of a run *)

Module Totals.

(** The sum of a list of delays. *)
Definition Qsum (l : list Q) : Q := foldr Qplus 0%Q l.

(** The sum of a list of counts. *)
Definition Zsum (l : list Z) : Z := foldr Z.add 0%Z l.

End Totals.

(** ** clients/scraper.ts: scraping many URLs *)

Module ScraperBatch.
Import Errors Scraper.

(** [ScrapeResponse & { url: string }] *)
Record UrlResponse : Type := mkUrlResponse {
  ur_url : string;
  ur_response : ScrapeResponse
}.

Record BatchScrapeResult : Type := mkBatchScrapeResult {
  results : list UrlResponse;
  batchesProcessed : nat;
  totalAttempted : nat;
  rateLimitHits : nat
}.

(** [reason instanceof Error ? reason.message : String(reason)], as a
    template literal renders it. *)
Definition reason_message (reason : JsThrown) : string :=
  match reason with
  | JsNull => "null"
  | JsUndefined => "undefined"
  | JsObj o => if js_isError o then default "undefined" (js_message o) else js_toString o
  end.

(** The sleeps of a trace of the client, in order. *)
Definition sleeps (trace : list Event) : list Z :=
  omap (fun ev => match ev with EvSleep ms => Some ms | _ => None end) trace.

(** [SCRAPER.RETRY_DELAYS[attempt] || 8000], the base delay inside
    [calculateBackoff]. *)
Definition baseDelay (cfg : ScraperConfig) (attempt : nat) : Z :=
  match RETRY_DELAYS cfg !! attempt with
  | Some d => if (d =? 0)%Z then 8000%Z else d
  | None => 8000%Z
  end.

Section Batch.
Variable cfg : ScraperConfig.
Variable w : World.
(** [options.timeout] *)
Variable timeout : option Z.

(** One element of [urls.map(url => this.scrapeWithFallback(url, options))]
    once it has settled, with the trace of the calls the task made. *)
Definition task (url : string) : Outcome JsThrown ScrapeResponse * list Event :=
  let '(result, trace) := scrapeWithFallback cfg w url timeout in
  (Returned result, trace).

(** The body of the [for] loop over [batchResults] in [batchScrape]: the
    entry pushed to [allResults] and whether [rateLimitHits] is
    incremented. *)
Definition batchScrape_settle (url : string) (result : Outcome JsThrown ScrapeResponse)
    : UrlResponse * bool :=
  match result with
  | Returned scrapeResult =>
      (mkUrlResponse url scrapeResult,
       bool_decide (code <$> error scrapeResult = Some RATE_LIMITED))
  | Threw reason =>
      (mkUrlResponse url
         (mkScrapeResponse ("Error: Unexpected failure - " +:+ reason_message reason)
            500 0 None (Some (classifyError reason))),
       false)
  end.

(** One iteration of the loop over [batchNum]: the tasks of the batch
    settle and are pushed in the order of [batchUrls]. *)
Definition batchScrape_batch (acc : list UrlResponse * nat) (batchUrls : list string)
    : list UrlResponse * nat :=
  foldl
    (fun '(allResults, rateLimitHits) url =>
       let '(entry, hit) := batchScrape_settle url (task url).1 in
       (allResults ++ [entry], if hit then S rateLimitHits else rateLimitHits))
    acc batchUrls.

(** [batchScrape]: what it returns. The callback [onBatchComplete],
    whose exceptions are caught, the log lines and the pause of 500 ms
    between two batches have no part in the returned value. *)
Definition batchScrape (urls : list string) : BatchScrapeResult :=
  let size := Z.to_nat (BATCH_SIZE cfg) in
  let totalBatches := Fanout.ceil_div (length urls) size in
  let '(allResults, rateLimitHits) :=
    foldl batchScrape_batch ([], 0%nat) (Fanout.batchScrape_batches size urls) in
  mkBatchScrapeResult allResults totalBatches (length urls) rateLimitHits.

(** The callback of [results.map] in [processBatch]. *)
Definition processBatch_settle (url : string) (result : Outcome JsThrown ScrapeResponse)
    : UrlResponse :=
  match result with
  | Returned value => mkUrlResponse url value
  | Threw reason =>
      mkUrlResponse url
        (mkScrapeResponse ("Error: " +:+ reason_message reason) 500 0 None
           (Some (classifyError reason)))
  end.

Definition processBatch (urls : list string) : list UrlResponse :=
  map (fun url => processBatch_settle url (task url).1) urls.

Definition scrapeMultiple (urls : list string) : list UrlResponse :=
  if (length urls =? 0)%nat then []
  else if (Z.of_nat (length urls) <=? BATCH_SIZE cfg)%Z then processBatch urls
  else results (batchScrape urls).

(** The entry of the result list for a URL whose task resolves: the
    response of [scrapeWithFallback] with the URL attached. *)
Definition entry_of (url : string) : UrlResponse :=
  mkUrlResponse url (scrapeWithFallback cfg w url timeout).1.

End Batch.

End ScraperBatch.

(** ** tools/registry.ts: the utility functions of the registry *)

Module RegistryTools.
Import Errors Registry.

(** [!capKey || caps[capKey]] for [capKey = tool.capability] *)
Definition tool_listed (caps : Capabilities) (tool : ToolRegistration) : bool :=
  match capability tool with
  | None => true
  | Some capKey => capability_enabled caps capKey
  end.

Section Utilities.
Variable imports : Imports.

Definition getRegisteredToolNames : list string := registered_names imports.

(** [name in toolRegistry]: true for an own property and for a property
    inherited from [Object.prototype]. *)
Definition isToolRegistered (name : string) : bool :=
  bool_decide (is_Some (toolRegistry imports !! name))
  || bool_decide (name ∈ Object_prototype_keys).

(** [getToolCapabilities]; [caps] is what [getCapabilities()] returns.
    [Object.entries] lists the entries in the order of the literal. *)
Definition getToolCapabilities (caps : Capabilities) : list string * list string :=
  foldl
    (fun '(enabled, disabled) '(name, tool) =>
       if tool_listed caps tool then (enabled ++ [name], disabled)
       else (enabled, disabled ++ [name]))
    ([], []) (toolRegistry_entries imports).

End Utilities.

End RegistryTools.

(** ** services/llm-processor.ts: content extraction by an LLM *)

Module LLM.
Import Errors.

Record ProcessingConfig : Type := mkProcessingConfig {
  use_llm : bool;
  what_to_extract : option string;
  max_tokens : option Z
}.

Record LLMResult : Type := mkLLMResult {
  content : string;
  processed : bool;
  error : option string;
  errorDetails : option StructuredError
}.

(** [LLM_RETRY_CONFIG] *)
Definition LLM_maxRetries : Z := 3.
Definition LLM_baseDelayMs : Q := 2000.
Definition LLM_maxDelayMs : Q := 30000.

Definition RETRYABLE_LLM_ERROR_CODES : list string :=
  ["rate_limit_exceeded"; "server_error"; "timeout"; "service_unavailable"].

(** The constants [LLM_EXTRACTION] of config/index.ts, which is not
    among the sources: they are parameters. *)
Record ExtractionConfig : Type := mkExtractionConfig {
  MODEL : string;
  MAX_TOKENS : Z;
  ENABLE_REASONING : bool
}.

(** What [processor.chat.completions.create] throws: the value as
    [classifyError] sees it, with [err.error?.code] and
    [err.error?.type], which [isRetryableLLMError] reads as well. The
    [catch] block of [processContentWithLLM] reads [status] and [code]
    from the value for its log line: the loop below is that of the
    source for rejections that are objects, which is what the properties
    of the loop assume. *)
Record LlmThrown : Type := mkLlmThrown {
  thrown : JsThrown;
  nested_code : option string;
  nested_type : option string
}.

(** [a || b] on optional strings: [undefined] and the empty string are
    falsy. *)
Definition str_or (a b : option string) : option string :=
  match a with
  | Some s => if String.eqb s "" then b else Some s
  | None => b
  end.

(** [isRetryableLLMError]; of the falsy values that [!error] rejects,
    [null] and [undefined] are modelled. *)
Definition isRetryableLLMError (error : LlmThrown) : bool :=
  match thrown error with
  | JsNull | JsUndefined => false
  | JsObj err =>
      let status_listed :=
        match js_status err with
        | Some status =>
            (status =? 429)%Z || (status =? 500)%Z || (status =? 502)%Z
            || (status =? 503)%Z || (status =? 504)%Z
        | None => false
        end in
      if status_listed then true
      else
        let errorCode :=
          str_or (js_code err) (str_or (nested_code error) (nested_type error)) in
        let code_listed :=
          match errorCode with
          | Some c => negb (String.eqb c "") && bool_decide (c ∈ RETRYABLE_LLM_ERROR_CODES)
          | None => false
          end in
        if code_listed then true
        else
          let message := JsString.toLowerCase (JsString.opt_or_else (js_message err) "") in
          JsString.includes message "rate limit"
          || JsString.includes message "timeout"
          || JsString.includes message "timed out"
          || JsString.includes message "service unavailable"
          || JsString.includes message "server error"
          || JsString.includes message "connection"
          || JsString.includes message "econnreset"
  end.

(** [calculateLLMBackoff(attempt)]; [r] is the sample of [Math.random()]. *)
Definition calculateLLMBackoff (attempt : nat) (r : Q) : Q :=
  let exponentialDelay := (LLM_baseDelayMs * 2 ^ Z.of_nat attempt)%Q in
  let jitter := (r * (3 # 10) * exponentialDelay)%Q in
  Qmin (exponentialDelay + jitter) LLM_maxDelayMs.

(** The ASCII white space and line terminators: tab, line feed, vertical
    tab, form feed, carriage return and space. *)
Definition is_space (c : ascii) : bool :=
  let n := nat_of_ascii c in
  (n =? 9)%nat || (n =? 10)%nat || (n =? 11)%nat || (n =? 12)%nat || (n =? 13)%nat
  || (n =? 32)%nat.

(** [!s.trim()] on ASCII text. *)
Fixpoint blank_ascii (s : string) : bool :=
  match s with
  | EmptyString => true
  | String c rest => is_space c && blank_ascii rest
  end.

Definition maxInputChars : Z := 100000.

Definition truncation_marker : string :=
  JsString.newline +:+ JsString.newline +:+ "[Content truncated due to length]".

Definition truncate (content : string) : string :=
  if (maxInputChars <? Z.of_nat (String.length content))%Z
  then substring 0 (Z.to_nat maxInputChars) content +:+ truncation_marker
  else content.

Record ChatRequest : Type := mkChatRequest {
  model : string;
  prompt : string;
  request_max_tokens : Z;
  reasoning : bool
}.

(** The client: the outcome of the [k]-th call of
    [chat.completions.create] for a request is an exception or
    [response.choices?.[0]?.message?.content], which may be missing. *)
Definition Processor : Type := ChatRequest -> nat -> Outcome LlmThrown (option string).

Inductive Event : Type :=
| EvCreate (request : ChatRequest) (attempt : nat)
| EvSleep (ms : Q).

Section Process.
Variable extraction : ExtractionConfig.
(** the samples of [Math.random()], by attempt *)
Variable rand : nat -> Q.
(** [!s.trim()]: whether nothing is left of a string once the runtime
    has trimmed it; [blank_ascii] on ASCII text *)
Variable blank : string -> bool.

Definition build_prompt (config : ProcessingConfig) (content : string) : string :=
  match str_or (what_to_extract config) None with
  | Some focus =>
      "Extract and clean the following content. Focus on: " +:+ focus
        +:+ JsString.newline +:+ JsString.newline +:+ "Content:" +:+ JsString.newline
        +:+ truncate content
  | None =>
      "Clean and extract the main content from the following text, removing navigation, ads, and irrelevant elements:"
        +:+ JsString.newline +:+ JsString.newline +:+ truncate content
  end.

Definition build_request (config : ProcessingConfig) (content : string) : ChatRequest :=
  mkChatRequest (MODEL extraction) (build_prompt config content)
    (default (MAX_TOKENS extraction) (num_truthy (max_tokens config)))
    (ENABLE_REASONING extraction).

(** The result after the loop: all attempts failed. *)
Definition extraction_failed (content : string) (lastError : option StructuredError)
    : LLMResult :=
  let errorMessage := JsString.or_else (from_option message "" lastError) "Unknown LLM error" in
  mkLLMResult content false (Some ("LLM extraction failed: " +:+ errorMessage))
    (Some (default (mkStructuredError UNKNOWN_ERROR errorMessage false None None)
             lastError)).

Definition empty_response (content : string) : LLMResult :=
  mkLLMResult content false (Some "LLM returned empty response")
    (Some (mkStructuredError INTERNAL_ERROR "LLM returned empty response" false None None)).

(** The retry loop of [processContentWithLLM], entered at [attempt] with
    [fuel] iterations left before [attempt <= maxRetries] fails. *)
Fixpoint extraction_loop (create : Processor) (content : string) (request : ChatRequest)
    (fuel : nat) (attempt : nat) (lastError : option StructuredError)
    : LLMResult * list Event :=
  match fuel with
  | O => (extraction_failed content lastError, [])
  | S fuel' =>
      match create request attempt with
      | Returned result =>
          match result with
          | Some text =>
              if negb (String.eqb text "") && negb (blank text)
              then (mkLLMResult text true None None, [EvCreate request attempt])
              else (empty_response content, [EvCreate request attempt])
          | None => (empty_response content, [EvCreate request attempt])
          end
      | Threw err =>
          let lastError := classifyError (thrown err) in
          if isRetryableLLMError err && (Z.of_nat attempt <? LLM_maxRetries)%Z then
            let delayMs := calculateLLMBackoff attempt (rand attempt) in
            let '(result, trace) :=
              extraction_loop create content request fuel' (S attempt) (Some lastError) in
            (result, EvCreate request attempt :: EvSleep delayMs :: trace)
          else
            (extraction_failed content (Some lastError), [EvCreate request attempt])
      end
  end.

Definition processContentWithLLM (content : string) (config : ProcessingConfig)
    (processor : option Processor) : LLMResult * list Event :=
  if negb (use_llm config) then (mkLLMResult content false None None, [])
  else
    match processor with
    | None =>
        (mkLLMResult content false
           (Some "LLM processor not available (OPENROUTER_API_KEY not set)")
           (Some (mkStructuredError AUTH_ERROR "LLM processor not available" false
                    None None)),
         [])
    | Some create =>
        if blank content
        then (mkLLMResult content false (Some "Empty content provided") None, [])
        else
          extraction_loop create content (build_request config content)
            (Z.to_nat (LLM_maxRetries + 1)) 0 None
    end.

(** [LLMResult & { url: string }] and the input [{ content, url }] *)
Record UrlContent : Type := mkUrlContent { uc_content : string; uc_url : string }.
Record UrlResult : Type := mkUrlResult { ur_result : LLMResult; ur_url : string }.

(** [processMultipleWithLLM]: what it returns. The batches run one after
    the other, with a pause of 500 ms between two of them, and the
    results of a batch are pushed in the order of the batch. *)
Definition processMultipleWithLLM (contents : list UrlContent) (config : ProcessingConfig)
    (processor : option Processor) (concurrency : nat) : list UrlResult :=
  if negb (use_llm config) || negb (bool_decide (is_Some processor))
     || (length contents =? 0)%nat
  then map (fun c => mkUrlResult (mkLLMResult (uc_content c) false None None) (uc_url c))
         contents
  else
    concat
      (map (map (fun c =>
                   mkUrlResult (processContentWithLLM (uc_content c) config processor).1
                     (uc_url c)))
         (Fanout.processMultipleWithLLM_batches concurrency contents)).

(** The calls of [create] recorded in a trace, in order. *)
Definition creates (trace : list Event) : list (ChatRequest * nat) :=
  omap (fun ev => match ev with EvCreate r k => Some (r, k) | _ => None end) trace.

End Process.

End LLM.

(** ** lib/reddit.ts: how many comments a listing can show *)

Module RedditListing.
Import Reddit.

(** The number of comments of a tree that [extract] can reach: none for
    a node that is skipped, which hides its replies as well; else the
    node and what its replies show. *)
Fixpoint visible (c : Thing) : nat :=
  match c with
  | mkThing k a b s replies =>
      if skipped (mkThing k a b s replies) then 0%nat
      else S (foldr Nat.add 0%nat (map visible replies))
  end.

Definition visible_forest (children : list Thing) : nat :=
  foldr Nat.add 0%nat (map visible children).

End RedditListing.

(** ** index.ts: shutdown of the server process *)

Module Shutdown.

(** What the process is told: one of the four events that index.ts
    installs a handler for, or the settling of the pending
    [server.close()], which resolves or rejects. *)
Inductive Trigger : Type := uncaughtException | unhandledRejection | SIGTERM | SIGINT.

Inductive Input : Type :=
| Fire (t : Trigger)
| CloseSettled (resolved : bool).

Inductive Effect : Type :=
| EvLog
| EvClose
| EvExit (exitCode : Z).

(** [isShuttingDown]; the exit code of the call of [gracefulShutdown]
    that awaits [server.close()]; whether the [once] listener of SIGINT
    is still installed; whether the process is still running. *)
Record State : Type := mkState {
  isShuttingDown : bool;
  awaiting_close : option Z;
  sigint_listener : bool;
  alive : bool
}.

Definition initial : State := mkState false None true true.

(** The argument that the handler of a trigger passes to
    [gracefulShutdown]. *)
Definition exit_code_of (t : Trigger) : Z :=
  match t with
  | uncaughtException | unhandledRejection => 1
  | SIGTERM | SIGINT => 0
  end.

(** [gracefulShutdown(exitCode)] up to its [await]. *)
Definition gracefulShutdown (exitCode : Z) (st : State) : State * list Effect :=
  if isShuttingDown st then (st, [])
  else (mkState true (Some exitCode) (sigint_listener st) (alive st), [EvClose]).

(** The continuation of [gracefulShutdown] after the [await]: a log line
    from the [try] or from the [catch], then [process.exit] in the
    [finally]. *)
Definition resume_after_close (resolved : bool) (st : State) : State * list Effect :=
  match awaiting_close st with
  | Some exitCode =>
      (mkState (isShuttingDown st) None (sigint_listener st) false,
       [EvLog; EvExit exitCode])
  | None => (st, [])
  end.

(** One turn of the event loop. A process that has ended does nothing.
    The listener of SIGINT is removed when it fires; a later SIGINT finds
    no listener and has its default action, which ends the process
    without a call of [process.exit] by this program. *)
Definition step (st : State) (i : Input) : State * list Effect :=
  if negb (alive st) then (st, [])
  else
    match i with
    | Fire SIGINT =>
        if sigint_listener st then
          let '(st', effects) :=
            gracefulShutdown (exit_code_of SIGINT)
              (mkState (isShuttingDown st) (awaiting_close st) false (alive st)) in
          (st', EvLog :: effects)
        else
          (mkState (isShuttingDown st) (awaiting_close st) (sigint_listener st) false, [])
    | Fire t =>
        let '(st', effects) := gracefulShutdown (exit_code_of t) st in
        (st', EvLog :: effects)
    | CloseSettled resolved => resume_after_close resolved st
    end.

Fixpoint run (st : State) (inputs : list Input) : State * list Effect :=
  match inputs with
  | [] => (st, [])
  | i :: later =>
      let '(st', effects) := step st i in
      let '(final, effects') := run st' later in
      (final, effects ++ effects')
  end.

Definition closes (effects : list Effect) : nat :=
  length (List.filter (fun e => match e with EvClose => true | _ => false end) effects).

Definition exits (effects : list Effect) : list Z :=
  omap (fun e => match e with EvExit c => Some c | _ => None end) effects.

(** The first trigger among the inputs. *)
Definition first_trigger (inputs : list Input) : option Trigger :=
  head (omap (fun i => match i with Fire t => Some t | _ => None end) inputs).

End Shutdown.

(** ** utils/retry.ts: batches of operations with retry *)

Module RetryBatch.
Import Errors Retry.

(** [BatchConfig extends RetryConfig] *)
Record BatchConfig : Type := mkBatchConfig {
  retryConfig : RetryConfig;
  batchSize : Z;
  delayBetweenBatches : Q
}.

Definition DEFAULT_BATCH_CONFIG : BatchConfig := mkBatchConfig DEFAULT_RETRY_CONFIG 30 500.

(** [{ index: globalIdx, ...result }] *)
Record ItemResult (R : Type) : Type := mkItemResult {
  index : Z;
  result : RetryResult R
}.
Arguments mkItemResult {R}.
Arguments index {R}.
Arguments result {R}.

Record BatchResult (R : Type) : Type := mkBatchResult {
  results : list (ItemResult R);
  totalAttempts : Z;
  rateLimitHits : nat;
  totalDelayMs : Q
}.
Arguments mkBatchResult {R}.
Arguments results {R}.
Arguments totalAttempts {R}.
Arguments rateLimitHits {R}.
Arguments totalDelayMs {R}.

(** The value [is429] that the [shouldRetry] closure computes and
    returns. *)
Definition batch_is429 (error : JsThrown) : bool :=
  JsString.includes (error_message error) "429"
  || JsString.includes (JsString.toLowerCase (error_message error)) "rate limit".

(** [processBatchWithRetry] called without the optional callbacks
    [onItemComplete] and [onBatchComplete] and with a logger that does
    not throw. [processor item index k] is the outcome of the [k]-th
    invocation of the processor for an item. Every task of
    [Promise.allSettled] is then fulfilled, by the result of
    [retryWithBackoff]. *)
Section Batch.
Context {T R : Type}.
Variable processor : T -> nat -> nat -> Outcome JsThrown R.
Variable fullConfig : BatchConfig.

Definition run_item (item : T) (globalIdx : nat) : RetryResult R * list RetryEvent :=
  retryWithBackoff (processor item globalIdx) (retryConfig fullConfig)
    (mkRetryHooks (Some batch_is429) false).

(** How often the [shouldRetry] closure of an item increments
    [rateLimitHits]: [retryWithBackoff] invokes it once after each call
    that throws. *)
Definition item_hits (item : T) (globalIdx : nat) : nat :=
  length
    (List.filter
       (fun k =>
          match processor item globalIdx k with
          | Threw e => batch_is429 (to_Error e)
          | Returned _ => false
          end)
       (calls_of (run_item item globalIdx).2)).

(** The body of [for (const result of batchResults)] for a fulfilled
    task. *)
Definition settle (acc : BatchResult R) (task : nat * T) : BatchResult R :=
  let '(globalIdx, item) := task in
  let value := (run_item item globalIdx).1 in
  mkBatchResult
    (results acc ++ [mkItemResult (Z.of_nat globalIdx) value])
    (totalAttempts acc + attempts value)
    (rateLimitHits acc + item_hits item globalIdx)
    (totalDelayMs acc + Retry.totalDelayMs value)%Q.

(** One iteration of the loop over [batchNum]. *)
Definition batch_step (items : list T) (totalBatches size : nat) (acc : BatchResult R)
    (batchNum : nat) : BatchResult R :=
  let startIdx := (batchNum * size)%nat in
  let endIdx := Nat.min (startIdx + size) (length items) in
  let batchItems := Fanout.slice items startIdx endIdx in
  let acc :=
    foldl settle acc
      (imap (fun localIdx item => ((startIdx + localIdx)%nat, item)) batchItems) in
  if (S batchNum <? totalBatches)%nat then
    mkBatchResult (results acc) (totalAttempts acc) (rateLimitHits acc)
      (totalDelayMs acc + delayBetweenBatches fullConfig)%Q
  else acc.

Definition processBatchWithRetry (items : list T) : BatchResult R :=
  let size := Z.to_nat (batchSize fullConfig) in
  let totalBatches := Fanout.ceil_div (length items) size in
  foldl (batch_step items totalBatches size) (mkBatchResult [] 0 0 0) (seq 0 totalBatches).

End Batch.

End RetryBatch.

(** ** tools/research.ts: the deep research handler *)

Module Research.
Import Errors.

Definition MIN_QUESTIONS : Z := 1.
Definition MAX_QUESTIONS : Z := 10.

(** A question of the request; of its attachments only their number is
    read here. *)
Record Question : Type := mkQuestion {
  question : string;
  file_attachments : option nat
}.

Record ResearchRequest : Type := mkResearchRequest {
  rq_question : string;
  rq_systemPrompt : string;
  rq_reasoningEffort : string;
  rq_maxSearchResults : Z;
  rq_maxTokens : Z
}.

(** What the handler reads of a [ResearchResponse]: [content],
    [error.message] when [error] is set, and [usage?.totalTokens]. *)
Record ResearchResponse : Type := mkResearchResponse {
  rs_content : option string;
  rs_error : option string;
  rs_totalTokens : option Z
}.

Record QuestionResult : Type := mkQuestionResult {
  qr_question : string;
  qr_content : string;
  qr_success : bool;
  qr_error : option string;
  qr_tokensUsed : option Z
}.

Inductive StructuredContent : Type :=
| ErrorContent (message : string)
| Summary (totalQuestions successful failed : nat) (tokensPerQuestion totalTokensUsed : Z)
          (results : list QuestionResult).

(** What the handler runs against: the constants [RESEARCH] of
    config/index.ts, the constructor of [ResearchClient], the attachment
    formatter and [client.research] for the question at an index, and
    [toLocaleString] on numbers. *)
Record World : Type := mkWorld {
  REASONING_EFFORT : string;
  MAX_URLS : Z;
  new_ResearchClient : Outcome JsThrown unit;
  formatAttachments : nat -> Outcome JsThrown string;
  research : ResearchRequest -> nat -> Outcome JsThrown ResearchResponse;
  toLocaleString : Z -> string
}.

Definition SYSTEM_PROMPT : string :=
  "You are an expert research consultant. Provide evidence-based, multi-perspective analysis.

METHODOLOGY:
- SOURCE DIVERSITY: Official docs, papers, blogs, case studies
- CURRENT + HISTORICAL: Latest developments AND context
- MULTIPLE PERSPECTIVES: Different approaches with pros/cons
- EVIDENCE-BASED: Claims backed by citations

FORMAT (high info density):
- CURRENT STATE: Status quo, what we know
- KEY INSIGHTS: Most important findings with evidence
- TRADE-OFFS: Competing priorities honestly analyzed
- PRACTICAL IMPLICATIONS: Real-world application
- WHAT'S CHANGING: Recent developments

Be dense with insights, light on filler. Use examples and citations.".

(** [s.trim()] on ASCII white space; the text it is applied to below
    opens with a heading and closes with a rule and line feeds. *)
Fixpoint trimStart (s : string) : string :=
  match s with
  | EmptyString => EmptyString
  | String c rest => if LLM.is_space c then trimStart rest else s
  end.

Fixpoint trimEnd (s : string) : string :=
  match s with
  | EmptyString => EmptyString
  | String c rest =>
      let rest' := trimEnd rest in
      if String.eqb rest' "" && LLM.is_space c then EmptyString else String c rest'
  end.

Definition trim (s : string) : string := trimEnd (trimStart s).

Definition nl : string := JsString.newline.

Section Handler.
Variable w : World.

(** The request that the handler makes for a question. *)
Definition research_request (tokensPerQuestion : Z) (enhancedQuestion : string)
    : ResearchRequest :=
  mkResearchRequest enhancedQuestion SYSTEM_PROMPT (REASONING_EFFORT w)
    (Z.min (MAX_URLS w) 20) tokensPerQuestion.

(** The question as it is sent: with the Markdown of its attachments
    appended when there are attachments and formatting them succeeds. *)
Definition enhance (index : nat) (q : Question) : string :=
  match file_attachments q with
  | Some (S _) =>
      match formatAttachments w index with
      | Returned attachmentsMarkdown => question q +:+ attachmentsMarkdown
      | Threw _ => question q
      end
  | _ => question q
  end.

(** The callback of [questions.map]: the result for one question and the
    request it made. *)
Definition research_one (tokensPerQuestion : Z) (index : nat) (q : Question)
    : QuestionResult * ResearchRequest :=
  let request := research_request tokensPerQuestion (enhance index q) in
  (match research w request index with
   | Returned response =>
       let content := JsString.opt_or_else (rs_content response) "" in
       match rs_error response with
       | Some message => mkQuestionResult (question q) content false (Some message) None
       | None =>
           let filled := negb (String.eqb content "") in
           mkQuestionResult (question q) content filled
             (if filled then None else Some "Empty response received")
             (rs_totalTokens response)
       end
   | Threw error =>
       mkQuestionResult (question q) "" false (Some (message (classifyError error))) None
   end,
   request).

Definition tokens_of (r : QuestionResult) : Z := default 0%Z (num_truthy (qr_tokensUsed r)).

Definition render_result (i : nat) (r : QuestionResult) : string :=
  "## Question " +:+ pretty (i + 1)%nat +:+ ": " +:+ substring 0 100 (qr_question r)
    +:+ (if (100 <? String.length (qr_question r))%nat then "..." else "")
    +:+ nl +:+ nl
    +:+ (if qr_success r then
           qr_content r +:+ nl +:+ nl
             +:+ match num_truthy (qr_tokensUsed r) with
                 | Some tokens =>
                     "_Tokens used: " +:+ toLocaleString w tokens +:+ "_" +:+ nl +:+ nl
                 | None => ""
                 end
         else "**❌ Error:** " +:+ default "undefined" (qr_error r) +:+ nl +:+ nl)
    +:+ "---" +:+ nl +:+ nl.

Definition render (count : nat) (tokensPerQuestion : Z) (results : list QuestionResult)
    : string :=
  let successful := List.filter qr_success results in
  let failed := List.filter (fun r => negb (qr_success r)) results in
  let totalTokens := foldl (fun sum r => (sum + tokens_of r)%Z) 0%Z successful in
  "# Deep Research Results (" +:+ pretty count +:+ " questions)" +:+ nl +:+ nl
    +:+ "**Token Allocation:** " +:+ toLocaleString w tokensPerQuestion
    +:+ " tokens/question (" +:+ pretty count +:+ " questions, "
    +:+ toLocaleString w Budget.TOTAL_TOKEN_BUDGET +:+ " total budget)" +:+ nl
    +:+ "**Status:** ✅ " +:+ pretty (length successful) +:+ " successful | ❌ "
    +:+ pretty (length failed) +:+ " failed | 📊 " +:+ toLocaleString w totalTokens
    +:+ " tokens used" +:+ nl +:+ nl
    +:+ "---" +:+ nl +:+ nl
    +:+ foldr String.append "" (imap render_result results).

(** [handleDeepResearch] without a logger: the body, the structured
    content and the requests made to the research client, one for each
    question. [questions] is [params.questions || []]. *)
Definition handleDeepResearch (questions : list Question)
    : string * StructuredContent * list ResearchRequest :=
  let count := length questions in
  if (Z.of_nat count <? MIN_QUESTIONS)%Z then
    ("# ❌ Error" +:+ nl +:+ nl +:+ "Minimum " +:+ pretty MIN_QUESTIONS
       +:+ " research question(s) required. Received: " +:+ pretty count,
     ErrorContent ("Minimum " +:+ pretty MIN_QUESTIONS +:+ " question(s) required"),
     [])
  else if (MAX_QUESTIONS <? Z.of_nat count)%Z then
    ("# ❌ Error" +:+ nl +:+ nl +:+ "Maximum " +:+ pretty MAX_QUESTIONS
       +:+ " research questions allowed. Received: " +:+ pretty count,
     ErrorContent ("Maximum " +:+ pretty MAX_QUESTIONS +:+ " questions allowed"),
     [])
  else
    let tokensPerQuestion := Budget.research_calculateTokenAllocation (Z.of_nat count) in
    match new_ResearchClient w with
    | Threw error =>
        let err := classifyError error in
        ("# ❌ Error" +:+ nl +:+ nl +:+ "Failed to initialize research client: "
           +:+ message err,
         ErrorContent ("Failed to initialize: " +:+ message err),
         [])
    | Returned _ =>
        let runs := imap (research_one tokensPerQuestion) questions in
        let results := runs.*1 in
        let successful := List.filter qr_success results in
        let failed := List.filter (fun r => negb (qr_success r)) results in
        let totalTokens := foldl (fun sum r => (sum + tokens_of r)%Z) 0%Z successful in
        (trim (render count tokensPerQuestion results),
         Summary count (length successful) (length failed) tokensPerQuestion totalTokens
           results,
         runs.*2)
    end.

End Handler.

End Research.

(** ** Further sample worlds *)

Module MoreSamples.

Definition extraction : LLM.ExtractionConfig := LLM.mkExtractionConfig "model" 4000 false.

(** A processor that is rate limited once and then answers. *)
Definition busy_then_clean : LLM.Processor :=
  fun _ k =>
    match k with
    | O => Threw (LLM.mkLlmThrown (Errors.status_message_object 429 "slow down") None None)
    | _ => Returned (Some "clean text")
    end.

Definition extract_all : LLM.ProcessingConfig := LLM.mkProcessingConfig true None None.

(** A processor that is rate limited at its first call for item 20. *)
Definition flaky_processor (item : nat) (index : nat) (k : nat) : Outcome Errors.JsThrown nat :=
  match k with
  | O => if (item =? 20)%nat then Threw (Errors.plain_Error "429 Too Many Requests")
         else Returned item
  | _ => Returned item
  end.

Definition pairs_config : RetryBatch.BatchConfig :=
  RetryBatch.mkBatchConfig Retry.DEFAULT_RETRY_CONFIG 2 500.

(** A research client that answers the first question and fails the
    others. *)
Definition first_only : Research.World :=
  Research.mkWorld "high" 10 (Returned tt) (fun _ => Returned "")
    (fun _ index =>
       match index with
       | O => Returned (Research.mkResearchResponse (Some "findings") None (Some 1200%Z))
       | _ => Threw (Errors.plain_Error "upstream down")
       end)
    pretty.

Definition three_questions : list Research.Question :=
  [ Research.mkQuestion "What is new in Rocq 9?" None;
    Research.mkQuestion "How do MCP servers report errors?" None;
    Research.mkQuestion "Which retry policies avoid thundering herds?" (Some 0%nat) ].

(** An operation that fails twice with status 503 and then succeeds. *)
Definition twice_unavailable (k : nat) : Outcome Unknown.Value nat :=
  match k with
  | 0 | 1 => Threw (Unknown.Plain (Errors.status_message_object 503 "down"))
  | _ => Returned 42%nat
  end.

(** An operation that fails every time with the same plain value. *)
Definition always_fails (x : Errors.JsThrown) (k : nat) : Outcome Unknown.Value nat :=
  Threw (Unknown.Plain x).

(** No callback installed, and an [onRetry] callback that returns. *)
Definition no_hooks : Unknown.Hooks := Unknown.mkHooks None None None.

Definition quiet (attempt : Z) (error : Errors.StructuredError) (delayMs : Q)
    : Outcome Unknown.Value unit :=
  Returned tt.

End MoreSamples.

(** * Properties *)

(** ** Error classification *)

(** Case analysis on the first integer comparison of the goal. *)
Ltac case_Zeqb :=
  match goal with
  | |- context [(?a =? ?b)%Z] => destruct (Z.eqb_spec a b)
  end.

Section ClassifierFacts.
Import Errors.

Lemma classifyHttpError_statusCode (status : Z) (msg : string) :
  statusCode (classifyHttpError status msg) = Some status.
Proof.
  unfold classifyHttpError.
  repeat (case_Zeqb; [reflexivity|]).
  case (500 <=? status)%Z; reflexivity.
Qed.

Lemma classifyHttpError_kind (status : Z) (msg : string) :
  code (classifyHttpError status msg) = spec_http_kind status.
Proof.
  unfold classifyHttpError, spec_http_kind.
  repeat (case_Zeqb; [subst; reflexivity|]).
  assert (table_lookup spec_http_table status = None) as ->.
  { unfold spec_http_table; cbn [table_lookup].
    repeat (case_Zeqb; [congruence|]).
    reflexivity. }
  case (500 <=? status)%Z; reflexivity.
Qed.

Lemma classifyHttpError_retryable (status : Z) (msg : string) :
  retryable (classifyHttpError status msg)
  = spec_default_retryable (code (classifyHttpError status msg)).
Proof.
  unfold classifyHttpError.
  repeat (case_Zeqb; [reflexivity|]).
  case (500 <=? status)%Z; reflexivity.
Qed.

Lemma classifyError_retryable (error : JsThrown) :
  retryable (classifyError error) = spec_default_retryable (code (classifyError error)).
Proof.
  destruct error as [| |o]; try reflexivity.
  cbn [classifyError]; unfold classifyObject.
  repeat (match goal with
          | |- context [if ?b then _ else _] => destruct b
          | |- context [match ?x with Some _ => _ | None => _ end] => destruct x
          end; try reflexivity; try apply classifyHttpError_retryable).
Qed.

End ClassifierFacts.

Section Classifier.
Import Errors.

(** C5, counterexample. A value that carries HTTP status 400 and whose
    message mentions a timeout is classified by the earlier timeout rule:
    the result is Timeout, retryable and without status, not the
    InvalidInput of the dispatch table. *)
Lemma classifyError_status_overruled_by_timeout :
  let e := classifyError (status_message_object 400 "upstream request timeout") in
  code e = TIMEOUT /\ retryable e = true /\ statusCode e = None
  /\ code e <> spec_http_kind 400.
Proof. vm_compute. repeat split; discriminate. Qed.

(** C5, as amended. When the classifier is given a value whose message
    is missing or a string and it reaches its HTTP step (the value is not
    an abort exception, has no network error code and no timeout code,
    name or message, and carries a non-zero status), it returns an error
    that has the kind of the dispatch table, the status attached, and the
    retryable flag of the kind. Every error that the classifier returns,
    for whatever value, has the retryable flag of its kind: true exactly
    for RateLimited, Timeout, Network, ServiceUnavailable and Internal. *)
Theorem classifyError_http_status_table (error : Unknown.Value) (status : Z) :
  (Unknown.status_of error = Some status ->
   Unknown.text_message error = true ->
   Unknown.earlier_rule error = false ->
   exists e,
     Unknown.classifyError error = Returned e
     /\ code e = spec_http_kind status
     /\ statusCode e = Some status
     /\ retryable e = spec_default_retryable (code e))
  /\ (forall e, Unknown.classifyError error = Returned e ->
                retryable e = spec_default_retryable (code e)).
Proof.
  split.
  - intros Hstatus Htext Hrule.
    destruct error as [[| |o]| |]; try discriminate.
    cbn in Hstatus, Hrule.
    apply orb_false_iff in Hrule as [Hrule Htime].
    apply orb_false_iff in Hrule as [Habort Hnet].
    exists (classifyError (JsObj o)). split; [reflexivity|].
    assert (classifyError (JsObj o)
            = classifyHttpError status
                (JsString.opt_or_else (js_message o) (js_toString o))) as ->.
    { cbn [classifyError]. unfold classifyObject.
      rewrite Habort, Hnet, Htime, Hstatus. reflexivity. }
    split; [apply classifyHttpError_kind|].
    split; [apply classifyHttpError_statusCode|apply classifyHttpError_retryable].
  - intros e He. destruct error as [x| |]; try discriminate.
    cbn in He. injection He as <-. apply classifyError_retryable.
Qed.

Lemma classifyError_http_status_table_witness :
  let o := mkJsObject false false (Some "upstream down") None (Some 503%Z) None None None
             "[object Object]" in
  Unknown.status_of (Unknown.Plain (JsObj o)) = Some 503%Z
  /\ exists e,
       Unknown.classifyError (Unknown.Plain (JsObj o)) = Returned e
       /\ code e = SERVICE_UNAVAILABLE /\ retryable e = true.
Proof.
  intro o. split; [reflexivity|].
  destruct (proj1 (classifyError_http_status_table (Unknown.Plain (JsObj o)) 503)
              eq_refl eq_refl eq_refl) as (e & He & Hk & _ & Hr).
  exists e. split; [exact He|]. split; [exact Hk|]. rewrite Hr, Hk. reflexivity.
Defined.

(** An object that carries a status and whose message is not a string
    never reaches the HTTP step: the timeout test before it calls
    [toLowerCase] on the message, and the classifier throws. *)
Lemma classifyError_throws_on_non_text_message :
  let error := Unknown.NonTextMessage false (Some 429%Z) "[object Object]" in
  Unknown.status_of error = Some 429%Z
  /\ Unknown.earlier_rule error = false
  /\ Unknown.classifyError error
     = Threw (Unknown.TypeError "message.toLowerCase is not a function").
Proof. repeat split. Qed.

End Classifier.

(** ** Token budget *)

Section Binary64Facts.
#[local] Open Scope Z_scope.

Lemma nearest_bounds (n d : Z) :
  0 < d -> n / d <= Binary64.nearest n d /\ 2 * d * Binary64.nearest n d <= 2 * n + d.
Proof.
  intros Hd. unfold Binary64.nearest.
  pose proof (Z.div_mod n d ltac:(lia)) as Hdm.
  pose proof (Z.mod_pos_bound n d Hd) as Hr.
  set (f := n / d) in *. set (r := n mod d) in *.
  destruct (Z.ltb_spec (2 * r) d); [split; nia|].
  destruct (Z.ltb_spec d (2 * r)); [split; nia|].
  destruct (Z.even f); split; nia.
Qed.

Lemma exponent_range (n d : Z) :
  0 < n -> 0 < d ->
  Z.log2 n - Z.log2 d - 1 <= Binary64.exponent n d <= Z.log2 n - Z.log2 d.
Proof.
  intros _ _. unfold Binary64.exponent.
  destruct (if 0 <=? Z.log2 n - Z.log2 d then _ else _); lia.
Qed.

(** [2 ^ exponent n d <= n / d] *)
Lemma exponent_le (n d : Z) :
  0 < n -> 0 < d ->
  let e := Binary64.exponent n d in
  (0 <= e -> d * 2 ^ e <= n) /\ (e < 0 -> d <= n * 2 ^ (- e)).
Proof.
  intros Hn Hd.
  pose proof (Z.log2_spec n Hn) as [Hn1 Hn2].
  pose proof (Z.log2_spec d Hd) as [Hd1 Hd2].
  pose proof (Z.log2_nonneg n) as Hln. pose proof (Z.log2_nonneg d) as Hld.
  assert (let e := Z.log2 n - Z.log2 d - 1 in
          (0 <= e -> d * 2 ^ e <= n) /\ (e < 0 -> d <= n * 2 ^ (- e))) as Hlow.
  { set (ln := Z.log2 n) in *. set (ld := Z.log2 d) in *. clearbody ln ld.
    replace (Z.succ ld) with (ld + 1) in Hd2 by lia.
    cbv zeta. split; intros He.
    - assert (2 ^ ln = 2 ^ (ld + 1) * 2 ^ (ln - ld - 1)) as Hpow.
      { rewrite <- Z.pow_add_r by lia. f_equal. lia. }
      assert (0 < 2 ^ (ln - ld - 1)) by (apply Z.pow_pos_nonneg; lia).
      nia.
    - assert (2 ^ (ld + 1) = 2 ^ ln * 2 ^ (- (ln - ld - 1))) as Hpow.
      { rewrite <- Z.pow_add_r by lia. f_equal. lia. }
      assert (0 < 2 ^ (- (ln - ld - 1))) by (apply Z.pow_pos_nonneg; lia).
      nia. }
  unfold Binary64.exponent. cbv zeta in *.
  destruct (Z.leb_spec 0 (Z.log2 n - Z.log2 d)) as [Hpos|Hneg].
  - destruct (Z.leb_spec (d * 2 ^ (Z.log2 n - Z.log2 d)) n) as [Hle|Hgt];
      [|exact Hlow].
    split; [intros _; exact Hle|intros Hc; exfalso; clear - Hc Hpos; lia].
  - destruct (Z.leb_spec d (n * 2 ^ (- (Z.log2 n - Z.log2 d)))) as [Hle|Hgt];
      [|exact Hlow].
    split; [intros Hc; exfalso; clear - Hc Hneg; lia|intros _; exact Hle].
Qed.

Lemma nearest_0 (d : Z) : 0 < d -> Binary64.nearest 0 d = 0.
Proof.
  intros Hd. unfold Binary64.nearest. rewrite Zdiv_0_l, Zmod_0_l.
  destruct (Z.ltb_spec (2 * 0) d); [reflexivity|lia].
Qed.

Lemma floor_div_exact (a b : Z) :
  0 <= a < 2 ^ 53 -> 1 <= b < 2 ^ 53 -> Binary64.floor_div a b = a / b.
Proof.
  intros Ha Hb. unfold Binary64.floor_div. rewrite Z.abs_eq by lia.
  destruct (Z.eq_dec a 0) as [->|Hne].
  { rewrite Zdiv_0_l.
    destruct (Z.leb_spec 0 (Z.min (52 - Binary64.exponent 0 b) 1074)) as [Hs|Hs].
    - rewrite Z.mul_0_l, nearest_0 by lia. apply Zdiv_0_l.
    - rewrite nearest_0; [reflexivity|].
      apply Z.mul_pos_pos; [lia|apply Z.pow_pos_nonneg; lia]. }
  pose proof (exponent_range a b ltac:(lia) ltac:(lia)) as He.
  pose proof (exponent_le a b ltac:(lia) ltac:(lia)) as Hle. cbv zeta in Hle.
  assert (Z.log2 a < 53) as Hla by (apply Z.log2_lt_pow2; lia).
  assert (Z.log2 b < 53) as Hlb by (apply Z.log2_lt_pow2; lia).
  pose proof (Z.log2_nonneg a) as Hla0. pose proof (Z.log2_nonneg b) as Hlb0.
  set (e := Binary64.exponent a b) in *. clearbody e.
  rewrite Z.min_l by lia.
  destruct (Z.leb_spec 0 (52 - e)) as [_|Hs]; [|lia].
  set (s := 52 - e) in *.
  assert (0 <= s) as Hs by lia.
  assert (0 < 2 ^ s) as HP by (apply Z.pow_pos_nonneg; lia).
  assert (b < 2 * 2 ^ s) as Hb2.
  { destruct (Z.le_gt_cases 0 e) as [Hpos|Hneg].
    - destruct Hle as [Hle _]. specialize (Hle Hpos).
      assert (2 ^ 53 = 2 * 2 ^ s * 2 ^ e) as Hpow.
      { rewrite <- (Z.pow_succ_r 2 s), <- Z.pow_add_r by lia. f_equal. lia. }
      assert (0 < 2 ^ e) by (apply Z.pow_pos_nonneg; lia). nia.
    - destruct Hle as [_ Hle]. specialize (Hle Hneg).
      assert (2 * 2 ^ s = 2 ^ 53 * 2 ^ (- e)) as Hpow.
      { rewrite <- (Z.pow_succ_r 2 s), <- Z.pow_add_r by lia. f_equal. lia. }
      assert (0 < 2 ^ (- e)) by (apply Z.pow_pos_nonneg; lia). nia. }
  destruct (nearest_bounds (a * 2 ^ s) b ltac:(lia)) as [Hlow Hup].
  set (m := Binary64.nearest (a * 2 ^ s) b) in *. clearbody m.
  set (P := 2 ^ s) in *. clearbody P.
  pose proof (Z.div_mod a b ltac:(lia)) as Hdm.
  pose proof (Z.mod_pos_bound a b ltac:(lia)) as Hr.
  set (k := a / b) in *. set (r := a mod b) in *. clearbody k r.
  assert (k * P <= a * P / b) as Hk.
  { apply Z.div_le_lower_bound; [lia|]. nia. }
  symmetry. apply (Z.div_unique m P k (m - k * P)); [|lia].
  left. split; [lia|]. nia.
Qed.

End Binary64Facts.

Section BudgetFacts.
Import Budget.

(** C6, as amended. For a budget [total] and a count [n] that are
    integers below [2 ^ 53], the integers that a number of the source
    holds exactly, with [total >= 0], the allocator returns
    [total / max 1 n] (floor division) when [n >= 1] and [total] itself
    when [n = 0]; for [n >= 1] the share times [n] does not exceed the
    budget and the share is not negative. The allocator of the research
    tool is the same function at its fixed budget. *)
Theorem calculateTokenAllocation_spec (total n : Z) :
  (0 <= total < 2 ^ 53)%Z ->
  ((1 <= n < 2 ^ 53)%Z ->
     calculateTokenAllocation n total = (total / Z.max 1 n)%Z
     /\ (calculateTokenAllocation n total * n <= total)%Z
     /\ (0 <= calculateTokenAllocation n total)%Z)
  /\ (n = 0%Z -> calculateTokenAllocation n total = total)
  /\ research_calculateTokenAllocation n = calculateTokenAllocation n TOTAL_TOKEN_BUDGET.
Proof.
  intros Htotal. split; [|split].
  - intros Hn. unfold calculateTokenAllocation.
    destruct (Z.leb_spec n 0) as [?|_]; [lia|].
    rewrite floor_div_exact by lia.
    rewrite Z.max_r by lia.
    split; [reflexivity|]. split.
    + rewrite Z.mul_comm. apply Z.mul_div_le. lia.
    + apply Z.div_pos; lia.
  - intros ->. reflexivity.
  - reflexivity.
Qed.

Lemma calculateTokenAllocation_spec_witness :
  (0 <= 32000 < 2 ^ 53)%Z
  /\ calculateTokenAllocation 3 32000 = 10666%Z
  /\ (calculateTokenAllocation 3 32000 * 3 <= 32000)%Z.
Proof.
  assert (0 <= 32000 < 2 ^ 53)%Z as Htotal by (split; [lia|reflexivity]).
  split; [exact Htotal|].
  destruct (calculateTokenAllocation_spec 32000 3 Htotal) as (H & _ & _).
  destruct (H ltac:(split; [lia|reflexivity])) as (H1 & H2 & _).
  split; [exact H1|exact H2].
Defined.

(** C6, counterexample. Beyond [2 ^ 53] the quotient is rounded before
    its floor is taken. For the budget [2 ^ 54] and five items the share
    is one more than the floor of the exact quotient, and five shares
    exceed the budget; for the budget [2 ^ 60] and three items the share
    is less than the floor of the exact quotient. *)
Lemma calculateTokenAllocation_beyond_safe_integers :
  calculateTokenAllocation 5 (2 ^ 54) = 3602879701896397%Z
  /\ (2 ^ 54 / Z.max 1 5 = 3602879701896396)%Z
  /\ ~ (calculateTokenAllocation 5 (2 ^ 54) * 5 <= 2 ^ 54)%Z
  /\ calculateTokenAllocation 3 (2 ^ 60) = 384307168202282304%Z
  /\ (2 ^ 60 / Z.max 1 3 = 384307168202282325)%Z.
Proof.
  split; [vm_compute; reflexivity|]. split; [vm_compute; reflexivity|].
  split; [|split; vm_compute; reflexivity].
  intros H. vm_compute in H. apply H. reflexivity.
Qed.

End BudgetFacts.

(** ** Backoff delays *)

Section Backoff.
Import Errors.

Lemma Qpower_2_nonneg (n : nat) : (0 <= 2 ^ Z.of_nat n)%Q.
Proof. apply Qpower_0_le. lra. Qed.

Lemma exponential_nonneg (base : Q) (n : nat) :
  (0 <= base)%Q -> (0 <= base * 2 ^ Z.of_nat n)%Q.
Proof. intros Hb. apply Qmult_le_0_compat; [exact Hb|apply Qpower_2_nonneg]. Qed.




End Backoff.

(** ** The retry engine *)

Section RetryEngine.
Import Errors.
Context {T : Type}.
Variable fn : nat -> Outcome JsThrown T.
Variable opts : RetryOptions.
Variable rand : nat -> Q.

Lemma attempts_of_round (k : nat) (n : Z) (e : StructuredError) (d : Q)
    (trace : list RetryEvent) :
  attempts_of (EvAttempt k :: notify_onRetry opts n e d ++ EvSleep d :: trace)
  = k :: attempts_of trace.
Proof. unfold notify_onRetry. destruct (onRetry opts); reflexivity. Qed.

Lemma sleeps_of_round (k : nat) (n : Z) (e : StructuredError) (d : Q)
    (trace : list RetryEvent) :
  sleeps_of (EvAttempt k :: notify_onRetry opts n e d ++ EvSleep d :: trace)
  = d :: sleeps_of trace.
Proof. unfold notify_onRetry. destruct (onRetry opts); reflexivity. Qed.

Lemma stops_at_once (a : nat) (run : RetryResult T * list RetryEvent) :
  run.2 = [EvAttempt a] ->
  ((exists v, fn a = Returned v /\ run.1 = RetrySuccess v)
   \/ (exists e, fn a = Threw e /\ retryable (classifyError e) = false
                /\ run.1 = RetryFailure (classifyError e) (Z.of_nat a + 1))
   \/ (exists e, fn a = Threw e /\ retryable (classifyError e) = true
                /\ Z.of_nat a = maxRetries opts
                /\ run.1 = RetryFailure (classifyError e) (Z.of_nat a + 1))) ->
  stops_at fn opts rand a a run.
Proof.
  intros Htrace Hcases. unfold stops_at. rewrite Htrace.
  replace (S a - a)%nat with 1%nat by lia. replace (a - a)%nat with 0%nat by lia.
  split; [reflexivity|]. split; [reflexivity|exact Hcases].
Qed.

(** The loop entered at attempt [a] with at least one iteration left
    stops at the first attempt [k >= a] that is not a retryable failure
    with attempts remaining. *)
Lemma withRetry_from_outcome (fuel a : nat) (last : StructuredError) :
  (Z.of_nat a + Z.of_nat fuel = maxRetries opts + 1)%Z -> (1 <= fuel)%nat ->
  exists k,
    (a <= k)%nat /\ (Z.of_nat k <= maxRetries opts)%Z
    /\ (forall j, (a <= j < k)%nat -> retryable_failure fn j)
    /\ stops_at fn opts rand a k (withRetry_from fn opts rand fuel a last).
Proof.
  revert a last. induction fuel as [|fuel IH]; intros a last Hsum Hfuel; [lia|].
  cbn [withRetry_from].
  destruct (fn a) as [v|e] eqn:Hfn.
  - exists a. split; [lia|]. split; [lia|]. split; [intros j Hj; lia|].
    apply stops_at_once; [reflexivity|].
    left. exists v. split; [exact Hfn|reflexivity].
  - destruct (retryable (classifyError e)) eqn:Hre; cbn [negb].
    + destruct (Z.leb_spec (maxRetries opts) (Z.of_nat a)) as [Hlast|Hmore].
      * exists a. split; [lia|]. split; [lia|]. split; [intros j Hj; lia|].
        apply stops_at_once; [reflexivity|].
        right; right. exists e. split; [exact Hfn|]. split; [exact Hre|].
        split; [lia|reflexivity].
      * destruct (IH (S a) (classifyError e)) as (k & Hak & Hk & Hpre & Hatt & Hsl & Hres);
          [lia|lia|].
        destruct (withRetry_from fn opts rand fuel (S a) (classifyError e))
          as [result trace] eqn:Hrun.
        cbn [fst snd] in *.
        exists k. split; [lia|]. split; [exact Hk|]. split; [|split; [|split]].
        -- intros j Hj. destruct (decide (j = a)) as [->|Hne].
           ++ exists e. split; assumption.
           ++ apply Hpre. lia.
        -- cbn [snd]. rewrite attempts_of_round, Hatt.
           replace (S k - a)%nat with (S (S k - S a)) by lia. reflexivity.
        -- cbn [snd]. rewrite sleeps_of_round, Hsl.
           replace (k - a)%nat with (S (k - S a)) by lia. reflexivity.
        -- exact Hres.
    + exists a. split; [lia|]. split; [lia|]. split; [intros j Hj; lia|].
      apply stops_at_once; [reflexivity|].
      right; left. exists e. split; [exact Hfn|]. split; [exact Hre|reflexivity].
Qed.

(** On an operation whose failures are plain values, and with an observer
    for [onRetry], the loop of [withRetry] returns a failure at once when
    no attempt is allowed. Otherwise it stops with the first attempt [k]
    that succeeds, fails with a non-retryable error, or is the last
    allowed one: every earlier attempt failed with a retryable error and
    was followed by one backoff sleep, no attempt after [k] is made, a
    success returns the value of attempt [k] unaltered, and a failure
    returns the classification of the error of attempt [k]. *)
Lemma withRetry_plain_outcome :
  ((maxRetries opts < 0)%Z
   /\ withRetry fn opts rand = (RetryFailure no_attempts_error (maxRetries opts + 1), []))
  \/ exists k,
       (Z.of_nat k <= maxRetries opts)%Z
       /\ (forall j, (j < k)%nat -> retryable_failure fn j)
       /\ attempts_of (withRetry fn opts rand).2 = seq 0 (S k)
       /\ sleeps_of (withRetry fn opts rand).2
          = map (fun j => calculateBackoff j opts (rand j)) (seq 0 k)
       /\ ((exists v, fn k = Returned v /\ (withRetry fn opts rand).1 = RetrySuccess v)
           \/ (exists e, fn k = Threw e /\ retryable (classifyError e) = false
                        /\ (withRetry fn opts rand).1
                           = RetryFailure (classifyError e) (Z.of_nat k + 1))
           \/ (exists e, fn k = Threw e /\ retryable (classifyError e) = true
                        /\ Z.of_nat k = maxRetries opts
                        /\ (withRetry fn opts rand).1
                           = RetryFailure (classifyError e) (Z.of_nat k + 1))).
Proof.
  destruct (Z.ltb_spec (maxRetries opts) 0) as [Hneg|Hpos].
  - left. split; [exact Hneg|].
    unfold withRetry. replace (Z.to_nat (maxRetries opts + 1)) with 0%nat by lia.
    reflexivity.
  - right.
    destruct (withRetry_from_outcome (Z.to_nat (maxRetries opts + 1)) 0 no_attempts_error)
      as (k & _ & Hk & Hpre & Hatt & Hsl & Hres); [lia|lia|].
    exists k. split; [exact Hk|]. split; [intros j Hj; apply Hpre; lia|].
    unfold withRetry. rewrite Hatt, Hsl.
    replace (S k - 0)%nat with (S k) by lia. replace (k - 0)%nat with k by lia.
    split; [reflexivity|]. split; [reflexivity|exact Hres].
Qed.

End RetryEngine.

Section RetryHelper.
Import Errors Retry.
Context {T : Type}.
Variable fn : nat -> Outcome JsThrown T.
Variable config : RetryConfig.
Variable hooks : RetryHooks.

Lemma ends_at_once (a : nat) (run : RetryResult T * list RetryEvent) :
  calls_of run.2 = [a] -> delays_of run.2 = [] ->
  ((exists v, fn a = Returned v
              /\ success run.1 = true /\ data run.1 = Some v
              /\ attempts run.1 = (Z.of_nat a + 1)%Z)
   \/ (exists e, fn a = Threw e /\ shouldRetryThis hooks (to_Error e) = false
                /\ success run.1 = false /\ error run.1 = Some (to_Error e)
                /\ attempts run.1 = (Z.of_nat a + 1)%Z)
   \/ (exists e, fn a = Threw e /\ shouldRetryThis hooks (to_Error e) = true
                /\ Z.of_nat a = (maxRetries config - 1)%Z
                /\ success run.1 = false /\ error run.1 = Some (to_Error e)
                /\ attempts run.1 = maxRetries config)) ->
  ends_at fn config hooks a a run.
Proof.
  intros Hcalls Hdelays Hcases. unfold ends_at. rewrite Hcalls, Hdelays.
  replace (S a - a)%nat with 1%nat by lia. replace (a - a)%nat with 0%nat by lia.
  split; [reflexivity|]. split; [reflexivity|exact Hcases].
Qed.

(** The same stopping rule holds for [retryWithBackoff], the helper of
    the test drivers, whose retry decision is [shouldRetry] or, without
    it, the rate-limit test on the message: the loop ends with the first
    attempt that succeeds, that fails with an error not to be retried, or
    that is the last allowed one. *)
Lemma retryWithBackoff_from_outcome (fuel a : nat) (total : Q) (last : option JsThrown) :
  (Z.of_nat a + Z.of_nat fuel = maxRetries config)%Z -> (1 <= fuel)%nat ->
  exists k,
    (a <= k)%nat /\ (Z.of_nat k < maxRetries config)%Z
    /\ (forall j, (a <= j < k)%nat -> retried fn hooks j)
    /\ ends_at fn config hooks a k (retryWithBackoff_from fn config hooks fuel a total last).
Proof.
  revert a total last.
  induction fuel as [|fuel IH]; intros a total last Hsum Hfuel; [lia|].
  cbn [retryWithBackoff_from].
  destruct (fn a) as [v|e] eqn:Hfn.
  - exists a. split; [lia|]. split; [lia|]. split; [intros j Hj; lia|].
    apply ends_at_once.
    + cbn. destruct a; reflexivity.
    + cbn. destruct a; reflexivity.
    + left. exists v. cbn. repeat split. exact Hfn.
  - destruct (shouldRetryThis hooks (to_Error e)) eqn:Hre; cbn [negb].
    + destruct (Z.ltb_spec (Z.of_nat a) (maxRetries config - 1)) as [Hmore|Hlast].
      * destruct (IH (S a) (total + calculateDelay a config)%Q (Some (to_Error e)))
          as (k & Hak & Hk & Hpre & Hcalls & Hdelays & Hres); [lia|lia|].
        destruct (retryWithBackoff_from fn config hooks fuel (S a) _ _)
          as [result trace] eqn:Hrun.
        cbn [fst snd] in *.
        exists k. split; [lia|]. split; [exact Hk|]. split; [|split; [|split]].
        -- intros j Hj. destruct (decide (j = a)) as [->|Hne].
           ++ exists e. split; assumption.
           ++ apply Hpre. lia.
        -- cbn [snd]. replace (S k - a)%nat with (S (S k - S a)) by lia.
           cbn [seq]. rewrite <- Hcalls. destruct (onRetry hooks); reflexivity.
        -- cbn [snd]. replace (k - a)%nat with (S (k - S a)) by lia.
           cbn [seq map]. rewrite <- Hdelays. destruct (onRetry hooks); reflexivity.
        -- exact Hres.
      * assert (fuel = 0%nat) as -> by lia.
        exists a. split; [lia|]. split; [lia|]. split; [intros j Hj; lia|].
        apply ends_at_once; [reflexivity|reflexivity|].
        right; right. exists e. cbn. repeat split; try assumption. lia.
    + exists a. split; [lia|]. split; [lia|]. split; [intros j Hj; lia|].
      apply ends_at_once; [reflexivity|reflexivity|].
      right; left. exists e. cbn. repeat split; assumption.
Qed.

(** On an operation whose failures are plain values, and with callbacks
    that return, the loop of [retryWithBackoff] reports a failure without
    calling the operation when no attempt is allowed ([maxRetries <= 0]).
    Otherwise it ends with the first call [k] that succeeds, that fails
    with an error [shouldRetry] (or, without it, the rate-limit test on the
    message) does not accept, or that is the last allowed one
    ([k = maxRetries - 1]): the calls made are exactly [0 .. k], each call
    before [k] failed with an error to be retried, one delay
    [calculateDelay] was waited for each of them, and the result carries
    the value or the error of call [k]. *)
Lemma retryWithBackoff_plain_outcome :
  ((maxRetries config <= 0)%Z
   /\ retryWithBackoff fn config hooks
      = (mkRetryResult false None None (maxRetries config) 0%Q, [EvLog error_level]))
  \/ exists k,
       (Z.of_nat k < maxRetries config)%Z
       /\ (forall j, (j < k)%nat -> retried fn hooks j)
       /\ ends_at fn config hooks 0 k (retryWithBackoff fn config hooks).
Proof.
  destruct (Z.leb_spec (maxRetries config) 0) as [Hneg|Hpos].
  - left. split; [exact Hneg|].
    unfold retryWithBackoff. replace (Z.to_nat (maxRetries config)) with 0%nat by lia.
    reflexivity.
  - right.
    destruct (retryWithBackoff_from_outcome (Z.to_nat (maxRetries config)) 0 0%Q None)
      as (k & _ & Hk & Hpre & Hend); [lia|lia|].
    exists k. split; [exact Hk|]. split; [intros j Hj; apply Hpre; lia|exact Hend].
Qed.

End RetryHelper.

(** ** The retry engines on arbitrary thrown values *)

Section PlainOperation.
Import Errors.
Context {T : Type}.
Variable fn : nat -> Outcome Unknown.Value T.
Hypothesis fn_plain : forall k e, fn k = Threw e -> Unknown.text_message e = true.

(** With an [onRetry] callback that returns, [withRetry] on an operation
    whose failures are plain values returns what the loop of [Errors]
    computes. *)
Lemma withRetry_from_plain (opts : RetryOptions)
    (onRetry_call : Z -> StructuredError -> Q -> Outcome Unknown.Value unit)
    (rand : nat -> Q) :
  (forall n e d, onRetry_call n e d = Returned tt) ->
  forall fuel a last,
    Unknown.withRetry_from fn opts onRetry_call rand fuel a last
    = (Returned
         (withRetry_from (fun k => Unknown.plain_outcome (fn k)) opts rand fuel a last).1,
       (withRetry_from (fun k => Unknown.plain_outcome (fn k)) opts rand fuel a last).2).
Proof.
  intros Hcall. induction fuel as [|fuel IH]; intros a last; [reflexivity|].
  cbn [Unknown.withRetry_from withRetry_from].
  destruct (fn a) as [v|e] eqn:Hfn; cbn [Unknown.plain_outcome]; [reflexivity|].
  pose proof (fn_plain a e Hfn) as Htext. destruct e as [x| |]; try discriminate.
  cbn [Unknown.classifyError].
  destruct (negb (retryable (classifyError x))); [reflexivity|].
  destruct (maxRetries opts <=? Z.of_nat a)%Z; [reflexivity|].
  assert (Unknown.call_onRetry opts onRetry_call (Z.of_nat a + 1) (classifyError x)
            (calculateBackoff a opts (rand a)) = Returned tt) as ->.
  { unfold Unknown.call_onRetry. destruct (onRetry opts); [apply Hcall|reflexivity]. }
  cbv zeta. rewrite IH.
  destruct (withRetry_from _ opts rand fuel (S a) (classifyError x)) as [result trace].
  reflexivity.
Qed.

(** The same for [retryWithBackoff] with callbacks that return. *)
Lemma retryWithBackoff_from_plain (config : Retry.RetryConfig) (hooks : Unknown.Hooks) :
  Unknown.callbacks_return hooks ->
  forall fuel a total last,
    Unknown.retryWithBackoff_from fn config hooks fuel a total last
    = (Returned
         (Retry.retryWithBackoff_from (fun k => Unknown.plain_outcome (fn k)) config
            (Unknown.plain_hooks hooks) fuel a total last).1,
       (Retry.retryWithBackoff_from (fun k => Unknown.plain_outcome (fn k)) config
          (Unknown.plain_hooks hooks) fuel a total last).2).
Proof.
  intros (Hshould & Hnotify & Hwrite).
  assert (forall level, Unknown.log hooks level = Returned tt) as Hlog.
  { intros level. unfold Unknown.log.
    destruct (Unknown.logger hooks) as [write|] eqn:Hw; [|reflexivity].
    apply (Hwrite write level eq_refl). }
  assert (forall a d e, Unknown.call_hook hooks a d e = Returned tt) as Hhook.
  { intros a d e. unfold Unknown.call_hook.
    destruct (Unknown.onRetry hooks) as [notify|] eqn:Hn; [|reflexivity].
    apply (Hnotify notify a d e eq_refl). }
  assert (forall lastError,
            Unknown.decide_retry hooks lastError
            = Returned (lastError,
                        Retry.shouldRetryThis (Unknown.plain_hooks hooks) lastError))
    as Hdecide.
  { intros lastError.
    unfold Unknown.decide_retry, Retry.shouldRetryThis, Unknown.plain_hooks.
    cbn [Retry.shouldRetry].
    destruct (Unknown.shouldRetry hooks) as [f|] eqn:Hf; cbn [option_map]; [|reflexivity].
    destruct (Hshould f lastError eq_refl) as [b Hb]. rewrite Hb. reflexivity. }
  induction fuel as [|fuel IH]; intros a total last.
  - cbn [Unknown.retryWithBackoff_from Retry.retryWithBackoff_from].
    rewrite Hlog. reflexivity.
  - cbn [Unknown.retryWithBackoff_from Retry.retryWithBackoff_from]. cbv zeta.
    destruct (fn a) as [v|e] eqn:Hfn; cbn [Unknown.plain_outcome].
    + destruct (0 <? a)%nat; [rewrite Hlog|]; reflexivity.
    + pose proof (fn_plain a e Hfn) as Htext. destruct e as [x| |]; try discriminate.
      cbn [Unknown.caught]. rewrite Hdecide.
      destruct (Retry.shouldRetryThis (Unknown.plain_hooks hooks) (Retry.to_Error x));
        cbn [negb].
      * destruct (Z.of_nat a <? Retry.maxRetries config - 1)%Z.
        -- rewrite Hlog, Hhook, IH.
           destruct (Retry.retryWithBackoff_from _ config (Unknown.plain_hooks hooks) fuel
                       (S a) _ _) as [result trace].
           reflexivity.
        -- rewrite IH.
           destruct (Retry.retryWithBackoff_from _ config (Unknown.plain_hooks hooks) fuel
                       (S a) _ _) as [result trace].
           reflexivity.
      * rewrite Hlog. reflexivity.
Qed.

End PlainOperation.

Section RetryEngines.
Import Errors.
Context {T : Type}.
Variable fn : nat -> Outcome Unknown.Value T.

(** C3, as amended. Let every value that the operation throws have a
    message that is missing or a string, and be one that [String] can
    render, and let the callbacks return. Then both retry engines return
    a success-or-failure value and throw nothing. [withRetry] returns a
    failure at once when no attempt is allowed; otherwise it stops with
    the first attempt [k] that succeeds, fails with an error classified as
    non-retryable, or is the last allowed one ([k = maxRetries]): every
    earlier attempt failed with an error classified as retryable and was
    followed by one backoff sleep, a success returns the value of attempt
    [k] unaltered, and a failure returns the classification of the error
    of attempt [k]. [retryWithBackoff] follows the same scheme with a
    rule of its own: it does not classify, it retries an error when
    [shouldRetry] accepts it or, without [shouldRetry], when its message
    mentions a rate limit; it allows the calls [0 .. maxRetries - 1] and
    reports the error itself. *)
Theorem retry_engines_outcome :
  (forall k e, fn k = Threw e -> Unknown.text_message e = true) ->
  let op := fun k => Unknown.plain_outcome (fn k) in
  (forall opts onRetry_call rand,
     (forall n e d, onRetry_call n e d = Returned tt) ->
     let run := Unknown.withRetry fn opts onRetry_call rand in
     ((maxRetries opts < 0)%Z
      /\ run = (Returned (RetryFailure no_attempts_error (maxRetries opts + 1)), []))
     \/ exists k result,
          (Z.of_nat k <= maxRetries opts)%Z
          /\ run.1 = Returned result
          /\ (forall j, (j < k)%nat -> retryable_failure op j)
          /\ stops_at op opts rand 0 k (result, run.2))
  /\ (forall config hooks,
        Unknown.callbacks_return hooks ->
        let run := Unknown.retryWithBackoff fn config hooks in
        ((Retry.maxRetries config <= 0)%Z
         /\ run = (Returned (Retry.mkRetryResult false None None
                               (Retry.maxRetries config) 0%Q),
                   [Retry.EvLog Retry.error_level]))
        \/ exists k result,
             (Z.of_nat k < Retry.maxRetries config)%Z
             /\ run.1 = Returned result
             /\ (forall j, (j < k)%nat ->
                   Retry.retried op (Unknown.plain_hooks hooks) j)
             /\ Retry.ends_at op config (Unknown.plain_hooks hooks) 0 k (result, run.2)).
Proof.
  intros Hplain op. split.
  - intros opts onRetry_call rand Hcall run. subst run. unfold Unknown.withRetry.
    rewrite (withRetry_from_plain fn Hplain opts onRetry_call rand Hcall).
    fold op. fold (withRetry op opts rand).
    destruct (withRetry_plain_outcome op opts rand)
      as [[Hneg Heq]|(k & Hk & Hpre & Hatt & Hsl & Hres)].
    + left. split; [exact Hneg|]. rewrite Heq. reflexivity.
    + right. exists k, (withRetry op opts rand).1.
      split; [exact Hk|]. split; [reflexivity|]. split; [exact Hpre|].
      unfold stops_at. cbn [fst snd]. rewrite Hatt, Hsl.
      rewrite !Nat.sub_0_r. split; [reflexivity|]. split; [reflexivity|exact Hres].
  - intros config hooks Hreturn run. subst run. unfold Unknown.retryWithBackoff.
    rewrite (retryWithBackoff_from_plain fn Hplain config hooks Hreturn).
    fold op. fold (Retry.retryWithBackoff op config (Unknown.plain_hooks hooks)).
    destruct (retryWithBackoff_plain_outcome op config (Unknown.plain_hooks hooks))
      as [[Hneg Heq]|(k & Hk & Hpre & Hend)].
    + left. split; [exact Hneg|]. rewrite Heq. reflexivity.
    + right. exists k, (Retry.retryWithBackoff op config (Unknown.plain_hooks hooks)).1.
      split; [exact Hk|]. split; [reflexivity|]. split; [exact Hpre|].
      destruct (Retry.retryWithBackoff op config (Unknown.plain_hooks hooks)).
      exact Hend.
Qed.

(** When the operation throws an object whose message is not a string,
    the classifier throws in the [catch] block of [withRetry], and the
    promise of [withRetry] is rejected with that [TypeError] after one
    attempt. *)
Lemma withRetry_rejects_when_classifier_throws (opts : RetryOptions)
    (onRetry_call : Z -> StructuredError -> Q -> Outcome Unknown.Value unit)
    (rand : nat -> Q) (isError : bool) (status : option Z) (rendering : string) :
  (0 <= maxRetries opts)%Z ->
  fn 0%nat = Threw (Unknown.NonTextMessage isError status rendering) ->
  Unknown.withRetry fn opts onRetry_call rand
  = (Threw (Unknown.Plain
              (Unknown.TypeError "message.toLowerCase is not a function")),
     [EvAttempt 0]).
Proof.
  intros Hmax Hfn. unfold Unknown.withRetry.
  destruct (Z.to_nat (maxRetries opts + 1)) as [|fuel] eqn:Hfuel; [lia|].
  cbn [Unknown.withRetry_from]. rewrite Hfn. reflexivity.
Qed.

(** X4. [retryWithBackoff] returns a result, and throws nothing, when
    every value that the operation throws has a message that is missing
    or a string and can be rendered by [String], and the callbacks
    return. With no attempt allowed ([maxRetries <= 0]) it then reports a
    failure without calling the operation. Otherwise it ends with the
    first call [k] that succeeds, that fails with an error [shouldRetry]
    (or, without it, the rate-limit test on the message) does not accept,
    or that is the last allowed one ([k = maxRetries - 1]): the calls
    made are exactly [0 .. k], each call before [k] failed with an error
    to be retried, one delay [calculateDelay] was waited for each of
    them, and the result carries the value or the error of call [k]. The
    [catch] block is not guarded: when the first call throws an object
    that [String] cannot render, or an [Error] whose message is not a
    string, the promise of [retryWithBackoff] is rejected with a
    [TypeError] after that one call; and what [shouldRetry] throws on
    the first failure rejects it as well. *)
Theorem retryWithBackoff_returns_or_rejects (config : Retry.RetryConfig)
    (hooks : Unknown.Hooks) :
  let run := Unknown.retryWithBackoff fn config hooks in
  let op := fun k => Unknown.plain_outcome (fn k) in
  ((forall k e, fn k = Threw e -> Unknown.text_message e = true) ->
   Unknown.callbacks_return hooks ->
   ((Retry.maxRetries config <= 0)%Z
    /\ run = (Returned (Retry.mkRetryResult false None None (Retry.maxRetries config) 0%Q),
              [Retry.EvLog Retry.error_level]))
   \/ exists k result,
        (Z.of_nat k < Retry.maxRetries config)%Z
        /\ run.1 = Returned result
        /\ (forall j, (j < k)%nat -> Retry.retried op (Unknown.plain_hooks hooks) j)
        /\ Retry.ends_at op config (Unknown.plain_hooks hooks) 0 k (result, run.2))
  /\ ((1 <= Retry.maxRetries config)%Z ->
      fn 0%nat = Threw Unknown.Unprintable ->
      run = (Threw (Unknown.Plain
                      (Unknown.TypeError "Cannot convert object to primitive value")),
             [Retry.EvCall 0]))
  /\ (forall status rendering,
        (1 <= Retry.maxRetries config)%Z ->
        fn 0%nat = Threw (Unknown.NonTextMessage true status rendering) ->
        run = (Threw (Unknown.Plain
                        (Unknown.TypeError
                           "lastError.message.includes is not a function")),
               [Retry.EvCall 0]))
  /\ (forall x f e,
        (1 <= Retry.maxRetries config)%Z ->
        fn 0%nat = Threw (Unknown.Plain x) ->
        Unknown.shouldRetry hooks = Some f ->
        f (Retry.to_Error x) = Threw e ->
        run = (Threw e, [Retry.EvCall 0])).
Proof.
  intros run op. split; [|split; [|split]].
  - intros Hplain Hreturn. subst run. unfold Unknown.retryWithBackoff.
    rewrite (retryWithBackoff_from_plain fn Hplain config hooks Hreturn).
    fold op. fold (Retry.retryWithBackoff op config (Unknown.plain_hooks hooks)).
    destruct (retryWithBackoff_plain_outcome op config (Unknown.plain_hooks hooks))
      as [[Hneg Heq]|(k & Hk & Hpre & Hend)].
    + left. split; [exact Hneg|]. rewrite Heq. reflexivity.
    + right. exists k, (Retry.retryWithBackoff op config (Unknown.plain_hooks hooks)).1.
      split; [exact Hk|]. split; [reflexivity|]. split; [exact Hpre|].
      destruct (Retry.retryWithBackoff op config (Unknown.plain_hooks hooks)).
      exact Hend.
  - intros Hmax Hfn. subst run. unfold Unknown.retryWithBackoff.
    destruct (Z.to_nat (Retry.maxRetries config)) as [|fuel] eqn:Hfuel; [lia|].
    cbn [Unknown.retryWithBackoff_from]. rewrite Hfn. reflexivity.
  - intros status rendering Hmax Hfn. subst run. unfold Unknown.retryWithBackoff.
    destruct (Z.to_nat (Retry.maxRetries config)) as [|fuel] eqn:Hfuel; [lia|].
    cbn [Unknown.retryWithBackoff_from]. rewrite Hfn. reflexivity.
  - intros x f e Hmax Hfn Hf He. subst run. unfold Unknown.retryWithBackoff.
    destruct (Z.to_nat (Retry.maxRetries config)) as [|fuel] eqn:Hfuel; [lia|].
    cbn [Unknown.retryWithBackoff_from]. rewrite Hfn. cbv zeta.
    cbn [Unknown.caught]. unfold Unknown.decide_retry. rewrite Hf, He. reflexivity.
Qed.

End RetryEngines.

(** C3, counterexample. [retryWithBackoff] does not follow the
    classification. A failure with status 503 is classified as retryable,
    yet [retryWithBackoff] (without [shouldRetry]) gives up after the first
    call, since the message does not mention a rate limit; and a failure
    classified as a non-retryable authentication error is retried to the
    last allowed call, since its message contains "429". *)
Lemma retryWithBackoff_does_not_classify :
  let unavailable := Errors.status_message_object 503 "Service unavailable" in
  let denied := Errors.plain_Error "Invalid API key (429)" in
  let run_of := fun x =>
    Unknown.retryWithBackoff (MoreSamples.always_fails x) (Retry.mkRetryConfig 3 500 10000 2)
      MoreSamples.no_hooks in
  Errors.retryable (Errors.classifyError unavailable) = true
  /\ Retry.calls_of (run_of unavailable).2 = [0%nat]
  /\ Retry.delays_of (run_of unavailable).2 = []
  /\ Errors.retryable (Errors.classifyError denied) = false
  /\ Retry.calls_of (run_of denied).2 = [0; 1; 2]%nat
  /\ length (Retry.delays_of (run_of denied).2) = 2%nat.
Proof. vm_compute. repeat split. Qed.

Lemma retry_engines_outcome_witness :
  (exists result,
     (Unknown.withRetry MoreSamples.twice_unavailable Errors.DEFAULT_RETRY_OPTIONS
        MoreSamples.quiet (fun _ => 1 # 2)%Q).1 = Returned result)
  /\ (exists result,
        (Unknown.retryWithBackoff MoreSamples.twice_unavailable Retry.DEFAULT_RETRY_CONFIG
           MoreSamples.no_hooks).1 = Returned result).
Proof.
  assert (forall k e, MoreSamples.twice_unavailable k = Threw e ->
                      Unknown.text_message e = true) as Hplain.
  { intros [|[|k]] e H; cbn in H;
      first [discriminate H|injection H as <-; reflexivity]. }
  assert (Unknown.callbacks_return MoreSamples.no_hooks) as Hreturn.
  { repeat split; intros; discriminate. }
  destruct (retry_engines_outcome MoreSamples.twice_unavailable Hplain) as [Hwith Hback].
  split.
  - destruct (Hwith Errors.DEFAULT_RETRY_OPTIONS MoreSamples.quiet (fun _ => 1 # 2)%Q
                ltac:(reflexivity)) as [[Hneg _]|(k & result & _ & Hres & _)].
    + vm_compute in Hneg. discriminate.
    + exists result. exact Hres.
  - destruct (Hback Retry.DEFAULT_RETRY_CONFIG MoreSamples.no_hooks Hreturn)
      as [[Hneg _]|(k & result & _ & Hres & _)].
    + vm_compute in Hneg. contradiction.
    + exists result. exact Hres.
Defined.

Lemma retryWithBackoff_returns_or_rejects_witness :
  (exists result,
     (Unknown.retryWithBackoff MoreSamples.twice_unavailable Retry.DEFAULT_RETRY_CONFIG
        MoreSamples.no_hooks).1 = Returned result)
  /\ (Unknown.retryWithBackoff
        (fun _ : nat => @Threw Unknown.Value nat Unknown.Unprintable)
        Retry.DEFAULT_RETRY_CONFIG MoreSamples.no_hooks).1
     = Threw (Unknown.Plain
                (Unknown.TypeError "Cannot convert object to primitive value")).
Proof.
  split.
  - destruct (retryWithBackoff_returns_or_rejects MoreSamples.twice_unavailable
                Retry.DEFAULT_RETRY_CONFIG MoreSamples.no_hooks) as [Hplain _].
    destruct Hplain as [[Hneg _]|(k & result & _ & Hres & _)].
    + intros [|[|k]] e H; cbn in H;
        first [discriminate H|injection H as <-; reflexivity].
    + repeat split; intros; discriminate.
    + vm_compute in Hneg. contradiction.
    + exists result. exact Hres.
  - destruct (retryWithBackoff_returns_or_rejects
                (fun _ : nat => @Threw Unknown.Value nat Unknown.Unprintable)
                Retry.DEFAULT_RETRY_CONFIG MoreSamples.no_hooks) as (_ & Hthrow & _).
    rewrite (Hthrow ltac:(vm_compute; discriminate) eq_refl). reflexivity.
Defined.

(** ** The scraper client *)

Section ScraperFacts.
Import Errors Scraper.
Variable cfg : ScraperConfig.
Variable w : World.

(** C10. A request whose URL does not parse is answered at once: the
    response has the content "Invalid URL: <url>", status 400, no credits
    and a non-retryable InvalidInput error, and the trace is empty: no
    network call was made and no retry or sleep was spent. *)
Theorem scrape_invalid_url (request : ScrapeRequest) (maxRetries : Z) :
  url_parses w (url request) = false ->
  scrape cfg w request maxRetries
  = (mkScrapeResponse ("Invalid URL: " +:+ url request) 400 0 None
       (Some (mkStructuredError INVALID_INPUT ("Invalid URL: " +:+ url request) false
                None None)),
     []).
Proof. intros Hurl. unfold scrape. rewrite Hurl. reflexivity. Qed.

Lemma classifyHttpError_retryable_status (status : Z) (msg : string) :
  retryable (classifyHttpError status msg) = true ->
  status = 408%Z \/ status = 429%Z \/ (500 <= status)%Z.
Proof.
  unfold classifyHttpError.
  repeat (case_Zeqb; [cbn; intros; first [discriminate|lia]|]).
  destruct (Z.leb_spec 500 status); cbn; intros; first [discriminate|lia].
Qed.

Lemma classifyError_retryable_status (x : JsThrown) (status : Z) :
  retryable (classifyError x) = true ->
  Errors.statusCode (classifyError x) = Some status ->
  status = 408%Z \/ status = 429%Z \/ (500 <= status)%Z.
Proof.
  destruct x as [| |o]; try discriminate.
  cbn [classifyError]; unfold classifyObject.
  repeat (match goal with
          | |- context [if ?b then _ else _] => destruct b
          | |- context [match ?x with Some _ => _ | None => _ end] => destruct x
          end; try (intros; cbn in *; congruence)).
  all: intros Hr Hs; rewrite classifyHttpError_statusCode in Hs.
  all: injection Hs as <-; eapply classifyHttpError_retryable_status, Hr.
Qed.

Lemma not_permanent_retryable_status (status : Z) :
  status = 408%Z \/ status = 429%Z \/ (500 <= status)%Z ->
  ~ (200 <= status < 300)%Z /\ status <> 404%Z /\ status ∉ PERMANENT_FAILURE_CODES.
Proof.
  intros H. split; [lia|]. split; [lia|].
  unfold PERMANENT_FAILURE_CODES. rewrite !elem_of_cons, elem_of_nil. lia.
Qed.

Lemma has_spec (set : list Z) (x : Z) : has set x = true <-> x ∈ set.
Proof. unfold has. apply bool_decide_eq_true. Qed.

Lemma has_false (set : list Z) (x : Z) : has set x = false <-> x ∉ set.
Proof. unfold has. apply bool_decide_eq_false. Qed.

Lemma ok_spec (status : Z) : ok status = true <-> (200 <= status < 300)%Z.
Proof. unfold ok. rewrite andb_true_iff, !Z.leb_le. lia. Qed.

(** What the retry loop can return: a response without error is a 2xx or
    a 404 one; a response whose error is marked retryable has a status
    that is neither 2xx, nor 404, nor permanent. *)
Lemma scrape_from_result_shape (request : ScrapeRequest) (credits maxRetries : Z)
    (fuel a : nat) (last : option StructuredError) :
  fuel = Z.to_nat (maxRetries - Z.of_nat a) ->
  (fuel = 0%nat -> forall e s, last = Some e -> retryable e = true ->
     Errors.statusCode e = Some s -> s = 408%Z \/ s = 429%Z \/ (500 <= s)%Z) ->
  let r := (scrape_from cfg w request credits maxRetries fuel a last).1 in
  match error r with
  | None => (200 <= statusCode r < 300)%Z \/ statusCode r = 404%Z
  | Some e =>
      retryable e = true ->
      ~ (200 <= statusCode r < 300)%Z /\ statusCode r <> 404%Z
      /\ statusCode r ∉ PERMANENT_FAILURE_CODES
  end.
Proof.
  revert a last. induction fuel as [|fuel IH]; intros a last Hfuel Hlast.
  - cbn. destruct last as [e|]; cbn; [|discriminate].
    intros Hre. specialize (Hlast eq_refl e).
    destruct (Errors.statusCode e) as [s|] eqn:Hs; cbn.
    + specialize (Hlast s eq_refl Hre eq_refl).
      destruct (Z.eqb_spec s 0) as [->|_]; cbn; apply not_permanent_retryable_status; lia.
    + apply not_permanent_retryable_status; lia.
  - assert (forall last', (Z.of_nat a < maxRetries - 1)%Z ->
              let r := (scrape_from cfg w request credits maxRetries fuel (S a) last').1 in
              match error r with
              | None => (200 <= statusCode r < 300)%Z \/ statusCode r = 404%Z
              | Some e =>
                  retryable e = true ->
                  ~ (200 <= statusCode r < 300)%Z /\ statusCode r <> 404%Z
                  /\ statusCode r ∉ PERMANENT_FAILURE_CODES
              end) as Hmore.
    { intros last' Hm. apply IH; [lia|]. intros ->. lia. }
    cbn [scrape_from].
    destruct (net w request a) as [status text hdrs|thrown].
    + destruct (ok status) eqn:Hok.
      { cbn. left. apply ok_spec, Hok. }
      destruct (Z.eqb_spec status 404) as [->|H404].
      { cbn. right. reflexivity. }
      destruct (has PERMANENT_FAILURE_CODES status) eqn:Hperm.
      { cbn. discriminate. }
      assert (~ (200 <= status < 300)%Z) as Hnok.
      { intros H. apply ok_spec in H. congruence. }
      apply has_false in Hperm.
      destruct (has RETRYABLE_STATUS_CODES status && (Z.of_nat a <? maxRetries - 1)%Z)
        eqn:Hretry.
      { apply andb_true_iff in Hretry as [_ Hm]. apply Z.ltb_lt in Hm.
        specialize (Hmore (Some (mkStructuredError
                     (if (status =? 429)%Z then RATE_LIMITED else SERVICE_UNAVAILABLE)
                     ("Server returned " +:+ pretty status) true (Some status) None)) Hm).
        destruct (scrape_from cfg w request credits maxRetries fuel (S a) _) as [r tr].
        exact Hmore. }
      destruct ((Z.of_nat a <? maxRetries - 1)%Z && _) eqn:Hagain.
      { apply andb_true_iff in Hagain as [Hm _]. apply Z.ltb_lt in Hm.
        specialize (Hmore (Some (classifyError
                     (status_message_object status
                        match text with
                        | Returned body => body
                        | Threw readError => "Failed to read response: " +:+ readError
                        end))) Hm).
        destruct (scrape_from cfg w request credits maxRetries fuel (S a) _) as [r tr].
        exact Hmore. }
      cbn. intros _. split; [exact Hnok|]. split; [exact H404|exact Hperm].
    + destruct (retryable (classifyError thrown)) eqn:Hre; cbn [negb].
      * destruct (Z.ltb_spec (Z.of_nat a) (maxRetries - 1)) as [Hm|Hm].
        { specialize (Hmore (Some (classifyError thrown)) Hm).
          destruct (scrape_from cfg w request credits maxRetries fuel (S a) _) as [r tr].
          exact Hmore. }
        specialize (IH (S a) (Some (classifyError thrown))).
        destruct (scrape_from cfg w request credits maxRetries fuel (S a) _) as [r tr].
        apply IH; [lia|].
        intros _ e s [= <-] _ Hs.
        eapply classifyError_retryable_status; eassumption.
      * cbn. rewrite Hre. discriminate.
Qed.

Lemma scrape_result_shape (request : ScrapeRequest) (maxRetries : Z) :
  let r := (scrape cfg w request maxRetries).1 in
  match error r with
  | None => (200 <= statusCode r < 300)%Z \/ statusCode r = 404%Z
  | Some e =>
      retryable e = true ->
      ~ (200 <= statusCode r < 300)%Z /\ statusCode r <> 404%Z
      /\ statusCode r ∉ PERMANENT_FAILURE_CODES
  end.
Proof.
  unfold scrape. destruct (url_parses w (url request)); cbn [negb].
  - apply scrape_from_result_shape; [lia|]. intros _ e s; discriminate.
  - cbn. discriminate.
Qed.

(** A result that does not end the ladder is a non-permanent failure. *)
Lemma advance_non_permanent (request : ScrapeRequest) (maxRetries : Z) :
  stops_ladder (scrape cfg w request maxRetries).1 = false ->
  non_permanent_failure (scrape cfg w request maxRetries).1.
Proof.
  intros Hgo. pose proof (scrape_result_shape request maxRetries) as Hshape.
  cbn zeta in Hshape.
  unfold stops_ladder, is_success, is_non_retryable in Hgo.
  unfold non_permanent_failure.
  destruct (error (scrape cfg w request maxRetries).1) as [e|].
  - apply orb_false_iff in Hgo as [_ Hgo]. apply negb_false_iff in Hgo.
    split; [exists e; split; [reflexivity|exact Hgo]|]. apply Hshape, Hgo.
  - exfalso. apply orb_false_iff in Hgo as [Hgo _].
    apply orb_false_iff in Hgo as [Hs H404].
    rewrite andb_true_r in Hs. apply Z.eqb_neq in H404.
    destruct Hshape as [H2xx|?]; [|contradiction].
    assert ((200 <=? statusCode (scrape cfg w request maxRetries).1)%Z
            && (statusCode (scrape cfg w request maxRetries).1 <? 300)%Z = true).
    { apply andb_true_iff. rewrite Z.leb_le, Z.ltb_lt. lia. }
    congruence.
Qed.

Lemma scrapes_of_scrape_from (request : ScrapeRequest) (credits maxRetries : Z)
    (fuel a : nat) (last : option StructuredError) :
  scrapes_of (scrape_from cfg w request credits maxRetries fuel a last).2 = [].
Proof.
  revert a last. induction fuel as [|fuel IH]; intros a last; [reflexivity|].
  cbn [scrape_from].
  repeat (match goal with
          | |- context [scrape_from cfg w request credits maxRetries fuel ?a' ?l'] =>
              let H := fresh "H" in
              pose proof (IH a' l') as H;
              destruct (scrape_from cfg w request credits maxRetries fuel a' l')
          | |- context [match ?x with Response _ _ _ => _ | Rejected _ => _ end] =>
              destruct x
          | |- context [if ?b then _ else _] => destruct b
          end; cbn [fst snd] in *; try reflexivity; try assumption).
Qed.

Lemma scrapes_of_scrape (request : ScrapeRequest) (maxRetries : Z) :
  scrapes_of (scrape cfg w request maxRetries).2 = [].
Proof.
  unfold scrape. destruct (negb _); [reflexivity|apply scrapes_of_scrape_from].
Qed.

(** One iteration of the loop of [scrapeWithFallback]. *)
Lemma fallback_loop_cons (url : string) (timeout : option Z) (attempt : FallbackAttempt)
    (later : list FallbackAttempt) (notes : list string) (last : option ScrapeResponse) :
  let request := fallback_request url timeout attempt in
  let run := scrape cfg w request (RETRY_COUNT cfg) in
  fallback_loop cfg w url timeout (attempt :: later) notes last
  = if stops_ladder run.1 then (run.1, EvScrape request :: run.2)
    else
      let next :=
        fallback_loop cfg w url timeout later (notes ++ [failure_note attempt run.1])
          (Some run.1) in
      (next.1, EvScrape request :: run.2 ++ next.2).
Proof.
  cbn [fallback_loop]. cbn zeta.
  destruct (scrape cfg w (fallback_request url timeout attempt) (RETRY_COUNT cfg))
    as [result trace].
  cbn [fst snd]. unfold stops_ladder.
  destruct (is_success result); [reflexivity|].
  destruct (statusCode result =? 404)%Z; [reflexivity|].
  destruct (is_non_retryable result); [reflexivity|].
  cbn [orb]. destruct (fallback_loop cfg w url timeout later _ _). reflexivity.
Qed.

(** The loop tries a prefix of its attempts, goes on exactly past the
    results that do not end the ladder, and returns the result that does. *)
Lemma fallback_loop_trace (url : string) (timeout : option Z)
    (attempts : list FallbackAttempt) (notes : list string)
    (last : option ScrapeResponse) :
  let run := fallback_loop cfg w url timeout attempts notes last in
  let requests := map (fallback_request url timeout) attempts in
  let result_of := fun request => (scrape cfg w request (RETRY_COUNT cfg)).1 in
  exists n,
    (n <= length attempts)%nat
    /\ (attempts <> [] -> 1 <= n)%nat
    /\ scrapes_of run.2 = take n requests
    /\ (forall i request, (S i < n)%nat -> requests !! i = Some request ->
          stops_ladder (result_of request) = false)
    /\ (forall i request, S i = n -> requests !! i = Some request ->
          stops_ladder (result_of request) = true -> run.1 = result_of request).
Proof.
  revert notes last. induction attempts as [|attempt later IH]; intros notes last.
  - exists 0%nat. cbn. split; [lia|]. split; [congruence|]. split; [reflexivity|].
    split; intros; lia.
  - cbn zeta. rewrite fallback_loop_cons. cbn zeta.
    destruct (stops_ladder (scrape cfg w (fallback_request url timeout attempt)
                              (RETRY_COUNT cfg)).1) eqn:Hstop.
    + exists 1%nat. cbn [fst snd length map].
      split; [lia|]. split; [lia|]. split.
      * cbn. rewrite scrapes_of_scrape. reflexivity.
      * split; [intros; lia|].
        intros i request [= ->] [= <-] _. reflexivity.
    + destruct (IH (notes ++ [failure_note attempt
                      (scrape cfg w (fallback_request url timeout attempt)
                         (RETRY_COUNT cfg)).1])
                  (Some (scrape cfg w (fallback_request url timeout attempt)
                           (RETRY_COUNT cfg)).1))
        as (n & Hn & _ & Htr & Hgo & Hend).
      exists (S n). cbn [fst snd length map].
      split; [lia|]. split; [lia|]. split.
      * cbn. unfold scrapes_of in *. rewrite omap_app.
        fold (scrapes_of (scrape cfg w (fallback_request url timeout attempt)
                            (RETRY_COUNT cfg)).2).
        rewrite scrapes_of_scrape. cbn. f_equal. exact Htr.
      * split.
        -- intros [|i] request Hi Hreq.
           ++ injection Hreq as <-. exact Hstop.
           ++ apply (Hgo i); [lia|exact Hreq].
        -- intros [|i] request Hi Hreq Hs.
           ++ injection Hreq as <-. congruence.
           ++ apply (Hend i request); [lia|exact Hreq|exact Hs].
Qed.

(** A result of [scrape] with a 2xx, 404 or permanent status ends the
    ladder. *)
Lemma terminal_status_stops (request : ScrapeRequest) (maxRetries : Z) :
  let r := (scrape cfg w request maxRetries).1 in
  (200 <= statusCode r < 300)%Z \/ statusCode r = 404%Z
  \/ statusCode r ∈ PERMANENT_FAILURE_CODES ->
  stops_ladder r = true.
Proof.
  intros r Hstatus. pose proof (scrape_result_shape request maxRetries) as Hshape.
  cbn zeta in Hshape. fold r in Hshape.
  unfold stops_ladder, is_success, is_non_retryable.
  destruct (Z.eqb_spec (statusCode r) 404) as [|H404]; [apply orb_true_iff; left; apply orb_true_r|].
  destruct (error r) as [e|].
  - destruct (retryable e); [|apply orb_true_r].
    destruct (Hshape eq_refl) as (H2xx & _ & Hperm).
    destruct Hstatus as [?|[?|?]]; contradiction.
  - destruct Hshape as [H2xx|?]; [|contradiction].
    apply orb_true_iff; left. apply orb_true_iff; left.
    rewrite andb_true_r. apply andb_true_iff. rewrite Z.leb_le, Z.ltb_lt. lia.
Qed.

(** A 2xx, 404 or permanent reply ends the retry loop on the spot. *)
Lemma scrape_from_terminal_reply (request : ScrapeRequest) (credits maxRetries : Z)
    (fuel a : nat) (last : option StructuredError) (status : Z)
    (text : Outcome string string) (hdrs : list (string * string)) :
  net w request a = Response status text hdrs ->
  (200 <= status < 300)%Z \/ status = 404%Z \/ status ∈ PERMANENT_FAILURE_CODES ->
  let out := scrape_from cfg w request credits maxRetries (S fuel) a last in
  out.2 = [EvFetch request a]
  /\ statusCode out.1 = status
  /\ stops_ladder out.1 = true
  /\ (status ∈ PERMANENT_FAILURE_CODES ->
      exists e, error out.1 = Some e /\ retryable e = false
                /\ code e = if (status =? 401)%Z then AUTH_ERROR else INVALID_INPUT).
Proof.
  intros Hnet Hstatus. cbn [scrape_from]. rewrite Hnet.
  destruct (ok status) eqn:Hok.
  { cbn. split; [reflexivity|]. split; [reflexivity|]. split.
    - unfold stops_ladder, is_success. cbn.
      apply ok_spec in Hok. apply orb_true_iff; left. apply orb_true_iff; left.
      rewrite andb_true_r. apply andb_true_iff. rewrite Z.leb_le, Z.ltb_lt. lia.
    - apply ok_spec in Hok. unfold PERMANENT_FAILURE_CODES.
      rewrite !elem_of_cons, elem_of_nil. lia. }
  assert (~ (200 <= status < 300)%Z) as Hnok.
  { intros H. apply ok_spec in H. congruence. }
  destruct (Z.eqb_spec status 404) as [->|H404].
  { cbn. split; [reflexivity|]. split; [reflexivity|]. split; [reflexivity|].
    unfold PERMANENT_FAILURE_CODES. rewrite !elem_of_cons, elem_of_nil. lia. }
  destruct Hstatus as [?|[?|Hperm]]; [contradiction|contradiction|].
  pose proof (proj2 (has_spec _ _) Hperm) as ->.
  cbn. split; [reflexivity|]. split; [reflexivity|]. split.
  - unfold stops_ladder, is_non_retryable. cbn. apply orb_true_r.
  - intros _. eexists. split; [reflexivity|]. split; reflexivity.
Qed.

(** [scrapeWithFallback] hands to [scrape] a non-empty prefix of the
    ladder basic, javascript, javascript with geo-targeting, in that
    order. A request whose result ends the ladder (a 2xx success, a 404,
    or an error that is not retryable) is the last one tried, and its
    result is returned. A request is followed by the next one only when
    its result is a non-permanent failure. And in the retry loop of
    [scrape], a reply with a 2xx status, with 404, or with one of 400, 401,
    403 is returned on the spot, without further network call, as a result
    that ends the ladder; for 400, 401 and 403 the error is marked
    non-retryable, with kind Auth for 401. Every result of [scrape] whose
    status is 2xx, 404, 400, 401 or 403 ends the ladder. *)
Lemma fallback_ladder_prefix (url : string) (timeout : option Z) :
  let run := scrapeWithFallback cfg w url timeout in
  let tried := scrapes_of run.2 in
  let result_of := fun request => (scrape cfg w request (RETRY_COUNT cfg)).1 in
  (exists n, (1 <= n <= 3)%nat /\ tried = take n (ladder url timeout))
  /\ (forall i request, tried !! i = Some request ->
        stops_ladder (result_of request) = true ->
        tried !! S i = None /\ run.1 = result_of request)
  /\ (forall i request, tried !! i = Some request -> is_Some (tried !! S i) ->
        non_permanent_failure (result_of request))
  /\ (forall request,
        (200 <= statusCode (result_of request) < 300)%Z
        \/ statusCode (result_of request) = 404%Z
        \/ statusCode (result_of request) ∈ PERMANENT_FAILURE_CODES ->
        stops_ladder (result_of request) = true)
  /\ (forall request credits maxRetries fuel a last status text hdrs,
        net w request a = Response status text hdrs ->
        (200 <= status < 300)%Z \/ status = 404%Z \/ status ∈ PERMANENT_FAILURE_CODES ->
        let out := scrape_from cfg w request credits maxRetries (S fuel) a last in
        out.2 = [EvFetch request a]
        /\ statusCode out.1 = status
        /\ stops_ladder out.1 = true
        /\ (status ∈ PERMANENT_FAILURE_CODES ->
            exists e, error out.1 = Some e /\ retryable e = false
                      /\ code e = if (status =? 401)%Z then AUTH_ERROR else INVALID_INPUT)).
Proof.
  intros run tried result_of. subst result_of. cbn beta.
  destruct (fallback_loop_trace url timeout fallback_attempts [] None)
    as (n & Hn & Hn1 & Htr & Hgo & Hend).
  fold (ladder url timeout) in Htr, Hgo, Hend.
  fold (scrapeWithFallback cfg w url timeout) in Htr, Hend. fold run in Htr, Hend.
  fold tried in Htr.
  assert (1 <= n <= 3)%nat as Hrange.
  { split; [apply Hn1; discriminate|exact Hn]. }
  assert (forall i request, tried !! i = Some request ->
            (i < n)%nat /\ ladder url timeout !! i = Some request) as Hin.
  { intros i request Hi. rewrite Htr in Hi. apply lookup_take_Some in Hi. tauto. }
  split; [exists n; split; [exact Hrange|exact Htr]|].
  split; [|split; [|split; [intros request; apply terminal_status_stops|]]].
  - intros i request Hi Hstop. apply Hin in Hi as [Hlt Hreq].
    destruct (decide (S i = n)) as [Hlast|Hne].
    + split; [|apply (Hend i request Hlast Hreq Hstop)].
      rewrite Htr. apply lookup_ge_None. rewrite length_take. lia.
    + rewrite (Hgo i request) in Hstop; [discriminate|lia|exact Hreq].
  - intros i request Hi [next Hnext]. apply Hin in Hi as [_ Hreq].
    apply Hin in Hnext as [Hlt _].
    apply advance_non_permanent. apply (Hgo i request Hlt Hreq).
  - intros request credits maxRetries fuel a last status text hdrs.
    apply scrape_from_terminal_reply.
Qed.

End ScraperFacts.

(** The invalid-URL answer at a concrete request: with a parser that
    accepts only strings starting with "http", the request for
    "not a url" is answered without network call. *)
Lemma scrape_invalid_url_witness :
  let w := Scraper.mkWorld (String.prefix "http")
             (fun _ _ => Scraper.Response 200 (Returned "<html></html>") []) (fun _ _ => 0%Q) in
  let cfg := Scraper.mkScraperConfig 3 [2000; 4000; 8000]%Z 30 in
  let request := Scraper.mkScrapeRequest "not a url" None None None in
  Scraper.url_parses w (Scraper.url request) = false
  /\ (Scraper.scrape cfg w request 3).2 = []
  /\ Scraper.statusCode (Scraper.scrape cfg w request 3).1 = 400%Z.
Proof.
  intros w cfg request.
  assert (Scraper.url_parses w (Scraper.url request) = false) as H by reflexivity.
  split; [exact H|].
  rewrite (scrape_invalid_url cfg w request 3 H). split; reflexivity.
Defined.

(** ** The tool registry and its dispatcher *)

Section RegistryFacts.
Import Errors Registry.
Variable imports : Imports.

Lemma toolRegistry_lookup (name : string) (tool : ToolRegistration) :
  toolRegistry imports !! name = Some tool ->
  (name, tool) ∈ toolRegistry_entries imports.
Proof. apply elem_of_list_to_map_2. Qed.

(** Every entry of the registry is filed under its own name, requires a
    capability and has no post-validation hook. *)
Lemma toolRegistry_entry (name : string) (tool : ToolRegistration) :
  toolRegistry imports !! name = Some tool ->
  Registry.name tool = name /\ is_Some (capability tool) /\ postValidate tool = None.
Proof.
  intros H. apply toolRegistry_lookup in H. unfold toolRegistry_entries in H.
  rewrite !elem_of_cons, elem_of_nil in H.
  destruct H as [H|[H|[H|[H|[H|[]]]]]]; injection H as -> ->; cbn; eauto.
Qed.

Lemma registered_names_lookup (name : string) :
  name ∈ registered_names imports <-> is_Some (toolRegistry imports !! name).
Proof.
  unfold registered_names, toolRegistry. split.
  - intros H. apply list_elem_of_fmap in H as ([k tool] & -> & Hin).
    exists tool. apply elem_of_list_to_map_1; [|exact Hin].
    cbn. repeat constructor; rewrite ?elem_of_cons, ?elem_of_nil; intuition congruence.
  - intros [tool H]. apply elem_of_list_to_map_2 in H.
    apply list_elem_of_fmap. exists (name, tool). split; [reflexivity|exact H].
Qed.

(** C9. A registered tool whose required capability is disabled answers
    every call with the missing-environment-variable message of that
    capability, flagged as an error. The trace of the call is empty:
    neither the schema validation nor the handler, the only code that
    reaches the providers, has been run; and the answer is the same
    whatever the schemas and handlers are. *)
Theorem executeTool_capability_gate (name : string) (tool : ToolRegistration)
    (key : CapabilityKey) (args : JsValue) (capabilities : Capabilities) :
  toolRegistry imports !! name = Some tool ->
  capability tool = Some key ->
  capability_enabled capabilities key = false ->
  executeTool imports name args capabilities
  = (Returned (mkCallToolResult [mkText (getMissingEnvMessage imports key)] (Some true)), [])
  /\ handler_calls (executeTool imports name args capabilities).2 = []
  /\ forall imports' : Imports,
       getMissingEnvMessage imports' = getMissingEnvMessage imports ->
       executeTool imports' name args capabilities
       = executeTool imports name args capabilities.
Proof.
  intros Htool Hcap Hoff.
  assert (forall imports0 tool0,
            toolRegistry imports0 !! name = Some tool0 -> capability tool0 = Some key ->
            executeTool imports0 name args capabilities
            = (Returned (mkCallToolResult [mkText (getMissingEnvMessage imports0 key)]
                           (Some true)), [])) as Hgate.
  { intros imports0 tool0 H0 Hc0. unfold executeTool, lookup_tool. rewrite H0.
    unfold execute_registered. rewrite Hc0, Hoff. reflexivity. }
  rewrite (Hgate imports tool Htool Hcap).
  split; [reflexivity|]. split; [reflexivity|].
  intros imports' Hmsg.
  assert (exists tool', toolRegistry imports' !! name = Some tool'
                        /\ capability tool' = capability tool) as (tool' & Htool' & Hcap').
  { apply toolRegistry_lookup in Htool. unfold toolRegistry_entries in Htool.
    rewrite !elem_of_cons, elem_of_nil in Htool.
    destruct Htool as [H|[H|[H|[H|[H|[]]]]]]; injection H as -> ->;
      eexists; (split; [vm_compute; reflexivity|reflexivity]). }
  rewrite (Hgate imports' tool' Htool'), Hmsg; [reflexivity|congruence].
Qed.

(** A [catch] clause returns a result or lets through the exception of
    the classifier, which is a plain value. *)
Lemma classified_outcome (error : Unknown.Value) :
  match classified imports error with
  | Returned _ => True
  | Threw e => exists x, e = ExnOther (Unknown.Plain x)
  end.
Proof.
  unfold classified. destruct (Unknown.classifyError error) as [structured|x];
    [exact I|exists x; reflexivity].
Qed.

Lemma classified_plain (x : JsThrown) :
  classified imports (Unknown.Plain x)
  = Returned (createToolErrorFromStructured imports (classifyError x)).
Proof. reflexivity. Qed.

(** Past the lookup, [executeTool] returns a result, or lets through what
    a post-validation hook throws or the exception, a plain value, of the
    classifier in one of its [catch] clauses; it raises no protocol
    error. *)
Lemma execute_registered_outcome (tool : ToolRegistration) (args : JsValue)
    (capabilities : Capabilities) :
  match (execute_registered imports tool args capabilities).1 with
  | Returned _ => True
  | Threw (ExnOther e) => is_Some (postValidate tool) \/ exists x, e = Unknown.Plain x
  | Threw (ExnMcp _) => False
  end.
Proof.
  assert (forall (error : Unknown.Value) (trace : list Effect),
            match (classified imports error, trace).1 with
            | Returned _ => True
            | Threw (ExnOther e) =>
                is_Some (postValidate tool) \/ exists x, e = Unknown.Plain x
            | Threw (ExnMcp _) => False
            end) as Hcatch.
  { intros error trace. cbn [fst]. pose proof (classified_outcome error) as H.
    destruct (classified imports error) as [result|e]; [exact I|].
    destruct H as [x ->]. right. exists x. reflexivity. }
  unfold execute_registered.
  destruct (match capability tool with
            | Some key => if capability_enabled capabilities key then None else Some key
            | None => None
            end); [exact I|].
  destruct (schema tool args) as [validated|issues|e]; [|exact I|apply Hcatch].
  assert (match (let '(result, trace) := run_handler imports tool validated in
                 (result, EvValidate (name tool) :: trace)).1 with
          | Returned _ => True
          | Threw (ExnOther e) =>
              is_Some (postValidate tool) \/ exists x, e = Unknown.Plain x
          | Threw (ExnMcp _) => False
          end) as Hrun.
  { unfold run_handler. destruct (handler tool validated) as [body|error]; [exact I|].
    apply (Hcatch error []). }
  unfold post_validate_then_run.
  destruct (postValidate tool) as [check|]; [|exact Hrun].
  destruct (check validated) as [postError|e]; [|cbn; left; eexists; reflexivity].
  destruct (String.eqb (default "" postError) ""); [|exact I].
  unfold run_handler in *. destruct (handler tool validated) as [body|error]; [exact I|].
  apply (Hcatch error []).
Qed.

(** The request handler on a name of the registry: whatever
    [executeTool] lets through there is caught and formatted. *)
Lemma handleCallTool_registered (name : string) (tool : ToolRegistration)
    (args : JsValue) (capabilities : Capabilities) :
  toolRegistry imports !! name = Some tool ->
  exists result, (handleCallTool imports name args capabilities).1 = Returned result.
Proof.
  intros Htool. destruct (toolRegistry_entry name tool Htool) as (_ & _ & Hpost).
  pose proof (execute_registered_outcome tool args capabilities) as Hout.
  unfold handleCallTool, executeTool, lookup_tool. rewrite Htool.
  destruct (execute_registered imports tool args capabilities) as [[result|[e|e]] trace];
    cbn [fst snd] in *.
  - exists result. reflexivity.
  - contradiction.
  - destruct Hout as [Hout|[x ->]]; [rewrite Hpost in Hout; destruct Hout as [? [=]]|].
    rewrite classified_plain. eexists. reflexivity.
Qed.

(** C1, as amended. For a registered tool name and any arguments the
    request handler of index.ts returns a result and raises nothing.
    [executeTool] itself returns that result whenever what the schema or
    the handler of the tool throws is a value whose message is missing or
    a string and that [String] can render; when the handler throws such a
    value, it is classified and returned as a result whose error flag is
    set. For an arbitrary name the request handler either returns a result
    or rejects with the protocol error MethodNotFound, the latter exactly
    when the registry has no property of that name. *)
Theorem executeTool_outcome (name : string) (args : JsValue) (capabilities : Capabilities) :
  (name ∈ registered_names imports ->
   exists result, (handleCallTool imports name args capabilities).1 = Returned result)
  /\ (forall tool,
        toolRegistry imports !! name = Some tool ->
        (forall e, schema tool args = ParseThrew e -> Unknown.text_message e = true) ->
        (forall validated e, schema tool args = Parsed validated ->
                             handler tool validated = Threw e ->
                             Unknown.text_message e = true) ->
        exists result,
          (executeTool imports name args capabilities).1 = Returned result
          /\ (handleCallTool imports name args capabilities).1 = Returned result)
  /\ (forall tool validated x,
        toolRegistry imports !! name = Some tool ->
        (forall key, capability tool = Some key ->
                     capability_enabled capabilities key = true) ->
        schema tool args = Parsed validated ->
        handler tool validated = Threw (Unknown.Plain x) ->
        executeTool imports name args capabilities
        = (Returned (createToolErrorFromStructured imports (classifyError x)),
           [EvValidate name; EvHandler name validated])
        /\ isError (createToolErrorFromStructured imports (classifyError x)) = Some true)
  /\ match (handleCallTool imports name args capabilities).1 with
     | Returned _ => lookup_tool imports name <> Absent
     | Threw e =>
         exists msg, e = ExnMcp (mkMcpError MethodNotFound msg)
                     /\ lookup_tool imports name = Absent
     end.
Proof.
  split; [|split; [|split]].
  - intros Hname. apply registered_names_lookup in Hname as [tool Htool].
    apply (handleCallTool_registered name tool args capabilities Htool).
  - intros tool Htool Hparse Hthrow.
    destruct (toolRegistry_entry name tool Htool) as (_ & _ & Hpost).
    assert (exists result,
              (execute_registered imports tool args capabilities).1 = Returned result)
      as [result Hres].
    { unfold execute_registered.
      destruct (match capability tool with
                | Some key =>
                    if capability_enabled capabilities key then None else Some key
                | None => None
                end); [eexists; reflexivity|].
      destruct (schema tool args) as [validated|issues|e] eqn:Hschema.
      - unfold post_validate_then_run, run_handler. rewrite Hpost.
        destruct (handler tool validated) as [body|e] eqn:Hrun;
          [eexists; reflexivity|].
        specialize (Hthrow validated e eq_refl Hrun).
        destruct e as [x| |]; try discriminate. eexists. reflexivity.
      - eexists. reflexivity.
      - specialize (Hparse e eq_refl).
        destruct e as [x| |]; try discriminate. eexists. reflexivity. }
    exists result. unfold handleCallTool, executeTool, lookup_tool. rewrite Htool.
    destruct (execute_registered imports tool args capabilities) as [out trace].
    cbn [fst] in Hres. subst out. split; reflexivity.
  - intros tool validated x Htool Hcap Hparse Hthrow.
    destruct (toolRegistry_entry name tool Htool) as (Hname & _ & Hpost).
    split; [|reflexivity].
    unfold executeTool, lookup_tool. rewrite Htool.
    unfold execute_registered.
    assert (match capability tool with
            | Some key => if capability_enabled capabilities key then None else Some key
            | None => None
            end = None) as ->.
    { destruct (capability tool) as [key|]; [|reflexivity].
      rewrite (Hcap key eq_refl). reflexivity. }
    rewrite Hparse. unfold post_validate_then_run, run_handler.
    rewrite Hpost, Hthrow, Hname. reflexivity.
  - unfold handleCallTool, executeTool.
    destruct (lookup_tool imports name) as [tool| |] eqn:Hlookup.
    + assert (toolRegistry imports !! name = Some tool) as Htool.
      { unfold lookup_tool in Hlookup.
        destruct (toolRegistry imports !! name) as [tool'|];
          [congruence|destruct (bool_decide _); discriminate]. }
      destruct (handleCallTool_registered name tool args capabilities Htool)
        as [result Hres].
      unfold handleCallTool, executeTool in Hres. rewrite Hlookup in Hres.
      rewrite Hres. discriminate.
    + cbn. discriminate.
    + cbn. eexists. split; reflexivity.
Qed.

(** When the handler of a registered tool throws an object whose message
    is not a string, the classifier throws in the [catch] clause of step 4
    and [executeTool] rejects with that [TypeError]; the request handler
    catches it and returns its classification. *)
Lemma executeTool_rejects_when_classifier_throws (name : string) (tool : ToolRegistration)
    (args validated : JsValue) (capabilities : Capabilities) (isError : bool)
    (status : option Z) (rendering : string) :
  toolRegistry imports !! name = Some tool ->
  (forall key, capability tool = Some key -> capability_enabled capabilities key = true) ->
  schema tool args = Parsed validated ->
  handler tool validated = Threw (Unknown.NonTextMessage isError status rendering) ->
  let e := Unknown.TypeError "message.toLowerCase is not a function" in
  (executeTool imports name args capabilities).1 = Threw (ExnOther (Unknown.Plain e))
  /\ (handleCallTool imports name args capabilities).1
     = Returned (createToolErrorFromStructured imports (classifyError e)).
Proof.
  intros Htool Hcap Hparse Hthrow e.
  destruct (toolRegistry_entry name tool Htool) as (Hname & _ & Hpost).
  assert ((executeTool imports name args capabilities).1
          = Threw (ExnOther (Unknown.Plain e))) as Hexec.
  { unfold executeTool, lookup_tool. rewrite Htool. unfold execute_registered.
    assert (match capability tool with
            | Some key => if capability_enabled capabilities key then None else Some key
            | None => None
            end = None) as ->.
    { destruct (capability tool) as [key|]; [|reflexivity].
      rewrite (Hcap key eq_refl). reflexivity. }
    rewrite Hparse. unfold post_validate_then_run, run_handler.
    rewrite Hpost, Hthrow. reflexivity. }
  split; [exact Hexec|].
  unfold handleCallTool.
  destruct (executeTool imports name args capabilities) as [out trace].
  cbn [fst] in Hexec. subst out. reflexivity.
Qed.

End RegistryFacts.

(** C1, counterexample. For a name that the registry does not have,
    [executeTool] raises the protocol error MethodNotFound, and the request
    handler of index.ts rethrows it: no result is returned. *)
Lemma executeTool_unknown_name_raises :
  (Registry.executeTool Samples.accepting_imports "no_such_tool" Registry.VNull
     Samples.all_enabled).1
  = Threw (Registry.ExnMcp
             (Registry.mkMcpError Registry.MethodNotFound
                ("Method not found: no_such_tool. Available tools: "
                 +:+ "search_reddit, get_reddit_post, deep_research, scrape_links, web_search")))
  /\ (forall result,
        (Registry.handleCallTool Samples.accepting_imports "no_such_tool" Registry.VNull
           Samples.all_enabled).1 <> Returned result).
Proof. split; [vm_compute; reflexivity|]. intros result. vm_compute. discriminate. Qed.

Lemma executeTool_outcome_witness :
  "web_search" ∈ Registry.registered_names Samples.throwing_imports
  /\ (exists result,
        (Registry.executeTool Samples.throwing_imports "web_search" Registry.VNull
           Samples.all_enabled).1 = Returned result
        /\ (Registry.handleCallTool Samples.throwing_imports "web_search" Registry.VNull
              Samples.all_enabled).1 = Returned result
        /\ Registry.isError result = Some true).
Proof.
  assert ("web_search" ∈ Registry.registered_names Samples.throwing_imports) as Hin.
  { unfold Registry.registered_names, Registry.toolRegistry_entries. cbn.
    rewrite !elem_of_cons. tauto. }
  split; [exact Hin|].
  destruct (executeTool_outcome Samples.throwing_imports "web_search" Registry.VNull
              Samples.all_enabled) as (_ & Hplain & Hthrow & _).
  destruct (Hplain _ ltac:(vm_compute; reflexivity)
              ltac:(intros e; discriminate)
              ltac:(intros validated e _ [= <-]; reflexivity))
    as (result & Hexec & Hhandle).
  exists result. split; [exact Hexec|]. split; [exact Hhandle|].
  rewrite (proj1 (Hthrow _ Registry.VNull (Errors.plain_Error "boom")
                    ltac:(vm_compute; reflexivity)
                    ltac:(intros key [= <-]; reflexivity)
                    eq_refl eq_refl)) in Hexec.
  cbn [fst] in Hexec. injection Hexec as <-. reflexivity.
Defined.

Lemma executeTool_capability_gate_witness :
  (Registry.executeTool Samples.accepting_imports "scrape_links" Registry.VNull
     Samples.none_enabled)
  = (Returned (Registry.mkCallToolResult
                 [Registry.mkText "missing environment variable"] (Some true)), []).
Proof.
  refine (proj1 (executeTool_capability_gate Samples.accepting_imports "scrape_links" _
                   Registry.scraping Registry.VNull Samples.none_enabled _ _ _)).
  - vm_compute. reflexivity.
  - reflexivity.
  - reflexivity.
Defined.

(** ** The Reddit comment listing *)

Section SortFacts.
Import Reddit.
Context {A : Type} (key : A -> Z).

Lemma insert_desc_perm (x : A) (l : list A) :
  Permutation (insert_desc key x l) (x :: l).
Proof.
  induction l as [|y l IH]; cbn; [reflexivity|].
  destruct (key y <=? key x)%Z; [reflexivity|].
  rewrite IH. apply perm_swap.
Qed.

Lemma sort_desc_perm (l : list A) : Permutation (sort_desc key l) l.
Proof.
  induction l as [|x l IH]; cbn; [reflexivity|].
  fold (sort_desc key l). rewrite insert_desc_perm, IH. reflexivity.
Qed.

Lemma insert_desc_sorted (x : A) (l : list A) :
  StronglySorted (descending key) l -> StronglySorted (descending key) (insert_desc key x l).
Proof.
  induction 1 as [|y l Hl IH Hy]; cbn.
  - repeat constructor.
  - destruct (Z.leb_spec (key y) (key x)) as [Hle|Hgt].
    + constructor; [constructor; assumption|].
      constructor; [exact Hle|].
      eapply Forall_impl; [exact Hy|]. intros z Hz. unfold descending in *. lia.
    + constructor; [exact IH|].
      rewrite (insert_desc_perm x l). constructor; [unfold descending; lia|exact Hy].
Qed.

Lemma sort_desc_sorted (l : list A) : StronglySorted (descending key) (sort_desc key l).
Proof.
  induction l as [|x l IH]; cbn; [constructor|].
  apply insert_desc_sorted, IH.
Qed.

End SortFacts.

Section SortMap.
Import Reddit.
Context {A B : Type} (keyA : A -> Z) (keyB : B -> Z) (f : A -> B).
Hypothesis key_f : forall x, keyB (f x) = keyA x.

Lemma insert_desc_map (x : A) (l : list A) :
  insert_desc keyB (f x) (map f l) = map f (insert_desc keyA x l).
Proof.
  induction l as [|y l IH]; cbn; [reflexivity|].
  rewrite !key_f. destruct (keyA y <=? keyA x)%Z; [reflexivity|].
  cbn. rewrite IH. reflexivity.
Qed.

Lemma sort_desc_map (l : list A) :
  sort_desc keyB (map f l) = map f (sort_desc keyA l).
Proof.
  induction l as [|x l IH]; cbn; [reflexivity|].
  fold (sort_desc keyB (map f l)). fold (sort_desc keyA l).
  rewrite IH. apply insert_desc_map.
Qed.

End SortMap.

Section RedditFacts.
Import Reddit.
Variable postAuthor : string.

(** Induction on comment trees. *)
Lemma Thing_forest_ind (P : Thing -> Prop) :
  (forall k a b s replies, Forall P replies -> P (mkThing k a b s replies)) ->
  forall c, P c.
Proof.
  intros H.
  exact (fix IH (c : Thing) : P c :=
           match c with
           | mkThing k a b s replies =>
               H k a b s replies
                 ((fix go (l : list Thing) : Forall P l :=
                     match l with
                     | [] => List.Forall_nil P
                     | x :: l' => @List.Forall_cons _ P x l' (IH x) (go l')
                     end) replies)
           end).
Qed.

Lemma height_le_forest (c : Thing) (children : list Thing) :
  c ∈ children -> (height c <= forest_height children)%nat.
Proof.
  unfold forest_height. induction 1 as [c l|c y l _ IH]; cbn; lia.
Qed.

Lemma height_replies (c : Thing) : height c = S (forest_height (thing_replies c)).
Proof. destruct c. reflexivity. Qed.

Lemma skipped_sort_tree (c : Thing) : skipped (sort_tree c) = skipped c.
Proof. destruct c. reflexivity. Qed.

Lemma thing_score_sort_tree (c : Thing) : thing_score (sort_tree c) = thing_score c.
Proof. destruct c. reflexivity. Qed.

Lemma preorder_sort_tree (d : nat) (c : Thing) :
  preorder postAuthor d (sort_tree c)
  = if skipped c then []
    else comment_of postAuthor d c
           :: preorder_forest postAuthor (S d) (sort_forest (thing_replies c)).
Proof. destruct c. reflexivity. Qed.

(** The full listing of a forest: its trees in descending order of score,
    each followed by the listing of its replies. *)
Lemma preorder_sort_forest (d : nat) (children : list Thing) :
  preorder_forest postAuthor d (sort_forest children)
  = concat (map (fun c => preorder postAuthor d (sort_tree c))
              (sort_desc thing_score children)).
Proof.
  unfold preorder_forest, sort_forest.
  rewrite (sort_desc_map thing_score thing_score sort_tree thing_score_sort_tree).
  rewrite map_map. reflexivity.
Qed.

(** The number of comments after which the listing is full: the least
    whole number that is not below [maxComments], and none below zero. *)
Lemma full_spec (maxComments : Q) (comments : list Comment) :
  full maxComments comments = true
  <-> (Z.to_nat (Qceiling maxComments) <= length comments)%nat.
Proof.
  unfold full. rewrite Qle_bool_iff. split.
  - intros Hle. apply Qceiling_resp_le in Hle. rewrite Qceiling_Z in Hle. lia.
  - intros Hle. apply Qle_trans with (inject_Z (Qceiling maxComments));
      [apply Qle_ceiling|].
    rewrite <- Zle_Qle. lia.
Qed.

Lemma full_false (maxComments : Q) (comments : list Comment) :
  full maxComments comments = false
  <-> (length comments < Z.to_nat (Qceiling maxComments))%nat.
Proof.
  pose proof (full_spec maxComments comments) as H.
  destruct (full maxComments comments); split; intros H'; try discriminate.
  - assert (Z.to_nat (Qceiling maxComments) <= length comments)%nat
      by (apply H; reflexivity).
    lia.
  - destruct (Nat.le_gt_cases (Z.to_nat (Qceiling maxComments)) (length comments))
      as [Hle|Hgt]; [|exact Hgt].
    apply H in Hle. discriminate.
  - reflexivity.
Qed.

Lemma ceiling_of_nat (m : nat) : Z.to_nat (Qceiling (inject_Z (Z.of_nat m))) = m.
Proof. rewrite Qceiling_Z. apply Nat2Z.id. Qed.

(** The loop appends to [comments] the listing of [sorted], cut when the
    requested count is reached, provided that the recursive call does so
    for the replies. *)
Lemma extract_loop_flat (maxComments : Q)
    (recurse : list Thing -> nat -> list Comment -> list Comment)
    (sorted : list Thing) (d : nat) :
  let m := Z.to_nat (Qceiling maxComments) in
  (forall c, c ∈ sorted -> forall acc,
     recurse (thing_replies c) (S d) acc
     = acc ++ take (m - length acc)
                (preorder_forest postAuthor (S d) (sort_forest (thing_replies c)))) ->
  forall acc,
    extract_loop maxComments postAuthor recurse sorted d acc
    = acc ++ take (m - length acc)
               (concat (map (fun c => preorder postAuthor d (sort_tree c)) sorted)).
Proof.
  intros m. induction sorted as [|c rest IH]; intros Hrec acc.
  - cbn. rewrite take_nil, app_nil_r. reflexivity.
  - cbn [extract_loop map concat].
    destruct (full maxComments acc) eqn:Hfull.
    { apply full_spec in Hfull. fold m in Hfull.
      replace (m - length acc)%nat with 0%nat by lia.
      rewrite take_0, app_nil_r. reflexivity. }
    apply full_false in Hfull. fold m in Hfull. rewrite preorder_sort_tree.
    destruct (skipped c).
    { cbn [app]. apply IH. intros c' Hc'. apply Hrec. right. exact Hc'. }
    set (cm := comment_of postAuthor d c).
    set (below := preorder_forest postAuthor (S d) (sort_forest (thing_replies c))).
    set (acc1 := acc ++ [cm]).
    assert (length acc1 = S (length acc)) as Hlen1.
    { unfold acc1. rewrite length_app. cbn. lia. }
    assert ((if negb (full maxComments acc1)
             then recurse (thing_replies c) (S d) acc1 else acc1)
            = acc1 ++ take (m - length acc1) below) as ->.
    { destruct (full maxComments acc1) eqn:Hfull1; cbn [negb].
      - apply full_spec in Hfull1. fold m in Hfull1.
        replace (m - length acc1)%nat with 0%nat by lia.
        rewrite take_0, app_nil_r. reflexivity.
      - apply Hrec. left. }
    rewrite IH by (intros c' Hc'; apply Hrec; right; exact Hc').
    replace (m - length acc)%nat with (S (m - length acc1)) by lia.
    cbn [app take]. rewrite take_app, length_app, length_take.
    unfold acc1. rewrite <- !app_assoc. cbn [app]. do 3 f_equal.
    rewrite length_app. cbn [length]. f_equal. lia.
Qed.

(** With more fuel than the forest is high, [extract] appends the full
    listing of the forest, cut when the requested count is reached. *)
Lemma extract_flat (maxComments : Q) (fuel : nat) :
  forall (children : list Thing) (d : nat) (acc : list Comment),
    (forest_height children < fuel)%nat ->
    extract maxComments postAuthor fuel children d acc
    = acc ++ take (Z.to_nat (Qceiling maxComments) - length acc)
               (preorder_forest postAuthor d (sort_forest children)).
Proof.
  induction fuel as [|fuel IH]; intros children d acc Hfuel; [lia|].
  cbn [extract]. rewrite preorder_sort_forest.
  apply extract_loop_flat. intros c Hc acc'. apply IH.
  assert (c ∈ children) as Hin.
  { rewrite (sort_desc_perm thing_score children) in Hc. exact Hc. }
  apply height_le_forest in Hin. rewrite height_replies in Hin. lia.
Qed.

(** What [getPost] returns: the first comments of the full listing. *)
Lemma extract_comments_listing (maxComments : Q) (children : list Thing) :
  extract_comments maxComments postAuthor children
  = take (Z.to_nat (Qceiling maxComments))
      (preorder_forest postAuthor 0 (sort_forest children)).
Proof.
  unfold extract_comments. rewrite extract_flat by lia.
  cbn [app length]. rewrite Nat.sub_0_r. reflexivity.
Qed.

(** A property of the full listings holds as soon as it passes from the
    listings of the replies to the listing of a sorted list of siblings. *)
Lemma listing_ind (R : nat -> list Comment -> Prop) :
  (forall d sorted,
     StronglySorted (descending thing_score) sorted ->
     (forall c, c ∈ sorted ->
        R (S d) (preorder_forest postAuthor (S d) (sort_forest (thing_replies c)))) ->
     R d (concat (map (fun c => preorder postAuthor d (sort_tree c)) sorted))) ->
  forall d children, R d (preorder_forest postAuthor d (sort_forest children)).
Proof.
  intros Hstep.
  assert (forall children,
            (forall c, c ∈ children ->
               forall d, R d (preorder_forest postAuthor d
                                (sort_forest (thing_replies c)))) ->
            forall d, R d (preorder_forest postAuthor d (sort_forest children)))
    as Hforest.
  { intros children Hsub d. rewrite preorder_sort_forest.
    apply Hstep; [apply sort_desc_sorted|].
    intros c Hc. apply Hsub. rewrite (sort_desc_perm thing_score children) in Hc.
    exact Hc. }
  assert (forall c d, R d (preorder_forest postAuthor d (sort_forest (thing_replies c))))
    as Htree.
  { induction c as [k a b s replies IH] using Thing_forest_ind. cbn [thing_replies].
    apply Hforest. intros c Hc. rewrite Forall_forall in IH. apply IH, Hc. }
  intros d children. apply Hforest. intros c _. apply Htree.
Qed.

Lemma listing_head (d : nat) (sorted : list Thing) (cm : Comment) :
  head (concat (map (fun c => preorder postAuthor d (sort_tree c)) sorted)) = Some cm ->
  exists c, c ∈ sorted /\ score cm = thing_score c.
Proof.
  induction sorted as [|c rest IH]; cbn [map concat]; [discriminate|].
  rewrite preorder_sort_tree. destruct (skipped c).
  - cbn [app]. intros H. destruct (IH H) as (c' & Hc' & Hs).
    exists c'. split; [right; exact Hc'|exact Hs].
  - cbn. intros [= <-]. exists c. split; [left|reflexivity].
Qed.

(** The full listing is threaded: parents before their replies, siblings
    by descending score. *)
Lemma listing_threaded (d : nat) (children : list Thing) :
  threaded d (preorder_forest postAuthor d (sort_forest children)).
Proof.
  revert d children. apply listing_ind.
  intros d sorted Hsorted Hsub.
  induction Hsorted as [|c rest Hrest IH Hc]; cbn [map concat]; [constructor|].
  rewrite preorder_sort_tree. destruct (skipped c).
  - cbn [app]. apply IH. intros c' Hc'. apply Hsub. right. exact Hc'.
  - cbn [app]. constructor.
    + reflexivity.
    + apply Hsub. left.
    + apply IH. intros c' Hc'. apply Hsub. right. exact Hc'.
    + intros cm Hhead. apply listing_head in Hhead as (c' & Hc' & ->).
      rewrite Forall_forall in Hc. apply (Hc c' Hc').
Qed.

Lemma comment_of_author (d : nat) (c : Thing) :
  skipped c = false ->
  author (comment_of postAuthor d c) <> "[deleted]"
  /\ author (comment_of postAuthor d c) <> "".
Proof.
  unfold skipped, comment_of. intros H. apply orb_false_iff in H as [_ H].
  destruct (thing_author c) as [a|]; [|discriminate]. cbn.
  apply orb_false_iff in H as [H1 H2].
  apply String.eqb_neq in H1, H2. split; assumption.
Qed.

(** No comment of the full listing has a deleted or missing author. *)
Lemma listing_authors (d : nat) (children : list Thing) :
  Forall (fun cm => author cm <> "[deleted]" /\ author cm <> "")
    (preorder_forest postAuthor d (sort_forest children)).
Proof.
  revert d children.
  apply (listing_ind
           (fun _ l => Forall (fun cm => author cm <> "[deleted]" /\ author cm <> "") l)).
  intros d sorted _ Hsub.
  induction sorted as [|c rest IH]; cbn [map concat]; [constructor|].
  rewrite preorder_sort_tree. destruct (skipped c) eqn:Hskip.
  - cbn [app]. apply IH. intros c' Hc'. apply Hsub. right. exact Hc'.
  - apply Forall_app. split.
    + constructor; [apply comment_of_author, Hskip|apply Hsub; left].
    + apply IH. intros c' Hc'. apply Hsub. right. exact Hc'.
Qed.

(** A cut of a threaded listing is threaded. *)
Lemma threaded_take (d : nat) (l : list Comment) :
  threaded d l -> forall n, threaded d (take n l).
Proof.
  induction 1 as [d|d c below rest Hd _ IHbelow _ IHrest Hhead]; intros n.
  - rewrite take_nil. constructor.
  - destruct n as [|n]; [constructor|].
    cbn [take]. rewrite take_app. constructor.
    + exact Hd.
    + apply IHbelow.
    + apply IHrest.
    + intros c' Hc'. apply Hhead.
      destruct rest as [|r rest]; [rewrite take_nil in Hc'; discriminate|].
      destruct (n - length below)%nat; [discriminate|exact Hc'].
Qed.

Lemma or_else_default (b : option string) : JsString.opt_or_else b "" = default "" b.
Proof.
  destruct b as [t|]; [|reflexivity]. cbn. unfold JsString.or_else.
  destruct (String.eqb_spec t "") as [->|_]; reflexivity.
Qed.

Lemma skipped_hidden (c : Thing) : skipped c = true -> hidden c.
Proof.
  unfold skipped, hidden. intros H. apply orb_true_iff in H as [H|H].
  - left. apply negb_true_iff, String.eqb_neq in H. exact H.
  - right. destruct (thing_author c) as [a|]; [|left; reflexivity].
    right. apply orb_true_iff in H as [H|H]; apply String.eqb_eq in H; subst a;
      [left|right]; reflexivity.
Qed.

Lemma skipped_shown (k : string) (a : option string) (b : option string) (s : Z)
    (replies : list Thing) :
  skipped (mkThing k a b s replies) = false ->
  exists a', k = "t1" /\ a = Some a' /\ a' <> "" /\ a' <> "[deleted]".
Proof.
  unfold skipped. cbn [thing_kind thing_author]. intros H.
  apply orb_false_iff in H as [Hk Ha].
  apply negb_false_iff, String.eqb_eq in Hk.
  destruct a as [a'|]; [|discriminate].
  apply orb_false_iff in Ha as [H1 H2]. apply String.eqb_neq in H1, H2.
  exists a'. repeat split; assumption.
Qed.

Lemma Forall2_map_listing {A B : Type} (R : A -> B -> Prop) (f : A -> B) (l : list A) :
  Forall (fun x => R x (f x)) l -> Forall2 R l (map f l).
Proof. induction 1; cbn; constructor; assumption. Qed.

(** The listing that the model computes for a tree is a flattening of
    the tree in the sense of the specification. *)
Lemma flat_node_listing (c : Thing) :
  forall d, flat_node postAuthor d c (preorder postAuthor d (sort_tree c)).
Proof.
  induction c as [k a b s replies IH] using Thing_forest_ind. intros d.
  rewrite preorder_sort_tree.
  destruct (skipped (mkThing k a b s replies)) eqn:Hskip.
  - apply flat_hidden, skipped_hidden, Hskip.
  - apply skipped_shown in Hskip as (a' & -> & -> & Ha1 & Ha2).
    cbn [thing_replies]. rewrite preorder_sort_forest.
    unfold comment_of. cbn [thing_author thing_body thing_score default].
    rewrite or_else_default.
    apply (flat_shown postAuthor d a' b s replies (sort_desc thing_score replies)).
    + exact Ha1.
    + exact Ha2.
    + apply sort_desc_perm.
    + apply (sort_desc_sorted thing_score).
    + apply Forall2_map_listing. apply Forall_forall. intros c Hc.
      rewrite (sort_desc_perm thing_score replies) in Hc.
      rewrite Forall_forall in IH. apply IH, Hc.
Qed.

Lemma flattening_listing (d : nat) (children : list Thing) :
  flattening postAuthor d children (preorder_forest postAuthor d (sort_forest children)).
Proof.
  rewrite preorder_sort_forest.
  exists (sort_desc thing_score children),
    (map (fun c => preorder postAuthor d (sort_tree c)) (sort_desc thing_score children)).
  split; [apply sort_desc_perm|]. split; [apply (sort_desc_sorted thing_score)|].
  split; [|reflexivity].
  apply Forall2_map_listing. apply Forall_forall. intros c _. apply flat_node_listing.
Qed.

(** C8, as amended. The comments that [getPost] returns for a requested
    count are the first entries of a depth-first listing of the comment
    tree in which every comment is followed by the listings of its
    replies, the siblings of every level are taken by descending score,
    every comment carries the author, body, score and depth of its node,
    and the nodes that are no comments or have a deleted or missing
    author are left out with their replies. As many entries are taken as
    the least whole number that is not below the requested count, none
    when the count is not positive. Hence the list is threaded (every
    comment is followed by its replies, one level deeper, before its next
    sibling, which has no higher score), holds no deleted author, and has
    at most [m] entries when the count is a whole number [m]. The fuel of
    the model does not matter once it exceeds the height of the tree. *)
Theorem extract_comments_spec (maxComments : Q) (children : list Thing) :
  let comments := extract_comments maxComments postAuthor children in
  let count := Z.to_nat (Qceiling maxComments) in
  (exists listing,
     flattening postAuthor 0 children listing /\ comments = take count listing)
  /\ threaded 0 comments
  /\ Forall (fun cm => author cm <> "[deleted]" /\ author cm <> "") comments
  /\ (length comments <= count)%nat
  /\ (forall m : nat,
        (maxComments == inject_Z (Z.of_nat m))%Q -> (length comments <= m)%nat)
  /\ (forall fuel, (forest_height children < fuel)%nat ->
        extract maxComments postAuthor fuel children 0 [] = comments).
Proof.
  intros comments count. subst comments count.
  rewrite extract_comments_listing.
  split; [|split; [|split; [|split; [|split]]]].
  - exists (preorder_forest postAuthor 0 (sort_forest children)).
    split; [apply flattening_listing|reflexivity].
  - apply threaded_take, listing_threaded.
  - apply Forall_take, listing_authors.
  - rewrite length_take. lia.
  - intros m Hm.
    assert (Qceiling maxComments = Z.of_nat m) as ->.
    { apply Z.le_antisymm.
      - rewrite <- (Qceiling_Z (Z.of_nat m)). apply Qceiling_resp_le.
        rewrite Hm. apply Qle_refl.
      - rewrite <- (Qceiling_Z (Z.of_nat m)). apply Qceiling_resp_le.
        rewrite Hm. apply Qle_refl. }
    rewrite length_take. lia.
  - intros fuel Hf. rewrite extract_flat by exact Hf.
    cbn [app length]. rewrite Nat.sub_0_r. reflexivity.
Qed.

End RedditFacts.

(** C8, counterexample. For the requested count 2.5 the list has three
    entries: collection stops once the length has reached the count, and
    the length of the list exceeds the count. *)
Lemma extract_comments_fractional_count :
  length (Reddit.extract_comments (5 # 2) "a" Samples.thread) = 3%nat
  /\ ~ (inject_Z (Z.of_nat (length (Reddit.extract_comments (5 # 2) "a" Samples.thread)))
        <= 5 # 2)%Q.
Proof.
  split; [vm_compute; reflexivity|].
  intros H. vm_compute in H. apply H. reflexivity.
Qed.

(** ** Batched fan-out *)

Section FanoutFacts.
Import Fanout.
Context {T : Type}.

Lemma slice_length (xs : list T) (startIdx endIdx : nat) :
  (length (slice xs startIdx endIdx) <= endIdx - startIdx)%nat.
Proof. unfold slice. rewrite length_take. lia. Qed.

(** No batch of [batchScrape] is larger than the batch size. *)
Lemma batchScrape_batches_bound (K : nat) (urls : list T) :
  Forall (fun batch => (length batch <= K)%nat) (batchScrape_batches K urls).
Proof.
  unfold batchScrape_batches. apply Forall_forall. intros batch Hin.
  apply list_elem_of_fmap in Hin as (batchNum & -> & _).
  etransitivity; [apply slice_length|]. lia.
Qed.

Lemma scrapeMultiple_batches_bound (K : nat) (urls : list T) :
  Forall (fun batch => (length batch <= K)%nat) (scrapeMultiple_batches K urls).
Proof.
  unfold scrapeMultiple_batches.
  destruct (length urls =? 0)%nat; [constructor|].
  destruct (Nat.leb_spec (length urls) K).
  - repeat constructor. assumption.
  - apply batchScrape_batches_bound.
Qed.

Lemma llm_batches_from_bound (fuel concurrency : nat) (contents : list T) (i : nat) :
  Forall (fun batch => (length batch <= concurrency)%nat)
    (llm_batches_from fuel concurrency contents i).
Proof.
  revert i. induction fuel as [|fuel IH]; intros i; cbn [llm_batches_from]; [constructor|].
  destruct (i <? length contents)%nat; [|constructor].
  constructor; [|apply IH].
  etransitivity; [apply slice_length|]. lia.
Qed.

(** No batch of [processMultipleWithLLM] is larger than [concurrency]. *)
Lemma processMultipleWithLLM_batches_bound (concurrency : nat) (contents : list T) :
  Forall (fun batch => (length batch <= concurrency)%nat)
    (processMultipleWithLLM_batches concurrency contents).
Proof. apply llm_batches_from_bound. Qed.

Lemma take_min_length (k : nat) (l : list T) : take (Nat.min k (length l)) l = take k l.
Proof. rewrite <- take_take, (take_ge l (length l)) by lia. reflexivity. Qed.

Lemma ceil_div_covers (n size : nat) : (1 <= size -> n <= ceil_div n size * size)%nat.
Proof.
  intros Hsize. unfold ceil_div.
  pose proof (Nat.div_mod (n + size - 1) size ltac:(lia)) as Hdiv.
  pose proof (Nat.mod_upper_bound (n + size - 1) size ltac:(lia)) as Hmod.
  nia.
Qed.

(** The batches of [batchScrape] are the URLs, in order, cut every
    [BATCH_SIZE]. *)
Lemma batchScrape_batches_concat (K : nat) (urls : list T) :
  (1 <= K)%nat -> concat (batchScrape_batches K urls) = urls.
Proof.
  intros HK. unfold batchScrape_batches.
  assert (forall t a,
            concat (map (fun batchNum =>
                           slice urls (batchNum * K)
                             (Nat.min (batchNum * K + K) (length urls)))
                      (seq a t))
            = take (t * K) (drop (a * K) urls)) as Hcut.
  { induction t as [|t IH]; intros a; [reflexivity|].
    cbn [seq map concat]. rewrite IH. unfold slice.
    replace (Nat.min (a * K + K) (length urls) - a * K)%nat
      with (Nat.min K (length (drop (a * K) urls))) by (rewrite length_drop; lia).
    rewrite take_min_length.
    replace (S a * K)%nat with (a * K + K)%nat by lia.
    rewrite <- drop_drop, take_take_drop. f_equal. }
  rewrite Hcut. cbn [Nat.mul drop]. apply take_ge. apply ceil_div_covers, HK.
Qed.

Lemma llm_batches_from_concat (fuel concurrency : nat) (contents : list T) (i : nat) :
  (1 <= concurrency)%nat -> (length contents - i <= fuel)%nat ->
  concat (llm_batches_from fuel concurrency contents i) = drop i contents.
Proof.
  intros Hc. revert i. induction fuel as [|fuel IH]; intros i Hfuel;
    cbn [llm_batches_from concat].
  - rewrite drop_ge by lia. reflexivity.
  - destruct (Nat.ltb_spec i (length contents)) as [Hlt|Hge].
    + cbn [concat]. rewrite IH by lia. unfold slice.
      replace (i + concurrency - i)%nat with concurrency by lia.
      rewrite <- drop_drop. apply take_drop.
    + rewrite drop_ge by lia. reflexivity.
Qed.

Lemma scrapeMultiple_batches_concat (K : nat) (urls : list T) :
  (1 <= K)%nat -> concat (scrapeMultiple_batches K urls) = urls.
Proof.
  intros HK. unfold scrapeMultiple_batches.
  destruct (Nat.eqb_spec (length urls) 0) as [Hnil|_].
  - destruct urls; [reflexivity|discriminate].
  - destruct (length urls <=? K)%nat.
    + cbn. apply app_nil_r.
    + apply batchScrape_batches_concat, HK.
Qed.

(** The batches of [processMultipleWithLLM] are the contents, in order,
    cut every [concurrency]. *)
Lemma processMultipleWithLLM_batches_concat (concurrency : nat) (contents : list T) :
  (1 <= concurrency)%nat ->
  concat (processMultipleWithLLM_batches concurrency contents) = contents.
Proof.
  intros Hc. unfold processMultipleWithLLM_batches.
  rewrite llm_batches_from_concat by lia. reflexivity.
Qed.

(** A batch is started exactly when no task is running and a batch is
    left. *)
Lemma pool_start_enabled (s : PoolState T) :
  is_Some (pool_step s StartBatch) <-> inflight s = [] /\ upcoming s <> [].
Proof.
  cbn. destruct (inflight s) as [|x running]; destruct (upcoming s) as [|batch later].
  - split; [intros [? [=]]|intros [_ H]; congruence].
  - split; [intros _; split; [reflexivity|discriminate]|intros _; eexists; reflexivity].
  - split; [intros [? [=]]|intros [[=] _]].
  - split; [intros [? [=]]|intros [[=] _]].
Qed.

(** The bound on the running tasks is kept by every event. *)
Lemma pool_run_bound (K : nat) (evs : list PoolEvent) :
  forall s s' : PoolState T,
    Forall (fun batch => (length batch <= K)%nat) (upcoming s) ->
    (length (inflight s) <= K)%nat ->
    pool_run s evs = Some s' ->
    (length (inflight s') <= K)%nat.
Proof.
  induction evs as [|ev later IH]; intros s s' Hup Hrun; cbn [pool_run].
  - intros [= <-]. exact Hrun.
  - destruct (pool_step s ev) as [s1|] eqn:Hstep; [|discriminate].
    apply IH.
    + destruct ev as [|i]; cbn in Hstep.
      * destruct (inflight s), (upcoming s) as [|batch rest]; try discriminate.
        injection Hstep as <-. cbn. apply Forall_inv_tail in Hup. exact Hup.
      * destruct (inflight s !! i); [|discriminate].
        injection Hstep as <-. exact Hup.
    + destruct ev as [|i]; cbn in Hstep.
      * destruct (inflight s), (upcoming s) as [|batch rest]; try discriminate.
        injection Hstep as <-. cbn. apply Forall_inv in Hup. exact Hup.
      * destruct (inflight s !! i) eqn:Hi; [|discriminate].
        injection Hstep as <-. cbn. rewrite length_delete by (eexists; exact Hi). lia.
Qed.

(** C2, as amended. In the batched loops of [batchScrape],
    [scrapeMultiple] and [processMultipleWithLLM] with batch size [K],
    at most [K] tasks are started and not finished in every state that
    the loop can reach, and new tasks are started exactly when no task is
    running and inputs are left: the next batch starts once the whole
    previous batch has finished. The batches are the inputs, in order,
    cut every [K]. The batch size is at least 1, as the loops need it to
    advance. *)
Theorem batched_fanout_bound (K : nat) (inputs : list T) (batches : list (list T))
    (evs : list PoolEvent) (s : PoolState T) :
  (1 <= K)%nat ->
  batches = batchScrape_batches K inputs
  \/ batches = scrapeMultiple_batches K inputs
  \/ batches = processMultipleWithLLM_batches K inputs ->
  pool_run (pool_init batches) evs = Some s ->
  (length (inflight s) <= K)%nat
  /\ (is_Some (pool_step s StartBatch) <-> inflight s = [] /\ upcoming s <> [])
  /\ concat batches = inputs.
Proof.
  intros HK Hbatches Hrun. split; [|split; [apply pool_start_enabled|]].
  - apply (pool_run_bound K evs (pool_init batches) s); [|cbn; lia|exact Hrun].
    cbn. destruct Hbatches as [->|[->| ->]].
    + apply batchScrape_batches_bound.
    + apply scrapeMultiple_batches_bound.
    + apply processMultipleWithLLM_batches_bound.
  - destruct Hbatches as [->|[->| ->]].
    + apply batchScrape_batches_concat, HK.
    + apply scrapeMultiple_batches_concat, HK.
    + apply processMultipleWithLLM_batches_concat, HK.
Qed.

End FanoutFacts.

(** C2, counterexample. Three URLs with batch size 2: after the first
    batch has started and one of its two tasks has finished, one task is
    running, one URL is waiting, and no task can start: the free slot is
    not refilled until the other task of the batch has finished too. *)
Lemma batch_does_not_refill_free_slot :
  exists s,
    Fanout.pool_run (Fanout.pool_init (Fanout.batchScrape_batches 2 ["u0"; "u1"; "u2"]))
      [Fanout.StartBatch; Fanout.Settle 0] = Some s
    /\ Fanout.inflight s = ["u1"]
    /\ Fanout.waiting s = ["u2"]
    /\ Fanout.pool_step s Fanout.StartBatch = None
    /\ ~ Fanout.spec_starts_when_slot_free 2 s.
Proof.
  eexists. split; [vm_compute; reflexivity|].
  split; [reflexivity|]. split; [reflexivity|]. split; [reflexivity|].
  unfold Fanout.spec_starts_when_slot_free. cbn. intros H.
  destruct H as [x Hx]; [lia|discriminate|discriminate].
Qed.

Lemma batched_fanout_bound_witness :
  let batches := Fanout.batchScrape_batches 2 ["u0"; "u1"; "u2"] in
  let s := Fanout.mkPoolState [["u2"]] ["u1"] 1 in
  (1 <= 2)%nat
  /\ Fanout.pool_run (Fanout.pool_init batches) [Fanout.StartBatch; Fanout.Settle 0]
     = Some s
  /\ (length (Fanout.inflight s) <= 2)%nat.
Proof.
  intros batches s.
  assert (Fanout.pool_run (Fanout.pool_init batches) [Fanout.StartBatch; Fanout.Settle 0]
          = Some s) as Hrun by reflexivity.
  split; [lia|]. split; [exact Hrun|].
  exact (proj1 (batched_fanout_bound 2 ["u0"; "u1"; "u2"] batches _ s
                  ltac:(lia) (or_introl eq_refl) Hrun)).
Defined.

(** ** Concrete runs *)

Section Runs.
Import Errors Samples.

(** Scenario 4 of the specification: the first mode answers 401; no other
    mode of the ladder is tried and the error kind is Auth. *)
Example scrape_first_mode_401 :
  let run := Scraper.scrapeWithFallback two_attempts (always_status 401 "denied")
               "https://example.com" None in
  Scraper.scrapes_of run.2
  = [Scraper.mkScrapeRequest "https://example.com" (Some Scraper.basic) None None]
  /\ Scraper.fetches run.2
     = [(Scraper.mkScrapeRequest "https://example.com" (Some Scraper.basic) None None,
         0%nat)]
  /\ (code <$> Scraper.error run.1) = Some AUTH_ERROR.
Proof. vm_compute. repeat split. Qed.

(** A busy plain mode is retried once, then the ladder moves on to the
    rendered mode, which succeeds. *)
Example scrape_falls_back_to_javascript :
  let run := Scraper.scrapeWithFallback two_attempts javascript_only
               "https://example.com" None in
  map Scraper.mode (Scraper.scrapes_of run.2)
  = [Some Scraper.basic; Some Scraper.javascript]
  /\ length (Scraper.fetches run.2) = 3%nat
  /\ Scraper.statusCode run.1 = 200%Z
  /\ Scraper.credits run.1 = 5%Z.
Proof. vm_compute. repeat split. Qed.

(** Two retryable failures, two sleeps of 1000 * 2 ^ i * 1.15 ms, then the
    value of the third attempt. *)
Example withRetry_third_time_lucky :
  withRetry third_time_lucky DEFAULT_RETRY_OPTIONS (fun _ => 1 # 2)
  = (RetrySuccess 42%nat,
     [EvAttempt 0; EvSleep (23000 # 20); EvAttempt 1; EvSleep (46000 # 20); EvAttempt 2]).
Proof. vm_compute. reflexivity. Qed.

(** Highest score first at every level, replies right after their
    parent, the deleted comment and its reply left out, the "more" stub
    skipped. *)
Example extract_comments_thread :
  map (fun c => (Reddit.author c, Reddit.score c, Reddit.depth c))
    (Reddit.extract_comments 100 "a" thread)
  = [("e", 9%Z, 0%nat); ("f", 3%Z, 1%nat); ("a", 5%Z, 0%nat); ("c", 7%Z, 1%nat);
     ("d", 2%Z, 2%nat); ("b", 1%Z, 1%nat)]
  /\ map Reddit.author (Reddit.extract_comments 3 "a" thread) = ["e"; "f"; "a"].
Proof. vm_compute. split; reflexivity. Qed.

(** Ten items share a budget of 1000; three questions share the research
    budget; without items the budget itself is returned. *)
Example calculateTokenAllocation_runs :
  Budget.calculateTokenAllocation 10 1000 = 100%Z
  /\ Budget.research_calculateTokenAllocation 3 = 10666%Z
  /\ Budget.research_calculateTokenAllocation 0 = 32000%Z.
Proof. repeat split. Qed.

(** A handler that throws is answered with an error result; a tool whose
    capability is missing is answered without running its handler. *)
Example executeTool_runs :
  Registry.executeTool throwing_imports "deep_research" Registry.VNull all_enabled
  = (Returned (Registry.mkCallToolResult [Registry.mkText "boom"] (Some true)),
     [Registry.EvValidate "deep_research";
      Registry.EvHandler "deep_research" Registry.VNull])
  /\ Registry.executeTool throwing_imports "deep_research" Registry.VNull none_enabled
     = (Returned (Registry.mkCallToolResult
                    [Registry.mkText "missing environment variable"] (Some true)),
        []).
Proof. vm_compute. split; reflexivity. Qed.

End Runs.

(** ** More on the classifier *)

Section ClassifierMore.
Import Errors.

(** X1. The [retryable] flag of every classified error is determined by
    its kind, whatever was thrown: it is set exactly for RATE_LIMITED,
    TIMEOUT, NETWORK_ERROR, SERVICE_UNAVAILABLE and INTERNAL_ERROR. *)
Theorem classifyError_retryable_iff_kind (error : JsThrown) :
  retryable (classifyError error) = true
  <-> code (classifyError error)
      ∈ [RATE_LIMITED; TIMEOUT; NETWORK_ERROR; SERVICE_UNAVAILABLE; INTERNAL_ERROR].
Proof.
  rewrite classifyError_retryable.
  destruct (code (classifyError error)); cbn [spec_default_retryable];
    rewrite !elem_of_cons, elem_of_nil; split; intros H;
    try reflexivity; try discriminate; try tauto;
    repeat (destruct H as [H|H]; try discriminate); try contradiction.
Qed.

(** X2. A classified error carries an HTTP status only when the thrown
    value is an object whose [response.status] (or, failing that,
    [status]) is that non-zero number, and then its kind is the one of the
    status dispatch table. *)
Theorem classifyError_status_attached (error : JsThrown) (s : Z) :
  statusCode (classifyError error) = Some s ->
  s <> 0%Z
  /\ code (classifyError error) = spec_http_kind s
  /\ exists o, error = JsObj o /\ num_or (js_response_status o) (js_status o) = Some s.
Proof.
  destruct error as [| |o]; try discriminate.
  cbn [classifyError]; unfold classifyObject.
  destruct (js_isDOMException o && str_is (js_name o) "AbortError"); [discriminate|].
  destruct (is_network_code (js_code o)); [discriminate|].
  destruct (is_timeout_like _ _ _); [discriminate|].
  destruct (num_truthy (num_or (js_response_status o) (js_status o))) as [status|] eqn:Hst.
  - rewrite classifyHttpError_statusCode, classifyHttpError_kind.
    intros [= ->].
    unfold num_truthy in Hst.
    destruct (num_or (js_response_status o) (js_status o)) as [z|] eqn:Hor;
      cbn [num_or] in Hst; [|discriminate].
    destruct (Z.eqb_spec z 0) as [|Hne]; [discriminate|].
    injection Hst as ->.
    split; [exact Hne|]. split; [reflexivity|].
    exists o. split; [reflexivity|exact Hor].
  - repeat (match goal with
            | |- context [if ?b then _ else _] => destruct b
            end; try discriminate).
Qed.

Lemma classifyError_status_attached_witness :
  statusCode (classifyError (status_message_object 429 "slow down")) = Some 429%Z
  /\ code (classifyError (status_message_object 429 "slow down")) = RATE_LIMITED.
Proof.
  split; [reflexivity|].
  destruct (classifyError_status_attached (status_message_object 429 "slow down") 429
              eq_refl) as (_ & Hk & _).
  exact Hk.
Defined.

Lemma length_substring_le (n m : nat) (s : string) :
  (String.length (substring n m s) <= m)%nat.
Proof.
  revert n m. induction s as [|c s IH]; intros n m.
  - destruct n, m; cbn; lia.
  - destruct n as [|n].
    + destruct m as [|m]; cbn; [lia|]. specialize (IH 0%nat m). lia.
    + cbn. apply IH.
Qed.

(** X3. The message of an error of kind UNKNOWN_ERROR that carries no
    HTTP status is at most 500 characters long, however long the message
    of the thrown value was. *)
Theorem classifyError_unknown_message_bounded (error : JsThrown) :
  code (classifyError error) = UNKNOWN_ERROR ->
  statusCode (classifyError error) = None ->
  (String.length (message (classifyError error)) <= 500)%nat.
Proof.
  destruct error as [| |o]; [cbn; lia|cbn; lia|].
  cbn [classifyError]; unfold classifyObject.
  destruct (js_isDOMException o && str_is (js_name o) "AbortError"); [discriminate|].
  destruct (is_network_code (js_code o)); [discriminate|].
  destruct (is_timeout_like _ _ _); [discriminate|].
  destruct (num_truthy (num_or (js_response_status o) (js_status o))) as [status|].
  - rewrite classifyHttpError_statusCode. discriminate.
  - repeat (match goal with
            | |- context [if ?b then _ else _] => destruct b
            end; try discriminate).
    intros _ _. cbn [message]. apply length_substring_le.
Qed.

Lemma classifyError_unknown_message_bounded_witness :
  (String.length (message (classifyError (plain_Error "something odd"))) <= 500)%nat.
Proof.
  apply (classifyError_unknown_message_bounded (plain_Error "something odd"));
    reflexivity.
Defined.

End ClassifierMore.

(** ** Accounting of the retry loops *)

Section DelayTotals.
Import Totals.

Lemma Qsum_cons (d : Q) (l : list Q) : Qsum (d :: l) = (d + Qsum l)%Q.
Proof. reflexivity. Qed.

Lemma Qsum_bound (m : Q) (l : list Q) :
  Forall (fun d => d <= m)%Q l -> (Qsum l <= inject_Z (Z.of_nat (length l)) * m)%Q.
Proof.
  induction 1 as [|d l Hd _ IH].
  - unfold Qsum. cbn [foldr length]. change (inject_Z (Z.of_nat 0)) with 0%Q. lra.
  - rewrite Qsum_cons. cbn [length]. rewrite Nat2Z.inj_succ. unfold Z.succ.
    rewrite inject_Z_plus. change (inject_Z 1) with 1%Q.
    set (k := inject_Z (Z.of_nat (length l))) in *.
    assert ((k + 1) * m == k * m + m)%Q as -> by ring.
    lra.
Qed.

End DelayTotals.

Section RetryHelperAccounts.
Import Errors Retry Totals.
Context {T : Type}.
Variable fn : nat -> Outcome JsThrown T.
Variable config : RetryConfig.
Variable hooks : RetryHooks.

Lemma retryWithBackoff_from_accounts (fuel a : nat) (total : Q) (last : option JsThrown) :
  (Z.of_nat a + Z.of_nat fuel = maxRetries config)%Z ->
  let run := retryWithBackoff_from fn config hooks fuel a total last in
  attempts run.1 = (Z.of_nat a + Z.of_nat (length (calls_of run.2)))%Z
  /\ (totalDelayMs run.1 == total + Qsum (delays_of run.2))%Q.
Proof.
  unfold calls_of, delays_of, Qsum. revert a total last.
  induction fuel as [|fuel IH]; intros a total last Hsum; cbn zeta.
  - cbn -[Qplus Z.add Z.of_nat]. split; [lia|lra].
  - cbn [retryWithBackoff_from].
    destruct (fn a) as [v|e].
    + destruct a; cbn -[Qplus Z.add Z.of_nat]; split; try lia; lra.
    + destruct (shouldRetryThis hooks (to_Error e)); cbn [negb].
      * destruct (Z.of_nat a <? maxRetries config - 1)%Z.
        -- specialize (IH (S a) (total + calculateDelay a config)%Q (Some (to_Error e))).
           cbn zeta in IH. destruct IH as [Hatt Hdel]; [lia|].
           destruct (retryWithBackoff_from fn config hooks fuel (S a) _ _)
             as [result trace].
           cbn [fst snd] in *. split.
           ++ rewrite Hatt. destruct (onRetry hooks); cbn -[Qplus Z.add Z.of_nat]; lia.
           ++ rewrite Hdel. destruct (onRetry hooks); cbn -[Qplus Z.add Z.of_nat]; lra.
        -- specialize (IH (S a) total (Some (to_Error e))).
           cbn zeta in IH. destruct IH as [Hatt Hdel]; [lia|].
           destruct (retryWithBackoff_from fn config hooks fuel (S a) _ _)
             as [result trace].
           cbn [fst snd] in *. split.
           ++ rewrite Hatt. cbn -[Qplus Z.add Z.of_nat]. lia.
           ++ rewrite Hdel. cbn -[Qplus Z.add Z.of_nat]. lra.
      * cbn -[Qplus Z.add Z.of_nat]. split; [lia|lra].
Qed.

(** X5. What [retryWithBackoff] reports agrees with what it did: when
    [maxRetries] is not negative, [attempts] is the number of calls made
    to the operation and [totalDelayMs] is the sum of the delays waited
    between them. *)
Theorem retryWithBackoff_accounts :
  (0 <= maxRetries config)%Z ->
  let run := retryWithBackoff fn config hooks in
  attempts run.1 = Z.of_nat (length (calls_of run.2))
  /\ (totalDelayMs run.1 == Qsum (delays_of run.2))%Q.
Proof.
  intros Hpos run.
  destruct (retryWithBackoff_from_accounts (Z.to_nat (maxRetries config)) 0 0%Q None)
    as [Hatt Hdel]; [lia|].
  subst run. unfold retryWithBackoff. split.
  - rewrite Hatt. lia.
  - rewrite Hdel. lra.
Qed.

End RetryHelperAccounts.

Lemma retryWithBackoff_accounts_witness :
  let run :=
    Retry.retryWithBackoff
      (fun k => match k with
                | O => Threw (Errors.plain_Error "429 Too Many Requests")
                | _ => Returned 7%nat
                end)
      Retry.DEFAULT_RETRY_CONFIG (Retry.mkRetryHooks None false) in
  Retry.attempts run.1 = 2%Z /\ (Retry.totalDelayMs run.1 == 500)%Q.
Proof.
  intro run.
  destruct (retryWithBackoff_accounts
              (fun k => match k with
                        | O => Threw (Errors.plain_Error "429 Too Many Requests")
                        | _ => Returned 7%nat
                        end)
              Retry.DEFAULT_RETRY_CONFIG (Retry.mkRetryHooks None false))
    as [Hatt Hdel]; [vm_compute; discriminate|].
  split; [exact Hatt|exact Hdel].
Defined.

Section DelaySchedule.
Import Errors Retry.

(** X6. With a non-negative initial delay and a multiplier that is at
    least one and whose power for the next attempt stays below [2 ^ 1024]
    (beyond which [Math.pow] no longer gives a finite number), the delays
    of [calculateDelay] do not decrease from one attempt to the next and
    never exceed [maxDelayMs]. *)
Theorem calculateDelay_monotone_capped (config : RetryConfig) (attempt : nat) :
  (0 <= initialDelayMs config)%Q -> (1 <= multiplier config)%Q ->
  (multiplier config ^ Z.of_nat (S attempt) < 2 ^ 1024)%Q ->
  (calculateDelay attempt config <= calculateDelay (S attempt) config)%Q
  /\ (calculateDelay attempt config <= maxDelayMs config)%Q.
Proof.
  intros Hinit Hmult _. unfold calculateDelay. split; [|apply Q.le_min_r].
  apply Q.min_le_compat_r.
  rewrite !(Qmult_comm (initialDelayMs config)).
  apply Qmult_le_compat_r; [|exact Hinit].
  apply Qpower_le_compat_l; [lia|exact Hmult].
Qed.

End DelaySchedule.

Lemma calculateDelay_monotone_capped_witness :
  (Retry.calculateDelay 3 Retry.DEFAULT_RETRY_CONFIG
   <= Retry.calculateDelay 4 Retry.DEFAULT_RETRY_CONFIG)%Q
  /\ (Retry.calculateDelay 3 Retry.DEFAULT_RETRY_CONFIG <= 10000)%Q.
Proof.
  apply (calculateDelay_monotone_capped Retry.DEFAULT_RETRY_CONFIG 3);
    vm_compute; first [discriminate|reflexivity].
Defined.

Section RetryEngineWait.
Import Errors Totals.
Context {T : Type}.
Variable fn : nat -> Outcome JsThrown T.
Variable opts : RetryOptions.
Variable rand : nat -> Q.

(** X7. The time [withRetry] spends sleeping is bounded by its options,
    whatever the operation does and whatever the random samples are: there
    are at most [maxRetries] sleeps, none longer than [maxDelayMs], so
    their total is at most [maxRetries * maxDelayMs]. *)
Theorem withRetry_total_sleep_bounded :
  (0 <= maxRetries opts)%Z -> (0 <= maxDelayMs opts)%Q ->
  let sleeps := sleeps_of (withRetry fn opts rand).2 in
  (Z.of_nat (length sleeps) <= maxRetries opts)%Z
  /\ Forall (fun d => d <= maxDelayMs opts)%Q sleeps
  /\ (Qsum sleeps <= inject_Z (maxRetries opts) * maxDelayMs opts)%Q.
Proof.
  intros Hretries Hmax sleeps.
  destruct (withRetry_from_outcome fn opts rand (Z.to_nat (maxRetries opts + 1)) 0
              no_attempts_error) as (k & _ & Hk & _ & _ & Hsl & _); [lia|lia|].
  fold (withRetry fn opts rand) in Hsl. fold sleeps in Hsl.
  replace (k - 0)%nat with k in Hsl by lia.
  assert (length sleeps = k) as Hlen.
  { rewrite Hsl, length_map, length_seq. reflexivity. }
  assert (Forall (fun d => d <= maxDelayMs opts)%Q sleeps) as Hall.
  { rewrite Hsl. apply Forall_forall. intros d Hd.
    apply list_elem_of_fmap in Hd as (j & -> & _).
    unfold calculateBackoff. apply Q.le_min_r. }
  split; [lia|]. split; [exact Hall|].
  apply Qle_trans with (inject_Z (Z.of_nat (length sleeps)) * maxDelayMs opts)%Q.
  - apply Qsum_bound. exact Hall.
  - apply Qmult_le_compat_r; [|exact Hmax].
    rewrite <- Zle_Qle. lia.
Qed.

End RetryEngineWait.

Lemma withRetry_total_sleep_bounded_witness :
  (Totals.Qsum
     (Errors.sleeps_of
        (Errors.withRetry Samples.third_time_lucky Errors.DEFAULT_RETRY_OPTIONS
           (fun _ => 1 # 2)%Q).2)
   <= 3 * 30000)%Q.
Proof.
  apply (withRetry_total_sleep_bounded Samples.third_time_lucky
           Errors.DEFAULT_RETRY_OPTIONS (fun _ => 1 # 2)%Q);
    vm_compute; discriminate.
Defined.

(** ** More on the scraper client *)

Section ScraperMore.
Import Errors Scraper ScraperBatch.
Variable cfg : ScraperConfig.
Variable w : World.

(** Case analysis along the branches of one iteration of the retry loop
    of [scrape]; [IH] is the statement for the next iteration. *)
Ltac scrape_from_cases IH fuel :=
  repeat (match goal with
          | |- context [scrape_from cfg w ?request ?c ?m fuel ?a' ?l'] =>
              let H := fresh "Hnext" in
              pose proof (IH a' l') as H;
              destruct (scrape_from cfg w request c m fuel a' l')
          | |- context [match ?x with Response _ _ _ => _ | Rejected _ => _ end] =>
              destruct x
          | |- context [if ?b then _ else _] =>
              match type of b with bool => destruct b eqn:? end
          end; cbn [fst snd] in *).

Lemma scrape_from_credits (request : ScrapeRequest) (c maxRetries : Z) (fuel a : nat)
    (last : option StructuredError) :
  let r := (scrape_from cfg w request c maxRetries fuel a last).1 in
  match error r with
  | Some _ => credits r = 0%Z
  | None => credits r = c
  end.
Proof.
  revert a last. induction fuel as [|fuel IH]; intros a last; [reflexivity|].
  cbn [scrape_from]. cbn zeta in IH.
  scrape_from_cases IH fuel; try reflexivity; try assumption.
Qed.

(** X8. A response of [scrape] either carries an error and charges no
    credit, or carries none, has a 2xx status or status 404, and charges
    one credit, five in javascript mode. *)
Theorem scrape_error_or_charged (request : ScrapeRequest) (maxRetries : Z) :
  let r := (scrape cfg w request maxRetries).1 in
  match error r with
  | Some _ => credits r = 0%Z
  | None =>
      ((200 <= statusCode r < 300)%Z \/ statusCode r = 404%Z)
      /\ credits r = if decide (mode request = Some javascript) then 5%Z else 1%Z
  end.
Proof.
  pose proof (scrape_result_shape cfg w request maxRetries) as Hshape.
  cbn zeta in *. unfold scrape in *.
  destruct (url_parses w (url request)); cbn [negb] in *; [|reflexivity].
  pose proof (scrape_from_credits request
                (if decide (mode request = Some javascript) then 5%Z else 1%Z)
                maxRetries (Z.to_nat maxRetries) 0 None) as Hcred.
  cbn zeta in Hcred.
  destruct (error (scrape_from cfg w request _ maxRetries (Z.to_nat maxRetries) 0 None).1).
  - exact Hcred.
  - split; [exact Hshape|exact Hcred].
Qed.

Lemma scrape_from_error_kind (request : ScrapeRequest) (c maxRetries : Z) (fuel a : nat)
    (last : option StructuredError) :
  (forall e, last = Some e -> retryable e = spec_default_retryable (code e)) ->
  forall e, error (scrape_from cfg w request c maxRetries fuel a last).1 = Some e ->
            retryable e = spec_default_retryable (code e).
Proof.
  revert a last. induction fuel as [|fuel IH]; intros a last Hlast.
  - cbn. destruct last as [e0|]; cbn; intros e [= <-]; [apply Hlast|]; reflexivity.
  - cbn [scrape_from]. cbv zeta.
    repeat (match goal with
            | |- context [scrape_from cfg w request c maxRetries fuel ?a' (Some ?l')] =>
                let H := fresh "Hnext" in
                assert (forall e, error (scrape_from cfg w request c maxRetries fuel a'
                                           (Some l')).1 = Some e ->
                                  retryable e = spec_default_retryable (code e)) as H
                  by (apply IH; intros e' Heq; apply (inj Some) in Heq; subst e';
                      first [apply classifyError_retryable
                            | cbn; repeat case_Zeqb; reflexivity]);
                destruct (scrape_from cfg w request c maxRetries fuel a' (Some l'))
            | |- context [match ?x with Response _ _ _ => _ | Rejected _ => _ end] =>
                destruct x
            | |- context [if ?b then _ else _] =>
                match type of b with bool => destruct b eqn:? end
            end; cbn [fst snd] in *);
      try assumption; cbn [error]; intros e0 He0;
      first [discriminate He0|apply (inj Some) in He0; subst e0];
      first [reflexivity|apply classifyError_retryable].
Qed.

(** Every error that [scrape] returns has the retryable flag of its
    kind. *)
Lemma scrape_error_kind (request : ScrapeRequest) (maxRetries : Z) (e : StructuredError) :
  error (scrape cfg w request maxRetries).1 = Some e ->
  retryable e = spec_default_retryable (code e).
Proof.
  unfold scrape. destruct (negb _).
  - cbn. intros [= <-]. reflexivity.
  - apply scrape_from_error_kind. discriminate.
Qed.

End ScraperMore.

Section ScraperTraces.
Import Errors Scraper ScraperBatch.
Variable cfg : ScraperConfig.
Variable w : World.

Lemma seq_pred_cons (a k : nat) : (1 <= k)%nat -> seq a k = a :: seq (S a) (pred k).
Proof. destruct k as [|k]; [lia|]. reflexivity. Qed.

(** The network calls of the retry loop entered at attempt [a] are
    numbered from [a] on, and a sleep separates each from the next. *)
Lemma scrape_from_trace (request : ScrapeRequest) (c maxRetries : Z) (fuel a : nat)
    (last : option StructuredError) :
  fuel = Z.to_nat (maxRetries - Z.of_nat a) ->
  let trace := (scrape_from cfg w request c maxRetries fuel a last).2 in
  exists k,
    (k <= fuel)%nat /\ (1 <= fuel -> 1 <= k)%nat
    /\ fetches trace = map (pair request) (seq a k)
    /\ sleeps trace
       = map (fun j => calculateBackoff cfg j (rand w request j)) (seq a (pred k)).
Proof.
  revert a last. induction fuel as [|fuel IH]; intros a last Hfuel.
  - exists 0%nat. cbn. split; [lia|]. split; [lia|]. split; reflexivity.
  - assert (forall last', (Z.of_nat a < maxRetries - 1)%Z ->
              let next := (scrape_from cfg w request c maxRetries fuel (S a) last').2 in
              exists k,
                (k <= S fuel)%nat /\ (1 <= S fuel -> 1 <= k)%nat
                /\ fetches (EvFetch request a
                              :: EvSleep (calculateBackoff cfg a (rand w request a))
                              :: next)
                   = map (pair request) (seq a k)
                /\ sleeps (EvFetch request a
                             :: EvSleep (calculateBackoff cfg a (rand w request a))
                             :: next)
                   = map (fun j => calculateBackoff cfg j (rand w request j))
                       (seq a (pred k))) as Hmore.
    { intros last' Hm. cbn zeta.
      destruct (IH (S a) last') as (k & Hk & Hk1 & Hf & Hs); [lia|].
      exists (S k). split; [lia|]. split; [lia|]. split.
      - cbn. f_equal. exact Hf.
      - cbn [pred]. rewrite (seq_pred_cons a k) by lia.
        cbn. f_equal. exact Hs. }
    assert (exists k,
              (k <= S fuel)%nat /\ (1 <= S fuel -> 1 <= k)%nat
              /\ fetches [EvFetch request a] = map (pair request) (seq a k)
              /\ sleeps [EvFetch request a]
                 = map (fun j => calculateBackoff cfg j (rand w request j))
                     (seq a (pred k))) as Hstop.
    { exists 1%nat. split; [lia|]. split; [lia|]. split; reflexivity. }
    cbn [scrape_from]. cbv zeta.
    destruct (net w request a) as [status text hdrs|thrown].
    + destruct (ok status); [exact Hstop|].
      destruct (status =? 404)%Z; [exact Hstop|].
      destruct (has PERMANENT_FAILURE_CODES status); [exact Hstop|].
      destruct (has RETRYABLE_STATUS_CODES status && (Z.of_nat a <? maxRetries - 1)%Z)
        eqn:Hretry.
      { apply andb_true_iff in Hretry as [_ Hm]. apply Z.ltb_lt in Hm.
        match goal with
        | |- context [scrape_from cfg w request c maxRetries fuel (S a) ?l'] =>
            specialize (Hmore l' Hm); cbn zeta in Hmore;
            destruct (scrape_from cfg w request c maxRetries fuel (S a) l')
        end.
        exact Hmore. }
      destruct ((Z.of_nat a <? maxRetries - 1)%Z && _) eqn:Hagain; [|exact Hstop].
      apply andb_true_iff in Hagain as [Hm _]. apply Z.ltb_lt in Hm.
      match goal with
      | |- context [scrape_from cfg w request c maxRetries fuel (S a) ?l'] =>
          specialize (Hmore l' Hm); cbn zeta in Hmore;
          destruct (scrape_from cfg w request c maxRetries fuel (S a) l')
      end.
      exact Hmore.
    + destruct (retryable (classifyError thrown)); cbn [negb]; [|exact Hstop].
      destruct (Z.ltb_spec (Z.of_nat a) (maxRetries - 1)) as [Hm|Hm].
      * specialize (Hmore (Some (classifyError thrown)) Hm). cbn zeta in Hmore.
        destruct (scrape_from cfg w request c maxRetries fuel (S a) _).
        exact Hmore.
      * destruct (IH (S a) (Some (classifyError thrown))) as (k & Hk & _ & Hf & Hs);
          [lia|].
        assert (k = 0%nat) as -> by lia.
        destruct (scrape_from cfg w request c maxRetries fuel (S a) _) as [r tr].
        cbn [fst snd] in *.
        exists 1%nat. split; [lia|]. split; [lia|]. split.
        -- cbn. cbn in Hf. unfold fetches in Hf. rewrite Hf. reflexivity.
        -- cbn. cbn in Hs. unfold sleeps in Hs. rewrite Hs. reflexivity.
Qed.

Lemma scrape_fetches_bound (request : ScrapeRequest) (maxRetries : Z) :
  (length (fetches (scrape cfg w request maxRetries).2) <= Z.to_nat maxRetries)%nat
  /\ Forall (fun call => call.1 = request /\ (Z.of_nat call.2 < maxRetries)%Z)
       (fetches (scrape cfg w request maxRetries).2).
Proof.
  unfold scrape. destruct (negb (url_parses w (url request))).
  { cbn. split; [lia|constructor]. }
  destruct (scrape_from_trace request
              (if decide (mode request = Some javascript) then 5%Z else 1%Z)
              maxRetries (Z.to_nat maxRetries) 0 None) as (k & Hk & _ & Hf & _); [lia|].
  cbn zeta in Hf. rewrite Hf. rewrite length_map, length_seq. split; [lia|].
  apply Forall_forall. intros call Hin.
  apply list_elem_of_fmap in Hin as (j & -> & Hj). apply elem_of_seq in Hj.
  cbn. split; [reflexivity|lia].
Qed.

(** X9. [scrape] makes at most [maxRetries] network calls for a request:
    the calls are numbered 0, 1, ... without gap, and there is one sleep
    for each call but the last, of the length that [calculateBackoff]
    gives for the number of that call. For a URL that does not parse there
    is no call. *)
Theorem scrape_trace_shape (request : ScrapeRequest) (maxRetries : Z) :
  let trace := (scrape cfg w request maxRetries).2 in
  exists k,
    (Z.of_nat k <= Z.max 0 maxRetries)%Z
    /\ fetches trace = map (pair request) (seq 0 k)
    /\ sleeps trace
       = map (fun j => calculateBackoff cfg j (rand w request j)) (seq 0 (pred k))
    /\ (url_parses w (url request) = false -> k = 0%nat).
Proof.
  unfold scrape. destruct (url_parses w (url request)); cbn [negb].
  - destruct (scrape_from_trace request
                (if decide (mode request = Some javascript) then 5%Z else 1%Z)
                maxRetries (Z.to_nat maxRetries) 0 None) as (k & Hk & _ & Hf & Hs); [lia|].
    exists k. split; [lia|]. split; [exact Hf|]. split; [exact Hs|discriminate].
  - exists 0%nat. split; [lia|]. split; [reflexivity|]. split; reflexivity.
Qed.

(** X10. The wait before retry number [attempt] lies between the base
    delay for that attempt (the entry of [RETRY_DELAYS], or 8000 ms when
    the table has no entry or a zero there) and that delay plus three
    tenths of it, for every random sample in [0, 1]. *)
Theorem calculateBackoff_within (attempt : nat) (r : Q) :
  (0 <= r)%Q -> (r <= 1)%Q -> (0 <= baseDelay cfg attempt)%Z ->
  (baseDelay cfg attempt <= calculateBackoff cfg attempt r
   <= baseDelay cfg attempt + 3 * baseDelay cfg attempt / 10)%Z.
Proof.
  intros Hr0 Hr1 Hd.
  assert (calculateBackoff cfg attempt r
          = Qfloor (inject_Z (baseDelay cfg attempt)
                    + r * (3 # 10) * inject_Z (baseDelay cfg attempt))) as ->
    by reflexivity.
  set (d := baseDelay cfg attempt) in *.
  assert (0 <= inject_Z d)%Q as HdQ.
  { change 0%Q with (inject_Z 0). rewrite <- Zle_Qle. exact Hd. }
  split.
  - rewrite <- (Qfloor_Z d) at 1. apply Qfloor_resp_le.
    assert (0 <= r * (3 # 10) * inject_Z d)%Q by nra. lra.
  - assert (d + 3 * d / 10 = Qfloor (inject_Z d + (3 # 10) * inject_Z d))%Z as ->.
    { assert (inject_Z d + (3 # 10) * inject_Z d == (13 * d # 10))%Q as ->.
      { unfold Qeq, inject_Z. cbn. lia. }
      unfold Qfloor. cbn [Qnum Qden]. Z.div_mod_to_equations. lia. }
    apply Qfloor_resp_le. nra.
Qed.

End ScraperTraces.

Lemma calculateBackoff_within_witness :
  (2000 <= Scraper.calculateBackoff Samples.two_attempts 0 (1 # 2) <= 2600)%Z.
Proof.
  apply (calculateBackoff_within Samples.two_attempts 0 (1 # 2));
    vm_compute; discriminate.
Defined.

Section FallbackFacts.
Import Errors Scraper ScraperBatch.
Variable cfg : ScraperConfig.
Variable w : World.

(** An error that ends the ladder is not marked retryable and its kind
    is not a retryable one. *)
Lemma stopping_error_kind (request : ScrapeRequest) (maxRetries : Z) (e : StructuredError) :
  stops_ladder (scrape cfg w request maxRetries).1 = true ->
  error (scrape cfg w request maxRetries).1 = Some e ->
  retryable e = false /\ spec_default_retryable (code e) = false.
Proof.
  intros Hstop He.
  pose proof (scrape_error_kind cfg w request maxRetries e He) as Hkind.
  pose proof (scrape_result_shape cfg w request maxRetries) as Hshape.
  cbn zeta in Hshape. rewrite He in Hshape.
  assert (retryable e = false) as Hre.
  { destruct (retryable e) eqn:Hre; [|reflexivity].
    destruct (Hshape eq_refl) as (H2xx & H404 & _).
    unfold stops_ladder, is_success, is_non_retryable in Hstop.
    rewrite He, Hre in Hstop. cbn in Hstop.
    rewrite andb_false_r, orb_false_r in Hstop. cbn in Hstop.
    apply Z.eqb_eq in Hstop. contradiction. }
  split; [exact Hre|]. rewrite <- Hkind. exact Hre.
Qed.

Lemma fallback_loop_error (url : string) (timeout : option Z)
    (attempts : list FallbackAttempt) (notes : list string)
    (last : option ScrapeResponse) (e : StructuredError) :
  error (fallback_loop cfg w url timeout attempts notes last).1 = Some e ->
  retryable e = false
  /\ (spec_default_retryable (code e) = false \/ code e = SERVICE_UNAVAILABLE).
Proof.
  revert notes last. induction attempts as [|attempt later IH]; intros notes last.
  - cbn. intros He. apply (inj Some) in He. subst e. cbn.
    split; [reflexivity|right; reflexivity].
  - rewrite fallback_loop_cons. cbn zeta.
    destruct (stops_ladder _) eqn:Hstop; cbn [fst].
    + intros He. destruct (stopping_error_kind _ _ e Hstop He) as [Hre Hkind].
      split; [exact Hre|left; exact Hkind].
    + apply IH.
Qed.

(** X11. An error reported by [scrapeWithFallback] is never marked
    retryable, and its kind is never RATE_LIMITED, TIMEOUT, NETWORK_ERROR
    or INTERNAL_ERROR: all retrying has been done inside, and what is left
    for the caller is a permanent failure or the summary error of the
    exhausted ladder. *)
Theorem scrapeWithFallback_error_final (url : string) (timeout : option Z)
    (e : StructuredError) :
  error (scrapeWithFallback cfg w url timeout).1 = Some e ->
  retryable e = false
  /\ code e ∉ [RATE_LIMITED; TIMEOUT; NETWORK_ERROR; INTERNAL_ERROR].
Proof.
  intros He. apply fallback_loop_error in He as [Hre Hkind].
  split; [exact Hre|].
  rewrite !elem_of_cons, elem_of_nil.
  destruct (code e); cbn in Hkind; intuition discriminate.
Qed.

Lemma fetches_app (t1 t2 : list Event) : fetches (t1 ++ t2) = fetches t1 ++ fetches t2.
Proof. unfold fetches. apply omap_app. Qed.

Lemma fallback_loop_fetches (url : string) (timeout : option Z)
    (attempts : list FallbackAttempt) (notes : list string)
    (last : option ScrapeResponse) :
  let calls := fetches (fallback_loop cfg w url timeout attempts notes last).2 in
  (length calls <= length attempts * Z.to_nat (RETRY_COUNT cfg))%nat
  /\ Forall (fun call => call.1 ∈ map (fallback_request url timeout) attempts
                         /\ (Z.of_nat call.2 < RETRY_COUNT cfg)%Z) calls.
Proof.
  revert notes last. induction attempts as [|attempt later IH]; intros notes last.
  - cbn. split; [lia|constructor].
  - cbn zeta. rewrite fallback_loop_cons. cbn zeta.
    destruct (scrape_fetches_bound cfg w (fallback_request url timeout attempt)
                (RETRY_COUNT cfg)) as [Hlen Hall].
    assert (Forall (fun call =>
                      call.1 ∈ map (fallback_request url timeout) (attempt :: later)
                      /\ (Z.of_nat call.2 < RETRY_COUNT cfg)%Z)
              (fetches (scrape cfg w (fallback_request url timeout attempt)
                          (RETRY_COUNT cfg)).2)) as Hall'.
    { eapply Forall_impl; [exact Hall|]. cbn. intros call [-> Hlt].
      split; [apply list_elem_of_here|exact Hlt]. }
    destruct (stops_ladder _); cbn [fst snd length].
    + change (fetches (EvScrape ?r :: ?t)) with (fetches t).
      split; [lia|exact Hall'].
    + change (fetches (EvScrape ?r :: ?t)) with (fetches t).
      rewrite fetches_app, length_app.
      match goal with
      | |- context [fallback_loop cfg w url timeout later ?n ?l] =>
          destruct (IH n l) as [Hlen' Hrest]
      end.
      split; [lia|].
      apply Forall_app. split; [exact Hall'|].
      eapply Forall_impl; [exact Hrest|]. cbn. intros call [Hin Hlt].
      split; [apply list_elem_of_further, Hin|exact Hlt].
Qed.

(** X12. For one URL, [scrapeWithFallback] makes at most three times
    [RETRY_COUNT] network calls, each of them for one of the three
    requests of the ladder and with an attempt number below
    [RETRY_COUNT]. *)
Theorem scrapeWithFallback_fetches_bounded (url : string) (timeout : option Z) :
  let calls := fetches (scrapeWithFallback cfg w url timeout).2 in
  (length calls <= 3 * Z.to_nat (RETRY_COUNT cfg))%nat
  /\ Forall (fun call => call.1 ∈ ladder url timeout
                         /\ (Z.of_nat call.2 < RETRY_COUNT cfg)%Z) calls.
Proof. apply (fallback_loop_fetches url timeout fallback_attempts [] None). Qed.

(** X13. A URL that does not parse is turned down by the first rung of
    the ladder: [scrapeWithFallback] returns the invalid-URL response of
    the basic request, tries neither javascript mode and makes no network
    call. *)
Theorem scrapeWithFallback_invalid_url (url : string) (timeout : option Z) :
  url_parses w url = false ->
  scrapeWithFallback cfg w url timeout
  = (mkScrapeResponse ("Invalid URL: " +:+ url) 400 0 None
       (Some (mkStructuredError INVALID_INPUT ("Invalid URL: " +:+ url) false None None)),
     [EvScrape (mkScrapeRequest url (Some basic) timeout None)]).
Proof.
  intros Hurl. unfold scrapeWithFallback, fallback_attempts.
  rewrite fallback_loop_cons. cbn zeta.
  unfold scrape. cbn [fallback_request fa_mode fa_country Scraper.url].
  rewrite Hurl. reflexivity.
Qed.

End FallbackFacts.

Lemma scrapeWithFallback_error_final_witness :
  exists e,
    Scraper.error
      (Scraper.scrapeWithFallback Samples.two_attempts (Samples.always_status 503 "busy")
         "https://example.com" None).1 = Some e
    /\ Errors.retryable e = false.
Proof.
  eexists. split; [reflexivity|].
  eapply (scrapeWithFallback_error_final Samples.two_attempts
            (Samples.always_status 503 "busy") "https://example.com" None).
  reflexivity.
Defined.

Lemma scrapeWithFallback_invalid_url_witness :
  (Scraper.scrapeWithFallback Samples.two_attempts
     (Scraper.mkWorld (String.prefix "http")
        (fun _ _ => Scraper.Response 200 (Returned "<html></html>") []) (fun _ _ => 0%Q))
     "not a url" None).2
  = [Scraper.EvScrape (Scraper.mkScrapeRequest "not a url" (Some Scraper.basic) None None)].
Proof.
  rewrite (scrapeWithFallback_invalid_url Samples.two_attempts
             (Scraper.mkWorld (String.prefix "http")
                (fun _ _ => Scraper.Response 200 (Returned "<html></html>") [])
                (fun _ _ => 0%Q))
             "not a url" None); reflexivity.
Defined.

Section BatchFacts.
Import Errors Scraper ScraperBatch.
Variable cfg : ScraperConfig.
Variable w : World.
Variable timeout : option Z.

Lemma task_returned (url : string) :
  (task cfg w timeout url).1 = Returned (scrapeWithFallback cfg w url timeout).1.
Proof. unfold task. destruct (scrapeWithFallback cfg w url timeout). reflexivity. Qed.

Lemma batchScrape_settle_task (url : string) :
  batchScrape_settle url (task cfg w timeout url).1 = (entry_of cfg w timeout url, false).
Proof.
  rewrite task_returned. cbn [batchScrape_settle]. unfold entry_of. f_equal.
  apply bool_decide_eq_false. intros Hcode.
  destruct (error (scrapeWithFallback cfg w url timeout).1) as [e|] eqn:He;
    [|discriminate].
  apply fallback_loop_error in He as [Hre [Hkind|Hkind]];
    cbn in Hcode; apply (inj Some) in Hcode; rewrite Hcode in Hkind; discriminate.
Qed.

Lemma batchScrape_batch_spec (batchUrls : list string) (allResults : list UrlResponse)
    (hits : nat) :
  batchScrape_batch cfg w timeout (allResults, hits) batchUrls
  = (allResults ++ map (entry_of cfg w timeout) batchUrls, hits).
Proof.
  revert allResults. induction batchUrls as [|url rest IH]; intros allResults.
  - cbn. rewrite app_nil_r. reflexivity.
  - unfold batchScrape_batch in *. cbn [foldl map].
    rewrite batchScrape_settle_task. rewrite IH. rewrite <- app_assoc. reflexivity.
Qed.

Lemma batchScrape_batches_spec (batches : list (list string))
    (allResults : list UrlResponse) (hits : nat) :
  foldl (batchScrape_batch cfg w timeout) (allResults, hits) batches
  = (allResults ++ map (entry_of cfg w timeout) (concat batches), hits).
Proof.
  revert allResults. induction batches as [|batch later IH]; intros allResults.
  - cbn. rewrite app_nil_r. reflexivity.
  - cbn [foldl concat]. rewrite batchScrape_batch_spec, IH, map_app, app_assoc.
    reflexivity.
Qed.

(** X14. The counter [rateLimitHits] of [batchScrape] is zero for every
    list of URLs and every behaviour of the provider: it counts responses
    whose error kind is RATE_LIMITED, and [scrapeWithFallback] never
    returns one. *)
Theorem batchScrape_rateLimitHits_zero (urls : list string) :
  rateLimitHits (batchScrape cfg w timeout urls) = 0%nat.
Proof. unfold batchScrape. rewrite batchScrape_batches_spec. reflexivity. Qed.

Lemma batchScrape_results (urls : list string) :
  (1 <= BATCH_SIZE cfg)%Z ->
  results (batchScrape cfg w timeout urls) = map (entry_of cfg w timeout) urls.
Proof.
  intros Hsize. unfold batchScrape. rewrite batchScrape_batches_spec.
  cbn [results app]. rewrite batchScrape_batches_concat by lia. reflexivity.
Qed.

(** X15. With a batch size of at least one, [scrapeMultiple] and
    [batchScrape] return one entry per input URL, in the order of the
    input, each carrying its URL and the response that
    [scrapeWithFallback] gives for it: the cut into batches and the choice
    between [processBatch] and [batchScrape] do not show in the result. And
    [batchScrape] reports that it attempted all URLs. *)
Theorem scrapeMultiple_in_order (urls : list string) :
  (1 <= BATCH_SIZE cfg)%Z ->
  scrapeMultiple cfg w timeout urls = map (entry_of cfg w timeout) urls
  /\ results (batchScrape cfg w timeout urls) = map (entry_of cfg w timeout) urls
  /\ totalAttempted (batchScrape cfg w timeout urls) = length urls.
Proof.
  intros Hsize. split; [|split; [apply batchScrape_results, Hsize|]].
  - unfold scrapeMultiple.
    destruct (Nat.eqb_spec (length urls) 0) as [Hnil|_].
    + destruct urls; [reflexivity|discriminate].
    + destruct (Z.of_nat (length urls) <=? BATCH_SIZE cfg)%Z.
      * unfold processBatch. apply map_ext. intros url.
        rewrite task_returned. reflexivity.
      * apply batchScrape_results, Hsize.
  - unfold batchScrape. destruct (foldl _ _ _). reflexivity.
Qed.

End BatchFacts.

Lemma scrapeMultiple_in_order_witness :
  map ScraperBatch.ur_url
    (ScraperBatch.scrapeMultiple
       (Scraper.mkScraperConfig 2 [2000; 4000]%Z 2) Samples.javascript_only None
       ["https://a.example"; "https://b.example"; "https://c.example"])
  = ["https://a.example"; "https://b.example"; "https://c.example"].
Proof.
  destruct (scrapeMultiple_in_order
              (Scraper.mkScraperConfig 2 [2000; 4000]%Z 2) Samples.javascript_only None
              ["https://a.example"; "https://b.example"; "https://c.example"])
    as [-> _]; [vm_compute; discriminate|reflexivity].
Defined.

(** ** More on the registry *)

Section RegistryMore.
Import Errors Registry RegistryTools.
Variable imports : Imports.

Lemma lookup_own (name : string) (tool : ToolRegistration) :
  toolRegistry imports !! name = Some tool ->
  lookup_tool imports name = OwnTool tool.
Proof. intros H. unfold lookup_tool. rewrite H. reflexivity. Qed.

(** The five entries of the registry, looked up by name. *)
Lemma toolRegistry_cases (name : string) (tool : ToolRegistration) :
  toolRegistry imports !! name = Some tool ->
  (name, tool) = ("search_reddit",
                  mkToolRegistration "search_reddit" (Some search)
                    (searchRedditParamsSchema imports) (searchRedditHandler imports)
                    None None)
  \/ (name, tool) = ("get_reddit_post",
                     mkToolRegistration "get_reddit_post" (Some reddit)
                       (getRedditPostParamsSchema imports) (getRedditPostHandler imports)
                       None None)
  \/ (name, tool) = ("deep_research",
                     mkToolRegistration "deep_research" (Some deepResearch)
                       (deepResearchParamsSchema imports) (deepResearchHandler imports)
                       None (Some (sentinel "# ❌ Error")))
  \/ (name, tool) = ("scrape_links",
                     mkToolRegistration "scrape_links" (Some scraping)
                       (scrapeLinksParamsSchema imports) (scrapeLinksHandler imports)
                       None (Some (sentinel "# ❌ Scraping Failed")))
  \/ (name, tool) = ("web_search",
                     mkToolRegistration "web_search" (Some search)
                       (webSearchParamsSchema imports) (webSearchHandler imports)
                       None (Some (sentinel "# ❌ web_search"))).
Proof.
  intros H. apply elem_of_list_to_map_2 in H. unfold toolRegistry_entries in H.
  rewrite !elem_of_cons, elem_of_nil in H. tauto.
Qed.

(** X16. [executeTool] runs a handler at most once, only for an own
    entry of the registry, only after the schema of that entry has
    accepted the arguments, and on the value the schema returned: the
    trace of a call is empty, or the validation alone, or the validation
    followed by one handler call on the validated value. *)
Theorem executeTool_validates_before_handler (name : string) (args : JsValue)
    (capabilities : Capabilities) :
  let trace := (executeTool imports name args capabilities).2 in
  trace = []
  \/ trace = [EvValidate name]
  \/ exists tool validated,
       toolRegistry imports !! name = Some tool
       /\ schema tool args = Parsed validated
       /\ trace = [EvValidate name; EvHandler name validated].
Proof.
  unfold executeTool, lookup_tool.
  destruct (toolRegistry imports !! name) as [tool|] eqn:Htool.
  - assert (Registry.name tool = name /\ postValidate tool = None) as [Hname Hpost].
    { apply toolRegistry_cases in Htool.
      destruct Htool as [H|[H|[H|[H|H]]]]; injection H as -> ->; split; reflexivity. }
    unfold execute_registered.
    destruct (match capability tool with
              | Some key => if capability_enabled capabilities key then None else Some key
              | None => None
              end); [left; reflexivity|].
    destruct (schema tool args) as [validated|issues|e] eqn:Hparse.
    + right; right. exists tool, validated.
      split; [reflexivity|]. split; [exact Hparse|].
      unfold post_validate_then_run, run_handler. rewrite Hpost, Hname.
      destruct (handler tool validated); reflexivity.
    + right; left. cbn. rewrite Hname. reflexivity.
    + right; left. cbn. rewrite Hname. reflexivity.
  - destruct (bool_decide _); left; reflexivity.
Qed.

(** X17. When the handler of a tool returns a body, [executeTool] hands
    that body on unchanged as the only content item. The error flag is
    left unset for search_reddit and get_reddit_post, whatever the body
    says; for deep_research, scrape_links and web_search it is set exactly
    when the body contains the error heading of the tool. *)
Theorem executeTool_returned_body (name : string) (tool : ToolRegistration)
    (args validated : JsValue) (capabilities : Capabilities) (body : string) :
  toolRegistry imports !! name = Some tool ->
  (forall key, capability tool = Some key -> capability_enabled capabilities key = true) ->
  schema tool args = Parsed validated ->
  handler tool validated = Returned body ->
  exists flag,
    (executeTool imports name args capabilities).1
    = Returned (mkCallToolResult [mkText body] flag)
    /\ (name = "search_reddit" \/ name = "get_reddit_post" -> flag = None)
    /\ (name = "deep_research" -> flag = Some (JsString.includes body "# ❌ Error"))
    /\ (name = "scrape_links"
        -> flag = Some (JsString.includes body "# ❌ Scraping Failed"))
    /\ (name = "web_search" -> flag = Some (JsString.includes body "# ❌ web_search")).
Proof.
  intros Htool Hcap Hparse Hbody.
  unfold executeTool. rewrite (lookup_own name tool Htool).
  unfold execute_registered.
  assert (match capability tool with
          | Some key => if capability_enabled capabilities key then None else Some key
          | None => None
          end = None) as ->.
  { destruct (capability tool) as [key|]; [|reflexivity].
    rewrite (Hcap key eq_refl). reflexivity. }
  rewrite Hparse.
  apply toolRegistry_cases in Htool.
  destruct Htool as [H|[H|[H|[H|H]]]]; injection H as -> ->;
    unfold post_validate_then_run, run_handler;
    cbn [postValidate handler transformResponse Registry.name] in *;
    rewrite Hbody; cbn [fst]; eexists; (split; [reflexivity|]);
    repeat split; intros; first [reflexivity|discriminate|intuition discriminate].
Qed.

Lemma partition_perm {A : Type} (f : A -> bool) (l : list A) :
  filter (fun x => f x = true) l ++ filter (fun x => f x = false) l ≡ₚ l.
Proof.
  induction l as [|x l IH]; [reflexivity|].
  rewrite !filter_cons. destruct (f x) eqn:Hfx.
  - rewrite decide_True by reflexivity. rewrite decide_False by discriminate.
    cbn. constructor. exact IH.
  - rewrite decide_False by discriminate. rewrite decide_True by reflexivity.
    rewrite <- Permutation_middle. constructor. exact IH.
Qed.

Lemma getToolCapabilities_filters (caps : Capabilities) :
  getToolCapabilities imports caps
  = ((filter (fun entry : string * ToolRegistration => tool_listed caps entry.2 = true)
        (toolRegistry_entries imports)).*1,
     (filter (fun entry : string * ToolRegistration => tool_listed caps entry.2 = false)
        (toolRegistry_entries imports)).*1).
Proof.
  unfold getToolCapabilities.
  assert (forall entries enabled disabled,
            foldl (fun '(enabled, disabled) '(name, tool) =>
                     if tool_listed caps tool then (enabled ++ [name], disabled)
                     else (enabled, disabled ++ [name]))
              (enabled, disabled) entries
            = (enabled ++ (filter (fun entry : string * ToolRegistration => tool_listed caps entry.2 = true) entries).*1,
               disabled
                 ++ (filter (fun entry : string * ToolRegistration => tool_listed caps entry.2 = false) entries).*1))
    as Hfold.
  { induction entries as [|[name tool] entries IH]; intros enabled disabled.
    - cbn. rewrite !app_nil_r. reflexivity.
    - cbn [foldl]. rewrite !filter_cons. cbn [snd].
      destruct (tool_listed caps tool) eqn:Hl.
      + rewrite IH. rewrite decide_True by reflexivity.
        rewrite decide_False by discriminate.
        cbn. rewrite <- app_assoc. reflexivity.
      + rewrite IH. rewrite decide_False by discriminate.
        rewrite decide_True by reflexivity.
        cbn. rewrite <- app_assoc. reflexivity. }
  rewrite Hfold. reflexivity.
Qed.

Lemma registry_names_NoDup : NoDup (toolRegistry_entries imports).*1.
Proof.
  cbn. repeat constructor; rewrite ?elem_of_cons, ?elem_of_nil; intuition congruence.
Qed.

(** X18. [getToolCapabilities] sorts the registered tool names into two
    lists that together hold every name once. A tool listed as disabled
    is one for which [executeTool], under the same capabilities, answers
    every call at the capability gate, with the missing-environment
    message and without validating or running anything; a tool listed as
    enabled gets past the gate to the validation of its arguments. *)
Theorem getToolCapabilities_agrees_with_gate (caps : Capabilities) :
  let enabled := (getToolCapabilities imports caps).1 in
  let disabled := (getToolCapabilities imports caps).2 in
  enabled ++ disabled ≡ₚ getRegisteredToolNames imports
  /\ (forall name args,
        name ∈ disabled ->
        exists key,
          executeTool imports name args caps
          = (Returned (mkCallToolResult [mkText (getMissingEnvMessage imports key)]
                         (Some true)), []))
  /\ (forall name args,
        name ∈ enabled ->
        head (executeTool imports name args caps).2 = Some (EvValidate name)).
Proof.
  cbn zeta. rewrite getToolCapabilities_filters. cbn [fst snd].
  assert (forall name (b : bool),
            name ∈ (filter (fun entry : string * ToolRegistration => tool_listed caps entry.2 = b)
                      (toolRegistry_entries imports)).*1 ->
            exists tool, toolRegistry imports !! name = Some tool
                         /\ tool_listed caps tool = b) as Hlookup.
  { intros name b Hin. apply list_elem_of_fmap in Hin as ([name' tool] & -> & Hin).
    apply list_elem_of_filter in Hin as [Hl Hin]. cbn in Hl.
    exists tool. split; [|exact Hl].
    apply elem_of_list_to_map_1; [apply registry_names_NoDup|exact Hin]. }
  split; [|split].
  - rewrite <- fmap_app. unfold getRegisteredToolNames, registered_names.
    apply fmap_Permutation. apply partition_perm.
  - intros name args Hin. apply Hlookup in Hin as (tool & Htool & Hl).
    unfold tool_listed in Hl.
    destruct (capability tool) as [key|] eqn:Hcap; [|discriminate].
    exists key. unfold executeTool, lookup_tool. rewrite Htool.
    unfold execute_registered. rewrite Hcap, Hl. reflexivity.
  - intros name args Hin. apply Hlookup in Hin as (tool & Htool & Hl).
    assert (Registry.name tool = name) as Hname.
    { apply toolRegistry_cases in Htool.
      destruct Htool as [H|[H|[H|[H|H]]]]; injection H as -> ->; reflexivity. }
    unfold executeTool, lookup_tool. rewrite Htool.
    unfold execute_registered, tool_listed in *.
    assert (match capability tool with
            | Some key => if capability_enabled caps key then None else Some key
            | None => None
            end = None) as ->.
    { destruct (capability tool) as [key|]; [|reflexivity]. rewrite Hl. reflexivity. }
    destruct (schema tool args) as [validated|issues|e];
      [destruct (post_validate_then_run imports tool validated)|..];
      cbn [snd head]; rewrite Hname; reflexivity.
Qed.

End RegistryMore.

Section RegistryNames.
Import Errors Registry RegistryTools.
Variable imports : Imports.

Lemma isToolRegistered_lookup (name : string) :
  isToolRegistered imports name = false <-> lookup_tool imports name = Absent.
Proof.
  unfold isToolRegistered, lookup_tool.
  destruct (toolRegistry imports !! name) as [tool|].
  - rewrite bool_decide_true by (eexists; reflexivity). cbn. split; discriminate.
  - rewrite bool_decide_false by (intros [? [=]]). cbn.
    destruct (bool_decide (name ∈ Object_prototype_keys)); split;
      first [discriminate|reflexivity].
Qed.

(** X19. [isToolRegistered] answers false exactly for the names that the
    request handler rejects with MethodNotFound. It answers true for every
    name of [getRegisteredToolNames], and the only other names it accepts
    are the property names inherited from [Object.prototype]. *)
Theorem isToolRegistered_iff_dispatched (name : string) (args : JsValue)
    (capabilities : Capabilities) :
  (isToolRegistered imports name = false
   <-> exists e, (handleCallTool imports name args capabilities).1 = Threw e)
  /\ (name ∈ getRegisteredToolNames imports -> isToolRegistered imports name = true)
  /\ (isToolRegistered imports name = true /\ name ∉ getRegisteredToolNames imports
      <-> name ∈ Object_prototype_keys).
Proof.
  split; [|split].
  - rewrite isToolRegistered_lookup.
    destruct (lookup_tool imports name) as [tool| |] eqn:Hlookup.
    + assert (toolRegistry imports !! name = Some tool) as Htool.
      { unfold lookup_tool in Hlookup.
        destruct (toolRegistry imports !! name) as [tool'|];
          [congruence|destruct (bool_decide _); discriminate]. }
      destruct (handleCallTool_registered imports name tool args capabilities Htool)
        as [result Hres].
      rewrite Hres. split; [discriminate|intros [? [=]]].
    + unfold handleCallTool, executeTool. rewrite Hlookup.
      cbn. split; [discriminate|intros [? [=]]].
    + unfold handleCallTool, executeTool. rewrite Hlookup.
      cbn. split; [intros _; eexists; reflexivity|reflexivity].
  - intros Hin. apply registered_names_lookup in Hin.
    unfold isToolRegistered. rewrite bool_decide_true by exact Hin. reflexivity.
  - unfold getRegisteredToolNames. rewrite registered_names_lookup.
    unfold isToolRegistered. split.
    + intros [Hreg Hnot]. rewrite bool_decide_false in Hreg by exact Hnot.
      cbn in Hreg. apply bool_decide_eq_true in Hreg. exact Hreg.
    + intros Hproto. split.
      * rewrite (bool_decide_true (name ∈ Object_prototype_keys)) by exact Hproto.
        apply orb_true_r.
      * intros [tool Htool]. apply toolRegistry_cases in Htool.
        unfold Object_prototype_keys in Hproto.
        rewrite !elem_of_cons, elem_of_nil in Hproto.
        destruct Htool as [H|[H|[H|[H|H]]]]; injection H as -> _;
          intuition discriminate.
Qed.

End RegistryNames.

Lemma executeTool_returned_body_witness :
  (Registry.executeTool Samples.accepting_imports "web_search" Registry.VNull
     Samples.all_enabled).1
  = Returned (Registry.mkCallToolResult [Registry.mkText "ok"] (Some false)).
Proof.
  destruct (executeTool_returned_body Samples.accepting_imports "web_search"
              (Registry.mkToolRegistration "web_search" (Some Registry.search)
                 Registry.Parsed (fun _ => Returned "ok") None
                 (Some (Registry.sentinel "# ❌ web_search")))
              Registry.VNull Registry.VNull Samples.all_enabled "ok"
              ltac:(vm_compute; reflexivity)
              ltac:(intros key _; destruct key; reflexivity)
              eq_refl eq_refl) as (flag & Hres & _ & _ & _ & Hweb).
  rewrite Hres, (Hweb eq_refl). reflexivity.
Defined.

(** ** The LLM processor *)

Section LLMFacts.
Import Errors LLM.
Variable extraction : ExtractionConfig.
Variable rand : nat -> Q.
Variable blank : string -> bool.

Lemma extraction_loop_fallback (create : Processor) (content : string)
    (request : ChatRequest) (fuel attempt : nat) (last : option StructuredError) :
  let r := (extraction_loop rand blank create content request fuel attempt last).1 in
  (processed r = false -> LLM.content r = content /\ is_Some (error r))
  /\ (processed r = true ->
      error r = None /\ errorDetails r = None /\ blank (LLM.content r) = false
      /\ exists k, create request k = Returned (Some (LLM.content r))).
Proof.
  revert attempt last. induction fuel as [|fuel IH]; intros attempt last.
  - cbn. split; [intros _; split; [reflexivity|eexists; reflexivity]|discriminate].
  - cbn [extraction_loop].
    destruct (create request attempt) as [[text|]|err] eqn:Hcreate.
    + destruct (negb (String.eqb text "") && negb (blank text)) eqn:Hok; cbn.
      * split; [discriminate|]. intros _.
        apply andb_true_iff in Hok as [_ Hblank]. apply negb_true_iff in Hblank.
        split; [reflexivity|]. split; [reflexivity|]. split; [exact Hblank|].
        exists attempt. exact Hcreate.
      * split; [intros _; split; [reflexivity|eexists; reflexivity]|discriminate].
    + cbn. split; [intros _; split; [reflexivity|eexists; reflexivity]|discriminate].
    + destruct (isRetryableLLMError err && (Z.of_nat attempt <? LLM_maxRetries)%Z).
      * specialize (IH (S attempt) (Some (classifyError (thrown err)))).
        destruct (extraction_loop rand blank create content request fuel (S attempt) _).
        exact IH.
      * cbn. split; [intros _; split; [reflexivity|eexists; reflexivity]|discriminate].
Qed.

(** X20. [processContentWithLLM] degrades to the input: whenever the
    result is not marked processed, its content is the content that was
    passed in, unchanged. A result is marked processed only when
    extraction was requested, the input was not blank, and the content of
    the result is a reply of the LLM to the request built from the input,
    not blank itself; such a result carries no error. *)
Theorem processContentWithLLM_fallback (content : string) (config : ProcessingConfig)
    (processor : option Processor) :
  let r := (processContentWithLLM extraction rand blank content config processor).1 in
  (processed r = false -> LLM.content r = content)
  /\ (processed r = true ->
      use_llm config = true /\ blank content = false
      /\ error r = None /\ errorDetails r = None /\ blank (LLM.content r) = false
      /\ exists create k,
           processor = Some create
           /\ create (build_request extraction config content) k
              = Returned (Some (LLM.content r))).
Proof.
  unfold processContentWithLLM.
  destruct (use_llm config); cbn [negb]; [|cbn; split; [reflexivity|discriminate]].
  destruct processor as [create|]; [|cbn; split; [reflexivity|discriminate]].
  destruct (blank content) eqn:Hblank; [cbn; split; [reflexivity|discriminate]|].
  destruct (extraction_loop_fallback create content
              (build_request extraction config content)
              (Z.to_nat (LLM_maxRetries + 1)) 0 None) as [Hno Hyes].
  split; [intros H; apply Hno, H|].
  intros H. destruct (Hyes H) as (He & Hd & Hb & k & Hk).
  split; [reflexivity|]. split; [reflexivity|]. split; [exact He|].
  split; [exact Hd|]. split; [exact Hb|].
  exists create, k. split; [reflexivity|exact Hk].
Qed.

(** The loop entered at attempt [a] stops with the first call [k] that
    returns or that throws an error not to be retried, at the latest
    with call number [LLM_maxRetries]. *)
Lemma extraction_loop_outcome (create : Processor) (content : string)
    (request : ChatRequest) (fuel a : nat) (last : option StructuredError) :
  (Z.of_nat a + Z.of_nat fuel = LLM_maxRetries + 1)%Z -> (1 <= fuel)%nat ->
  let run := extraction_loop rand blank create content request fuel a last in
  exists k,
    (a <= k)%nat /\ (Z.of_nat k <= LLM_maxRetries)%Z
    /\ (forall j, (a <= j < k)%nat ->
          exists e, create request j = Threw e /\ isRetryableLLMError e = true)
    /\ run.2 = concat (map (fun j => [EvCreate request j;
                                      EvSleep (calculateLLMBackoff j (rand j))])
                         (seq a (k - a)))
               ++ [EvCreate request k]
    /\ ((exists text, create request k = Returned (Some text)
                      /\ text <> "" /\ blank text = false
                      /\ run.1 = mkLLMResult text true None None)
        \/ ((create request k = Returned None
             \/ exists text, create request k = Returned (Some text)
                             /\ (text = "" \/ blank text = true))
            /\ run.1 = empty_response content)
        \/ (exists e, create request k = Threw e
                      /\ (isRetryableLLMError e = false \/ Z.of_nat k = LLM_maxRetries)
                      /\ run.1 = extraction_failed content
                                   (Some (classifyError (thrown e))))).
Proof.
  revert a last. induction fuel as [|fuel IH]; intros a last Hsum Hfuel; [lia|].
  cbn zeta. cbn [extraction_loop].
  assert (forall run : LLMResult * list Event,
            run.2 = [EvCreate request a] ->
            run.2 = concat (map (fun j => [EvCreate request j;
                                           EvSleep (calculateLLMBackoff j (rand j))])
                              (seq a (a - a)))
                    ++ [EvCreate request a]) as Hone.
  { intros run ->. replace (a - a)%nat with 0%nat by lia. reflexivity. }
  assert (Z.of_nat a <= LLM_maxRetries)%Z as Ha by lia.
  destruct (create request a) as [[text|]|err] eqn:Hcreate.
  - destruct (negb (String.eqb text "") && negb (blank text)) eqn:Hok.
    + exists a. split; [lia|]. split; [exact Ha|]. split; [intros j Hj; lia|].
      split; [apply Hone; reflexivity|].
      left. exists text. apply andb_true_iff in Hok as [Hne Hb].
      apply negb_true_iff in Hne, Hb. apply String.eqb_neq in Hne.
      split; [exact Hcreate|]. split; [exact Hne|]. split; [exact Hb|reflexivity].
    + exists a. split; [lia|]. split; [exact Ha|]. split; [intros j Hj; lia|].
      split; [apply Hone; reflexivity|].
      right; left. split; [|reflexivity]. right. exists text. split; [exact Hcreate|].
      apply andb_false_iff in Hok as [Hne|Hb].
      * left. apply negb_false_iff, String.eqb_eq in Hne. exact Hne.
      * right. apply negb_false_iff in Hb. exact Hb.
  - exists a. split; [lia|]. split; [exact Ha|]. split; [intros j Hj; lia|].
    split; [apply Hone; reflexivity|].
    right; left. split; [left; exact Hcreate|reflexivity].
  - destruct (isRetryableLLMError err) eqn:Hre; cbn [andb].
    + destruct (Z.ltb_spec (Z.of_nat a) LLM_maxRetries) as [Hmore|Hlast].
      * destruct (IH (S a) (Some (classifyError (thrown err))))
          as (k & Hak & Hk & Hpre & Htrace & Hres); [lia|lia|].
        destruct (extraction_loop rand blank create content request fuel (S a) _)
          as [result trace].
        cbn [fst snd] in *.
        exists k. split; [lia|]. split; [exact Hk|]. split; [|split].
        -- intros j Hj. destruct (decide (j = a)) as [->|Hne].
           ++ exists err. split; [exact Hcreate|exact Hre].
           ++ apply Hpre. lia.
        -- rewrite Htrace. replace (k - a)%nat with (S (k - S a)) by lia.
           reflexivity.
        -- exact Hres.
      * exists a. split; [lia|]. split; [exact Ha|]. split; [intros j Hj; lia|].
        split; [apply Hone; reflexivity|].
        right; right. exists err. split; [exact Hcreate|]. split; [right; lia|reflexivity].
    + exists a. split; [lia|]. split; [exact Ha|]. split; [intros j Hj; lia|].
      split; [apply Hone; reflexivity|].
      right; right. exists err. split; [exact Hcreate|]. split; [left; exact Hre|reflexivity].
Qed.


End LLMFacts.


Section LLMBatchFacts.
Import Errors LLM.
Variable extraction : ExtractionConfig.
Variable rand : nat -> Q.
Variable blank : string -> bool.

Lemma creates_extraction_loop (create : Processor) (content : string)
    (request : ChatRequest) (fuel a : nat) (last : option StructuredError) :
  exists n,
    (n <= fuel)%nat
    /\ creates (extraction_loop rand blank create content request fuel a last).2
       = map (pair request) (seq a n).
Proof.
  revert a last. induction fuel as [|fuel IH]; intros a last.
  - exists 0%nat. split; [lia|reflexivity].
  - cbn [extraction_loop].
    assert (exists n, (n <= S fuel)%nat
                      /\ creates [EvCreate request a] = map (pair request) (seq a n))
      as Hone by (exists 1%nat; split; [lia|reflexivity]).
    destruct (create request a) as [[text|]|err]; [|exact Hone|].
    + destruct (negb _ && negb _); exact Hone.
    + destruct (isRetryableLLMError err && _); [|exact Hone].
      destruct (IH (S a) (Some (classifyError (thrown err)))) as (n & Hn & Hcalls).
      destruct (extraction_loop rand blank create content request fuel (S a) _)
        as [result trace].
      cbn [snd] in *. exists (S n). split; [lia|].
      cbn. f_equal. exact Hcalls.
Qed.

(** X22. For one content, [processContentWithLLM] calls the LLM at most
    four times, always with the request built from the content and the
    configuration, the calls being numbered from 0 without gap. It makes
    no call when extraction is not requested, when there is no processor,
    or when the content is blank. *)
Theorem processContentWithLLM_calls (content : string) (config : ProcessingConfig)
    (processor : option Processor) :
  let trace := (processContentWithLLM extraction rand blank content config processor).2 in
  exists n,
    (n <= 4)%nat
    /\ creates trace = map (pair (build_request extraction config content)) (seq 0 n)
    /\ (use_llm config = false \/ processor = None \/ blank content = true -> trace = []).
Proof.
  unfold processContentWithLLM.
  destruct (use_llm config); cbn [negb];
    [|exists 0%nat; split; [lia|split; reflexivity]].
  destruct processor as [create|];
    [|exists 0%nat; split; [lia|split; reflexivity]].
  destruct (blank content);
    [exists 0%nat; split; [lia|split; reflexivity]|].
  destruct (creates_extraction_loop create content
              (build_request extraction config content)
              (Z.to_nat (LLM_maxRetries + 1)) 0 None) as (n & Hn & Hcalls).
  exists n. split; [exact Hn|]. split; [exact Hcalls|].
  intros [H|[H|H]]; discriminate.
Qed.

Lemma Forall2_concat_batches {A B : Type} (R : A -> B -> Prop) (f : A -> B)
    (batches : list (list A)) :
  (forall x, R x (f x)) ->
  Forall2 R (concat batches) (concat (map (map f) batches)).
Proof.
  intros HR. rewrite <- (concat_map f batches).
  induction (concat batches) as [|x l IH]; cbn; constructor; [apply HR|exact IH].
Qed.


End LLMBatchFacts.


(** ** More on the Reddit comment listing *)

Section RedditMore.
Import Reddit RedditListing.
Variable postAuthor : string.

(** X24. Asking [getPost] for fewer comments gives a prefix of what it
    returns for more: the first [m] comments do not depend on how many
    more are asked for. Asking for none, or for a negative number, gives
    the empty list. *)
Theorem extract_comments_prefix (m m' : nat) (maxComments : Z) (children : list Thing) :
  ((m <= m')%nat ->
   extract_comments (Z.of_nat m) postAuthor children
   = take m (extract_comments (Z.of_nat m') postAuthor children))
  /\ ((maxComments <= 0)%Z -> extract_comments maxComments postAuthor children = []).
Proof.
  split.
  - intros Hle. rewrite !(extract_comments_listing postAuthor), !ceiling_of_nat, take_take.
    replace (m `min` m')%nat with m by lia. reflexivity.
  - intros Hle. rewrite (extract_comments_listing postAuthor), Qceiling_Z.
    replace (Z.to_nat maxComments) with 0%nat by lia. apply take_0.
Qed.

Lemma sum_perm (f : Thing -> nat) (l l' : list Thing) :
  l ≡ₚ l' -> foldr Nat.add 0%nat (map f l) = foldr Nat.add 0%nat (map f l').
Proof. induction 1; cbn; lia. Qed.

Lemma length_concat_map (f : Thing -> list Comment) (g : Thing -> nat) (l : list Thing) :
  Forall (fun c => length (f c) = g c) l ->
  length (concat (map f l)) = foldr Nat.add 0%nat (map g l).
Proof.
  induction 1 as [|c l Hc _ IH]; [reflexivity|].
  cbn. rewrite length_app, Hc, IH. reflexivity.
Qed.

Lemma visible_unfold (c : Thing) :
  visible c = if skipped c then 0%nat else S (visible_forest (thing_replies c)).
Proof. destruct c. reflexivity. Qed.

(** The full listing of a tree has one entry for each visible comment. *)
Lemma length_preorder_sorted (c : Thing) :
  forall d, length (preorder postAuthor d (sort_tree c)) = visible c.
Proof.
  induction c as [k a b s replies IH] using Thing_forest_ind. intros d.
  rewrite preorder_sort_tree, visible_unfold.
  destruct (skipped (mkThing k a b s replies)); [reflexivity|].
  cbn [length thing_replies]. f_equal.
  rewrite preorder_sort_forest. unfold visible_forest.
  rewrite <- (sum_perm visible _ _ (sort_desc_perm thing_score replies)).
  apply length_concat_map.
  rewrite (sort_desc_perm thing_score replies).
  eapply Forall_impl; [exact IH|]. intros c Hc. apply Hc.
Qed.

Lemma length_listing (d : nat) (children : list Thing) :
  length (preorder_forest postAuthor d (sort_forest children)) = visible_forest children.
Proof.
  rewrite preorder_sort_forest. unfold visible_forest.
  rewrite <- (sum_perm visible _ _ (sort_desc_perm thing_score children)).
  apply length_concat_map. apply Forall_forall. intros c _.
  apply length_preorder_sorted.
Qed.

(** X25. [getPost] returns as many comments as were asked for, or all
    visible comments of the tree when there are fewer: no comment is lost
    to the sorting, to the recursion or to the early returns. A comment is
    visible when neither it nor one of its ancestors has a deleted or
    missing author or a kind other than t1. The count asked for is a
    number: for one that is not whole the next whole number of comments
    is returned, and for one that is not positive none. *)
Theorem extract_comments_count (maxComments : Q) (children : list Thing) :
  length (extract_comments maxComments postAuthor children)
  = Nat.min (Z.to_nat (Qceiling maxComments)) (visible_forest children)
  /\ forall m : nat,
       length (extract_comments (Z.of_nat m) postAuthor children)
       = Nat.min m (visible_forest children).
Proof.
  assert (forall q : Q,
            length (extract_comments q postAuthor children)
            = Nat.min (Z.to_nat (Qceiling q)) (visible_forest children)) as Hcount.
  { intros q. rewrite (extract_comments_listing postAuthor), length_take, length_listing.
    reflexivity. }
  split; [apply Hcount|].
  intros m. rewrite Hcount, ceiling_of_nat. reflexivity.
Qed.

End RedditMore.

Lemma extract_comments_prefix_witness :
  Reddit.extract_comments 2 "a" Samples.thread
  = take 2 (Reddit.extract_comments 5 "a" Samples.thread)
  /\ Reddit.extract_comments (-1) "a" Samples.thread = [].
Proof.
  destruct (extract_comments_prefix "a" 2 5 (-1) Samples.thread) as [Hprefix Hnone].
  split; [apply Hprefix; lia|apply Hnone; lia].
Defined.

(** ** Shutdown *)

Section ShutdownFacts.
Import Shutdown.

Lemma closes_app (a b : list Effect) : closes (a ++ b) = (closes a + closes b)%nat.
Proof. unfold closes. rewrite List.filter_app, length_app. reflexivity. Qed.

Lemma exits_app (a b : list Effect) : exits (a ++ b) = exits a ++ exits b.
Proof. unfold exits. apply omap_app. Qed.

Lemma run_ended (st : State) (inputs : list Input) :
  alive st = false -> run st inputs = (st, []).
Proof.
  intros Hdead. induction inputs as [|i later IH]; [reflexivity|].
  cbn [run]. unfold step. rewrite Hdead. cbn [negb]. rewrite IH. reflexivity.
Qed.

(** Once [server.close()] is awaited, no trigger starts a second
    shutdown, and the process exits with the code of the call that
    awaits. *)
Lemma run_awaiting (st : State) (inputs : list Input) (c : Z) :
  isShuttingDown st = true -> awaiting_close st = Some c -> alive st = true ->
  let effects := (run st inputs).2 in
  closes effects = 0%nat /\ (exits effects = [] \/ exits effects = [c]).
Proof.
  revert st. induction inputs as [|i later IH]; intros st Hflag Hwait Halive.
  - cbn. split; [reflexivity|left; reflexivity].
  - cbn zeta. cbn [run]. unfold step. rewrite Halive. cbn [negb].
    destruct i as [t|resolved].
    + assert (forall st', isShuttingDown st' = true -> awaiting_close st' = Some c ->
                alive st' = true ->
                let out := (let '(final, effects') := run st' later in
                            (final, [EvLog] ++ effects')) in
                closes out.2 = 0%nat /\ (exits out.2 = [] \/ exits out.2 = [c])) as Hlog.
      { intros st' H1 H2 H3. specialize (IH st' H1 H2 H3). cbn zeta in IH.
        destruct (run st' later) as [final effects']. cbn [snd] in *.
        rewrite closes_app, exits_app. exact IH. }
      destruct t; unfold gracefulShutdown; cbn [isShuttingDown];
        rewrite ?Hflag; try (apply Hlog; assumption).
      destruct (sigint_listener st).
      * apply Hlog; first [reflexivity|assumption].
      * rewrite run_ended by reflexivity. cbn. split; [reflexivity|left; reflexivity].
    + unfold resume_after_close. rewrite Hwait.
      rewrite run_ended by reflexivity.
      cbn. split; [reflexivity|right; reflexivity].
Qed.

Lemma run_idle (st : State) (inputs : list Input) :
  isShuttingDown st = false -> awaiting_close st = None -> sigint_listener st = true ->
  alive st = true ->
  let effects := (run st inputs).2 in
  match first_trigger inputs with
  | None => effects = []
  | Some t =>
      closes effects = 1%nat /\ (exits effects = [] \/ exits effects = [exit_code_of t])
  end.
Proof.
  revert st. induction inputs as [|i later IH]; intros st Hflag Hwait Hint Halive.
  - reflexivity.
  - cbn zeta. cbn [run]. unfold step. rewrite Halive. cbn [negb].
    destruct i as [t|resolved].
    + change (first_trigger (Fire t :: later)) with (Some t).
      assert (forall listener,
                let out :=
                  (let '(final, effects') :=
                     run (mkState true (Some (exit_code_of t)) listener true) later in
                   (final, [EvLog; EvClose] ++ effects')) in
                closes out.2 = 1%nat
                /\ (exits out.2 = [] \/ exits out.2 = [exit_code_of t])) as Hstart.
      { intros listener.
        pose proof (run_awaiting (mkState true (Some (exit_code_of t)) listener true)
                      later (exit_code_of t) eq_refl eq_refl eq_refl) as Hrest.
        cbn zeta in *.
        destruct (run _ later) as [final effects']. cbn [snd] in *.
        rewrite closes_app, exits_app. destruct Hrest as [-> Hex].
        split; [reflexivity|exact Hex]. }
      destruct t; unfold gracefulShutdown; cbn [isShuttingDown];
        rewrite ?Hflag, ?Halive; try apply Hstart.
      rewrite Hint. cbn [isShuttingDown sigint_listener alive]. apply (Hstart false).
    + unfold resume_after_close. rewrite Hwait.
      change (first_trigger (CloseSettled resolved :: later)) with (first_trigger later).
      specialize (IH st Hflag Hwait Hint Halive). cbn zeta in IH.
      destruct (run st later) as [final effects']. exact IH.
Qed.

(** X26. Shutdown is idempotent. Whatever sequence of fatal errors,
    termination signals and settlings of [server.close()] the process
    meets, [server.close()] is called at most once, and it is called
    exactly when there is a trigger; [process.exit] is called at most
    once; and when it is called, the exit code is that of the first
    trigger (1 for an uncaught exception or an unhandled rejection, 0 for
    SIGTERM and SIGINT), whether the server closed cleanly or not. Without
    any trigger nothing happens. *)
Theorem gracefulShutdown_once (inputs : list Input) :
  let effects := (run initial inputs).2 in
  (closes effects <= 1)%nat
  /\ (closes effects = 1%nat <-> is_Some (first_trigger inputs))
  /\ (exits effects = []
      \/ exists t, first_trigger inputs = Some t /\ exits effects = [exit_code_of t]).
Proof.
  pose proof (run_idle initial inputs eq_refl eq_refl eq_refl eq_refl) as H.
  cbn zeta in *. destruct (first_trigger inputs) as [t|].
  - destruct H as [Hclose Hexit]. split; [lia|]. split.
    + split; [intros _; eexists; reflexivity|intros _; exact Hclose].
    + destruct Hexit as [Hexit|Hexit]; [left; exact Hexit|].
      right. exists t. split; [reflexivity|exact Hexit].
  - rewrite H. cbn. split; [lia|]. split.
    + split; [discriminate|intros [? [=]]].
    + left. reflexivity.
Qed.

End ShutdownFacts.

(** ** Batches of operations with retry *)

Section RetryBatchFacts.
Import Errors Retry RetryBatch Totals.
Context {T R : Type}.
Variable processor : T -> nat -> nat -> Outcome JsThrown R.
Variable fullConfig : BatchConfig.

Lemma slice_indexed (items : list T) (startIdx endIdx : nat) :
  imap (fun localIdx item => ((startIdx + localIdx)%nat, item))
    (Fanout.slice items startIdx endIdx)
  = Fanout.slice (imap pair items) startIdx endIdx.
Proof.
  unfold Fanout.slice. apply list_eq. intros i.
  rewrite list_lookup_imap, !lookup_take.
  destruct (decide (i < endIdx - startIdx)%nat); [|reflexivity].
  rewrite !lookup_drop, list_lookup_imap. reflexivity.
Qed.

Lemma Zsum_app (l1 l2 : list Z) : Zsum (l1 ++ l2) = (Zsum l1 + Zsum l2)%Z.
Proof.
  unfold Zsum. induction l1 as [|z l1 IH]; cbn [app foldr]; [reflexivity|].
  rewrite IH. lia.
Qed.

Lemma natsum_app (l1 l2 : list nat) :
  foldr Nat.add 0%nat (l1 ++ l2)
  = (foldr Nat.add 0%nat l1 + foldr Nat.add 0%nat l2)%nat.
Proof.
  induction l1 as [|n l1 IH]; cbn [app foldr]; [reflexivity|]. rewrite IH. lia.
Qed.

Lemma foldl_settle (tasks : list (nat * T)) (acc : BatchResult R) :
  let out := foldl (settle processor fullConfig) acc tasks in
  results out
  = results acc
      ++ map (fun task => mkItemResult (Z.of_nat task.1)
                            (run_item processor fullConfig task.2 task.1).1) tasks
  /\ totalAttempts out
     = (totalAttempts acc
        + Zsum (map (fun task => attempts (run_item processor fullConfig task.2 task.1).1)
                  tasks))%Z
  /\ rateLimitHits out
     = (rateLimitHits acc
        + foldr Nat.add 0 (map (fun task => item_hits processor fullConfig task.2 task.1)
                             tasks))%nat.
Proof.
  revert acc. induction tasks as [|[i item] tasks IH]; intros acc.
  - cbn [foldl map concat]. rewrite app_nil_r. unfold Zsum. cbn [foldr].
    split; [reflexivity|]. split; lia.
  - cbn [foldl]. specialize (IH (settle processor fullConfig acc (i, item))).
    cbn zeta in *. destruct IH as (Hres & Hatt & Hhits).
    rewrite Hres, Hatt, Hhits. cbn [settle results totalAttempts rateLimitHits map fst snd].
    unfold Zsum. cbn [foldr].
    split; [rewrite <- app_assoc; reflexivity|]. split; lia.
Qed.

Lemma foldl_batch_step (items : list T) (totalBatches size : nat) (nums : list nat)
    (acc : BatchResult R) :
  let tasks :=
    concat (map (fun batchNum =>
                   Fanout.slice (imap pair items) (batchNum * size)
                     (Nat.min (batchNum * size + size) (length (imap pair items))))
              nums) in
  let out := foldl (batch_step processor fullConfig items totalBatches size) acc nums in
  results out
  = results acc
      ++ map (fun task => mkItemResult (Z.of_nat task.1)
                            (run_item processor fullConfig task.2 task.1).1) tasks
  /\ totalAttempts out
     = (totalAttempts acc
        + Zsum (map (fun task => attempts (run_item processor fullConfig task.2 task.1).1)
                  tasks))%Z
  /\ rateLimitHits out
     = (rateLimitHits acc
        + foldr Nat.add 0 (map (fun task => item_hits processor fullConfig task.2 task.1)
                             tasks))%nat.
Proof.
  revert acc. induction nums as [|batchNum nums IH]; intros acc.
  - cbn [foldl map concat]. rewrite app_nil_r. unfold Zsum. cbn [foldr].
    split; [reflexivity|]. split; lia.
  - cbn [foldl map concat].
    specialize (IH (batch_step processor fullConfig items totalBatches size acc batchNum)).
    cbn zeta in *. destruct IH as (Hres & Hatt & Hhits).
    rewrite Hres, Hatt, Hhits. clear Hres Hatt Hhits.
    destruct (foldl_settle
                (Fanout.slice (imap pair items) (batchNum * size)
                   (Nat.min (batchNum * size + size) (length (imap pair items)))) acc)
      as (Hres & Hatt & Hhits).
    assert (results (batch_step processor fullConfig items totalBatches size acc batchNum)
            = results (foldl (settle processor fullConfig) acc
                         (Fanout.slice (imap pair items) (batchNum * size)
                            (Nat.min (batchNum * size + size)
                               (length (imap pair items)))))
            /\ totalAttempts
                 (batch_step processor fullConfig items totalBatches size acc batchNum)
               = totalAttempts (foldl (settle processor fullConfig) acc
                                  (Fanout.slice (imap pair items) (batchNum * size)
                                     (Nat.min (batchNum * size + size)
                                        (length (imap pair items)))))
            /\ rateLimitHits
                 (batch_step processor fullConfig items totalBatches size acc batchNum)
               = rateLimitHits (foldl (settle processor fullConfig) acc
                                  (Fanout.slice (imap pair items) (batchNum * size)
                                     (Nat.min (batchNum * size + size)
                                        (length (imap pair items))))))
      as (-> & -> & ->).
    { unfold batch_step. rewrite slice_indexed, length_imap.
      destruct (S batchNum <? totalBatches)%nat; split; try split; reflexivity. }
    rewrite Hres, Hatt, Hhits. rewrite !map_app, Zsum_app, natsum_app.
    split; [rewrite <- app_assoc; reflexivity|]. split; lia.
Qed.


End RetryBatchFacts.


Section ExhaustedLadder.
Import Errors Scraper.
Variable cfg : ScraperConfig.
Variable w : World.

Lemma scrapes_of_round (request : ScrapeRequest) (maxRetries : Z) (rest : list Event) :
  scrapes_of (EvScrape request :: (scrape cfg w request maxRetries).2 ++ rest)
  = request :: scrapes_of rest.
Proof.
  unfold scrapes_of. cbn [omap list_omap]. rewrite omap_app.
  fold (scrapes_of (scrape cfg w request maxRetries).2).
  rewrite scrapes_of_scrape. reflexivity.
Qed.

(** X28. When none of the three requests of the ladder gives a result
    that ends it, [scrapeWithFallback] has handed exactly the three
    requests to [scrape], in order, and returns the summary of the
    exhausted ladder: the content and the error message list the failure
    of each mode in turn, the error is SERVICE_UNAVAILABLE and not
    retryable, no credit is charged, and the status is that of the third
    result (500 when that is 0). *)
Theorem scrapeWithFallback_exhausted (url : string) (timeout : option Z) :
  let results :=
    map (fun request => (scrape cfg w request (RETRY_COUNT cfg)).1) (ladder url timeout) in
  Forall (fun r => stops_ladder r = false) results ->
  let run := scrapeWithFallback cfg w url timeout in
  run.1 = all_fallbacks_failed (zip_with failure_note fallback_attempts results)
            (last results)
  /\ scrapes_of run.2 = ladder url timeout
  /\ (exists e, error run.1 = Some e /\ code e = SERVICE_UNAVAILABLE
                /\ retryable e = false)
  /\ credits run.1 = 0%Z
  /\ statusCode run.1 = default 500%Z (num_truthy (statusCode <$> last results)).
Proof.
  intros results Hall run.
  assert (run.1 = all_fallbacks_failed (zip_with failure_note fallback_attempts results)
                    (last results)
          /\ scrapes_of run.2 = ladder url timeout) as [Hres Htrace].
  { subst run results. unfold scrapeWithFallback, ladder, fallback_attempts in *.
    cbn [map] in Hall.
    apply Forall_cons in Hall as [H1 Hall]. apply Forall_cons in Hall as [H2 Hall].
    apply Forall_cons in Hall as [H3 _].
    rewrite !fallback_loop_cons. cbn zeta. rewrite H1. cbn [fst snd].
    rewrite H2. cbn [fst snd]. rewrite H3. cbn [fst snd fallback_loop].
    split; [reflexivity|].
    rewrite !scrapes_of_round. reflexivity. }
  split; [exact Hres|]. split; [exact Htrace|]. rewrite Hres.
  split; [eexists; split; [reflexivity|split; reflexivity]|].
  split; reflexivity.
Qed.

End ExhaustedLadder.

Lemma scrapeWithFallback_exhausted_witness :
  Scraper.scrapes_of
    (Scraper.scrapeWithFallback Samples.two_attempts (Samples.always_status 503 "busy")
       "https://example.com" None).2
  = Scraper.ladder "https://example.com" None.
Proof.
  refine (proj1 (proj2 (scrapeWithFallback_exhausted Samples.two_attempts
                          (Samples.always_status 503 "busy") "https://example.com" None
                          _))).
  repeat constructor.
Defined.

(** ** The deep research handler *)

Section ResearchFacts.
Import Errors Research Totals.
Variable w : World.

Lemma prefix_append (needle rest : string) : String.prefix needle (needle +:+ rest) = true.
Proof.
  induction needle as [|c needle IH]; [destruct rest; reflexivity|].
  change (String c needle +:+ rest) with (String c (needle +:+ rest)).
  cbn [String.prefix].
  destruct (ascii_dec c c) as [_|Hne]; [exact IH|contradiction].
Qed.

Lemma includes_prefix (needle rest : string) :
  JsString.includes (needle +:+ rest) needle = true.
Proof.
  destruct (needle +:+ rest) eqn:Heq; cbn [JsString.includes]; rewrite <- Heq;
    rewrite prefix_append; reflexivity.
Qed.


Lemma filter_partition_length {A : Type} (f : A -> bool) (l : list A) :
  (length (List.filter f l) + length (List.filter (fun x => negb (f x)) l))%nat = length l.
Proof.
  induction l as [|x l IH]; [reflexivity|].
  cbn [List.filter]. destruct (f x); cbn [negb length]; lia.
Qed.

Lemma research_one_question (t : Z) (i : nat) (q : Question) :
  qr_question (research_one w t i q).1 = question q
  /\ rq_maxTokens (research_one w t i q).2 = t.
Proof.
  unfold research_one. cbn [fst snd]. split; [|reflexivity].
  destruct (research w _ i) as [response|e]; [|reflexivity].
  destruct (rs_error response); reflexivity.
Qed.

Lemma Zsum_const (t : Z) (l : list Z) :
  Forall (fun z => z = t) l -> Zsum l = (Z.of_nat (length l) * t)%Z.
Proof.
  unfold Zsum. induction 1 as [|z l -> _ IH]; [reflexivity|].
  cbn [foldr length]. rewrite IH. lia.
Qed.


End ResearchFacts.



(** ** Progress along the ladder of the scraper *)

Section LadderProgress.
Import Errors Scraper ScraperBatch.
Variable cfg : ScraperConfig.
Variable w : World.

Lemma retried_reply_retryable_status (status : Z) (text : Outcome string string)
    (hdrs : list (string * string)) :
  status ∈ RETRYABLE_STATUS_CODES -> retried_reply (Response status text hdrs) = true.
Proof.
  unfold RETRYABLE_STATUS_CODES. rewrite !elem_of_cons, elem_of_nil.
  intros [->|[->|[->|[->|[->|[]]]]]]; reflexivity.
Qed.

Lemma retried_reply_terminal_status (status : Z) (text : Outcome string string)
    (hdrs : list (string * string)) :
  (200 <= status < 300)%Z \/ status = 404%Z \/ status ∈ PERMANENT_FAILURE_CODES ->
  retried_reply (Response status text hdrs) = false.
Proof.
  intros [Hok|[->|Hperm]]; cbn [retried_reply].
  - apply ok_spec in Hok. rewrite Hok. reflexivity.
  - destruct (ok 404); reflexivity.
  - apply has_spec in Hperm. rewrite Hperm.
    destruct (ok status), (status =? 404)%Z; reflexivity.
Qed.

(** The retry loop entered at attempt [a] with at least one iteration
    left makes the calls [a .. a + k]: the replies to the calls before
    the last are retried replies, the reply to the last is none or no
    attempt remains, and the result is that of the iteration of the last
    call. *)
Lemma scrape_from_run (request : ScrapeRequest) (c maxRetries : Z) (fuel : nat) :
  forall (a : nat) (last : option StructuredError),
    S fuel = Z.to_nat (maxRetries - Z.of_nat a) ->
    let out := scrape_from cfg w request c maxRetries (S fuel) a last in
    exists k last',
      (k <= fuel)%nat
      /\ fetches out.2 = map (pair request) (seq a (S k))
      /\ (forall j, (a <= j < a + k)%nat -> retried_reply (net w request j) = true)
      /\ (retried_reply (net w request (a + k)) = false
          \/ Z.of_nat (a + k + 1) = maxRetries)
      /\ out.1 = (scrape_from cfg w request c maxRetries (S (fuel - k)) (a + k) last').1.
Proof.
  induction fuel as [|fuel IH]; intros a last Hfuel out.
  - exists 0%nat, last. split; [lia|].
    assert ((Z.of_nat a <? maxRetries - 1)%Z = false) as Hmore by (apply Z.ltb_ge; lia).
    split; [|split; [intros j Hj; lia|split; [right; lia|]]].
    + subst out. cbn [scrape_from]. cbv zeta. rewrite Hmore.
      destruct (net w request a) as [status text hdrs|thrown].
      * destruct (ok status); [reflexivity|].
        destruct (status =? 404)%Z; [reflexivity|].
        destruct (has PERMANENT_FAILURE_CODES status); [reflexivity|].
        rewrite andb_false_r. cbn [andb]. reflexivity.
      * destruct (retryable (classifyError thrown)); reflexivity.
    + rewrite Nat.add_0_r. reflexivity.
  - assert ((Z.of_nat a <? maxRetries - 1)%Z = true) as Hmore by (apply Z.ltb_lt; lia).
    remember (S fuel) as fuel1 eqn:Hfuel1.
    assert (forall last1,
              retried_reply (net w request a) = true ->
              let next := scrape_from cfg w request c maxRetries fuel1 (S a) last1 in
              forall delay,
              exists k last',
                (k <= fuel1)%nat
                /\ fetches (EvFetch request a :: EvSleep delay :: next.2)
                   = map (pair request) (seq a (S k))
                /\ (forall j, (a <= j < a + k)%nat ->
                      retried_reply (net w request j) = true)
                /\ (retried_reply (net w request (a + k)) = false
                    \/ Z.of_nat (a + k + 1) = maxRetries)
                /\ next.1 = (scrape_from cfg w request c maxRetries (S (fuel1 - k))
                               (a + k) last').1) as Hnext.
    { intros last1 Hretried next delay.
      destruct (IH (S a) last1 ltac:(lia)) as (k & last' & Hk & Hf & Hpre & Hend & Hres).
      cbv zeta in Hf, Hres. rewrite <- ?Hfuel1 in Hf, Hres. fold next in Hf, Hres.
      exists (S k), last'. split; [lia|]. split; [|split; [|split]].
      - cbn. f_equal. exact Hf.
      - intros j Hj. destruct (decide (j = a)) as [->|Hne]; [exact Hretried|].
        apply Hpre. lia.
      - replace (a + S k)%nat with (S a + k)%nat by lia. exact Hend.
      - replace (a + S k)%nat with (S a + k)%nat by lia.
        replace (fuel1 - S k)%nat with (fuel - k)%nat by lia. exact Hres. }
    assert (retried_reply (net w request a) = false ->
            out.2 = [EvFetch request a] ->
            exists k last',
              (k <= fuel1)%nat
              /\ fetches out.2 = map (pair request) (seq a (S k))
              /\ (forall j, (a <= j < a + k)%nat -> retried_reply (net w request j) = true)
              /\ (retried_reply (net w request (a + k)) = false
                  \/ Z.of_nat (a + k + 1) = maxRetries)
              /\ out.1 = (scrape_from cfg w request c maxRetries (S (fuel1 - k))
                            (a + k) last').1) as Hstop.
    { intros Hnot Htrace. exists 0%nat, last. split; [lia|]. rewrite Htrace.
      split; [reflexivity|]. split; [intros j Hj; lia|].
      rewrite Nat.add_0_r, Nat.sub_0_r. split; [left; exact Hnot|reflexivity]. }
    subst out. cbn [scrape_from] in *. cbv zeta in *. rewrite Hmore in *.
    destruct (net w request a) as [status text hdrs|thrown] eqn:Hnet.
    + cbn [retried_reply] in *.
      destruct (ok status) eqn:Hok; [apply Hstop; reflexivity|].
      destruct (status =? 404)%Z eqn:H404; [apply Hstop; reflexivity|].
      destruct (has PERMANENT_FAILURE_CODES status) eqn:Hperm;
        [apply Hstop; reflexivity|].
      cbn [negb andb] in *. rewrite andb_true_r.
      destruct (has RETRYABLE_STATUS_CODES status) eqn:Hretry.
      { match goal with
        | |- context [scrape_from cfg w request c maxRetries fuel1 (S a) ?l'] =>
            specialize (Hnext l' eq_refl); cbv zeta in Hnext;
            destruct (scrape_from cfg w request c maxRetries fuel1 (S a) l')
        end.
        apply Hnext. }
      cbn [orb] in *.
      match goal with
      | |- context [retryable ?e] => destruct (retryable e) eqn:Hclass
      end; [|apply Hstop; reflexivity].
      match goal with
      | |- context [scrape_from cfg w request c maxRetries fuel1 (S a) ?l'] =>
          specialize (Hnext l' eq_refl); cbv zeta in Hnext;
          destruct (scrape_from cfg w request c maxRetries fuel1 (S a) l')
      end.
      apply Hnext.
    + cbn [retried_reply] in *.
      destruct (retryable (classifyError thrown)) eqn:Hclass; cbn [negb];
        [|apply Hstop; reflexivity].
      specialize (Hnext (Some (classifyError thrown)) eq_refl). cbv zeta in Hnext.
      destruct (scrape_from cfg w request c maxRetries fuel1 (S a) _).
      apply Hnext.
Qed.


(** The calls of [scrape] for a request whose URL parses, with at least
    one attempt allowed. *)
Lemma scrape_run (request : ScrapeRequest) (maxRetries : Z) :
  url_parses w (url request) = true -> (1 <= maxRetries)%Z ->
  let out := scrape cfg w request maxRetries in
  exists k last' fuel credits,
    (Z.of_nat k < maxRetries)%Z
    /\ fetches out.2 = map (pair request) (seq 0 (S k))
    /\ (forall j, (j < k)%nat -> retried_reply (net w request j) = true)
    /\ (retried_reply (net w request k) = false \/ Z.of_nat (k + 1) = maxRetries)
    /\ out.1 = (scrape_from cfg w request credits maxRetries (S fuel) k last').1.
Proof.
  intros Hurl Hmax out. subst out. unfold scrape. rewrite Hurl. cbn [negb].
  destruct (Z.to_nat maxRetries) as [|fuel] eqn:Hfuel; [lia|].
  destruct (scrape_from_run request
              (if decide (mode request = Some javascript) then 5%Z else 1%Z)
              maxRetries fuel 0 None ltac:(lia))
    as (k & last' & Hk & Hf & Hpre & Hend & Hres).
  exists k, last', (fuel - k)%nat,
    (if decide (mode request = Some javascript) then 5%Z else 1%Z).
  split; [lia|]. split; [exact Hf|]. split; [intros j Hj; apply Hpre; lia|].
  split; [exact Hend|exact Hres].
Qed.

Lemma scrape_no_call (request : ScrapeRequest) (maxRetries : Z) :
  url_parses w (url request) = false \/ (maxRetries <= 0)%Z ->
  fetches (scrape cfg w request maxRetries).2 = [].
Proof.
  intros Hno. unfold scrape.
  destruct (url_parses w (url request)); cbn [negb]; [|reflexivity].
  destruct Hno as [?|Hmax]; [discriminate|].
  replace (Z.to_nat maxRetries) with 0%nat by lia. reflexivity.
Qed.

(** What follows a call of [scrape] that was answered: nothing after a
    reply with a 2xx, 404 or permanent status, whose result ends the
    ladder; the next call after a reply with a status of
    [RETRYABLE_STATUS_CODES], while attempts remain. *)
Lemma scrape_after_reply (request : ScrapeRequest) (maxRetries : Z) (j : nat)
    (status : Z) (text : Outcome string string) (hdrs : list (string * string)) :
  let out := scrape cfg w request maxRetries in
  (request, j) ∈ fetches out.2 ->
  net w request j = Response status text hdrs ->
  ((200 <= status < 300)%Z \/ status = 404%Z \/ status ∈ PERMANENT_FAILURE_CODES ->
   ((request, S j) ∉ fetches out.2)
   /\ statusCode out.1 = status
   /\ stops_ladder out.1 = true
   /\ (status ∈ PERMANENT_FAILURE_CODES ->
       exists e, error out.1 = Some e /\ retryable e = false
                 /\ code e = if (status =? 401)%Z then AUTH_ERROR else INVALID_INPUT))
  /\ (status ∈ RETRYABLE_STATUS_CODES -> (Z.of_nat (S j) < maxRetries)%Z ->
      (request, S j) ∈ fetches out.2).
Proof.
  intros out Hcall Hnet.
  destruct (url_parses w (url request)) eqn:Hurl;
    [|subst out; rewrite scrape_no_call in Hcall by (left; exact Hurl);
      apply elem_of_nil in Hcall; contradiction].
  destruct (Z.leb_spec maxRetries 0) as [Hmax|Hmax];
    [subst out; rewrite scrape_no_call in Hcall by (right; exact Hmax);
     apply elem_of_nil in Hcall; contradiction|].
  destruct (scrape_run request maxRetries Hurl ltac:(lia))
    as (k & last' & fuel & credits & Hk & Hf & Hpre & Hend & Hres).
  fold out in Hf, Hres. rewrite Hf in *.
  apply list_elem_of_fmap in Hcall as (j' & Heq & Hj). injection Heq as <-.
  apply elem_of_seq in Hj.
  split.
  - intros Hterminal.
    pose proof (retried_reply_terminal_status status text hdrs Hterminal) as Hnot.
    rewrite <- Hnet in Hnot.
    assert (j = k) as ->.
    { destruct (decide (j = k)) as [Heq|Hne]; [exact Heq|].
      rewrite Hpre in Hnot by lia. discriminate. }
    split.
    + intros Hin. apply list_elem_of_fmap in Hin as (j' & Heq & Hj').
      injection Heq as <-. apply elem_of_seq in Hj'. lia.
    + rewrite Hres.
      destruct (scrape_from_terminal_reply cfg w request credits maxRetries fuel k last'
                  status text hdrs Hnet Hterminal) as (_ & Hs & Hstop & Hperm).
      split; [exact Hs|]. split; [exact Hstop|exact Hperm].
  - intros Hretry Hmore.
    pose proof (retried_reply_retryable_status status text hdrs Hretry) as Hyes.
    rewrite <- Hnet in Hyes.
    apply list_elem_of_fmap. exists (S j). split; [reflexivity|].
    apply elem_of_seq. split; [lia|].
    destruct (decide (j = k)) as [->|Hne]; [|lia].
    destruct Hend as [Hend|Hend]; [congruence|lia].
Qed.

(** A request whose result does not end the ladder is followed by the
    next request of the ladder. *)
Lemma fallback_loop_advances (url : string) (timeout : option Z)
    (attempts : list FallbackAttempt) :
  forall (notes : list string) (last : option ScrapeResponse) (i : nat)
         (request : ScrapeRequest),
    let tried := scrapes_of (fallback_loop cfg w url timeout attempts notes last).2 in
    tried !! i = Some request ->
    stops_ladder (scrape cfg w request (RETRY_COUNT cfg)).1 = false ->
    tried !! S i = map (fallback_request url timeout) attempts !! S i.
Proof.
  induction attempts as [|attempt later IH]; intros notes last i request tried Hi Hgo.
  - discriminate.
  - subst tried. rewrite fallback_loop_cons in *. cbv zeta in *.
    destruct (stops_ladder (scrape cfg w (fallback_request url timeout attempt)
                              (RETRY_COUNT cfg)).1) eqn:Hstop; cbn [fst snd] in *.
    + change (scrapes_of (EvScrape ?r :: ?t)) with (r :: scrapes_of t) in *.
      rewrite scrapes_of_scrape in *.
      destruct i as [|i]; [|discriminate].
      injection Hi as <-. congruence.
    + rewrite scrapes_of_round in *.
      destruct i as [|i].
      * cbn [lookup list_lookup map].
        destruct (fallback_loop_trace cfg w url timeout later
                    (notes ++ [failure_note attempt
                                 (scrape cfg w (fallback_request url timeout attempt)
                                    (RETRY_COUNT cfg)).1])
                    (Some (scrape cfg w (fallback_request url timeout attempt)
                             (RETRY_COUNT cfg)).1))
          as (n & Hn & Hn1 & Htr & _).
        rewrite Htr. destruct later as [|next later']; [destruct n; reflexivity|].
        specialize (Hn1 ltac:(discriminate)).
        destruct n as [|n]; [lia|]. reflexivity.
      * cbn [lookup list_lookup map] in *. apply (IH _ _ i request Hi Hgo).
Qed.


End LadderProgress.

(** The scenario of the specification: the first mode is answered with
    401, no later mode is tried and one network call is made. *)
Example ladder_stops_at_401 :
  let w := Samples.always_status 401 "denied" in
  let run := Scraper.scrapeWithFallback Samples.two_attempts w "https://example.com" None in
  Scraper.scrapes_of run.2 = [Scraper.mkScrapeRequest "https://example.com"
                                (Some Scraper.basic) None None]
  /\ Scraper.fetches run.2
     = [(Scraper.mkScrapeRequest "https://example.com" (Some Scraper.basic) None None,
         0%nat)].
Proof. vm_compute. split; reflexivity. Qed.
